(** * SHN Lite Canvas: a shallow embedding of the extraction pipeline,
      the Firestore value conversion and the HTML escaping helper.

    The repository ships two script bundles, each an immediately invoked
    function that publishes a global object: [SHNCanvas] (the interactive session
    UI with [callLLM], [runExtraction] and [escapeHtml]) and [SHNLiteCanvas]
    (the REST client with [firestoreGet], the value converters,
    [chunkByMarker], the JSON-mode [callLLM] and [batchExtract]).  The two
    modules below keep that split and the source's function names. *)

From Stdlib Require Import String Ascii.
From Stdlib Require Import List ZArith NArith Lia Bool.
Import ListNotations.

Set Warnings "-register-all".

(* ================================================================== *)
(** * Part I: definitions                                              *)
(* ================================================================== *)

(** ** JavaScript strings

    A JavaScript string is a sequence of UTF-16 code units.  The regular
    expressions of the source carry no [u] flag, so they too work on code
    units; a character outside the basic plane is two of them. *)

Definition codeUnit := N.
Definition jsstring := list codeUnit.

(** An ASCII literal of the source as a [jsstring]. *)
Definition lit (s : string) : jsstring :=
  map N_of_ascii (list_ascii_of_string s).

Fixpoint str_eqb (a b : jsstring) : bool :=
  match a, b with
  | [], [] => true
  | x :: a', y :: b' => N.eqb x y && str_eqb a' b'
  | _, _ => false
  end.

Section CodeUnits.
Local Open Scope N_scope.

(** Code units the source names that are not ASCII. *)
Definition cu_teon : codeUnit := 53556.          (* U+D134, the syllable of "turn" *)
Definition cu_nal : codeUnit := 45216.           (* U+B0A0 *)
Definition cu_jja : codeUnit := 51676.           (* U+C9DC *)
Definition cu_e : codeUnit := 50640.             (* U+C5D0 *)
Definition cu_pi : codeUnit := 54588.            (* U+D53C *)
Definition cu_so : codeUnit := 49548.            (* U+C18C *)
Definition cu_deu : codeUnit := 46300.           (* U+B4DC *)
Definition newline : codeUnit := 10.
Definition calendar_emoji : jsstring := [55357; 56517].   (* U+1F4C5 *)
Definition book_emoji : jsstring := [55357; 56534].       (* U+1F4D6 *)

(** [\s] of a regular expression, the characters [String.prototype.trim]
    strips and the ones [parseInt] skips: WhiteSpace and LineTerminator. *)
Definition isWhiteSpace (c : codeUnit) : bool :=
  ((9 <=? c) && (c <=? 13)) || (c =? 32) || (c =? 160) || (c =? 5760)
  || ((8192 <=? c) && (c <=? 8202)) || (c =? 8232) || (c =? 8233)
  || (c =? 8239) || (c =? 8287) || (c =? 12288) || (c =? 65279).

(** [\d]. *)
Definition isDigit (c : codeUnit) : bool := (48 <=? c) && (c <=? 57).

(** Canonicalize of a case-insensitive (flag [i], no flag [u]) match: the
    upper-case mapping of the code unit, which never sends a non-ASCII
    character to an ASCII one.  The source's [i] patterns hold ASCII
    letters, Hangul syllables, surrogates and punctuation only, and on
    those comparing canonical forms is comparing ASCII-upper-cased units. *)
Definition canonicalize (c : codeUnit) : codeUnit :=
  if (97 <=? c) && (c <=? 122) then c - 32 else c.

End CodeUnits.

Fixpoint trimStart (s : jsstring) : jsstring :=
  match s with
  | c :: s' => if isWhiteSpace c then trimStart s' else s
  | [] => []
  end.

Definition trimEnd (s : jsstring) : jsstring := rev (trimStart (rev s)).

(** [String.prototype.trim]. *)
Definition trim (s : jsstring) : jsstring := trimEnd (trimStart s).

(** ToBoolean of a string: the empty string is the only falsy one. *)
Definition truthyStr (s : jsstring) : bool :=
  match s with [] => false | _ :: _ => true end.

(** [Array.prototype.join] on an array of strings. *)
Fixpoint join (sep : jsstring) (l : list jsstring) : jsstring :=
  match l with
  | [] => []
  | [x] => x
  | x :: l' => x ++ sep ++ join sep l'
  end.

(** [Array.prototype.slice (i, j)] for indices within [0, +inf). *)
Definition slice {A} (i j : nat) (l : list A) : list A :=
  firstn (j - i) (skipn i l).

(** [String.prototype.startsWith]. *)
Fixpoint startsWith (s p : jsstring) {struct p} : bool :=
  match p, s with
  | [], _ => true
  | x :: p', y :: s' => N.eqb x y && startsWith s' p'
  | _ :: _, [] => false
  end.

(** ** Regular expressions

    A backtracking matcher in continuation-passing style for the fragment
    the source uses: character tests, sequence, ordered alternative, greedy
    and lazy iteration of a character test, and capture group 1. *)

Inductive regex : Type :=
| Eps
| Cls (p : codeUnit -> bool)
| Seq (r1 r2 : regex)
| Alt (r1 r2 : regex)
| Star (p : codeUnit -> bool)
| LazyStar (p : codeUnit -> bool)
| Group (r : regex).

Fixpoint starGreedy {A} (p : codeUnit -> bool) (s : jsstring)
    (k : jsstring -> option A) : option A :=
  match s with
  | c :: s' =>
      if p c then
        match starGreedy p s' k with
        | Some x => Some x
        | None => k s
        end
      else k s
  | [] => k s
  end.

Fixpoint starLazy {A} (p : codeUnit -> bool) (s : jsstring)
    (k : jsstring -> option A) : option A :=
  match k s with
  | Some x => Some x
  | None =>
      match s with
      | c :: s' => if p c then starLazy p s' k else None
      | [] => None
      end
  end.

(** [matchRe r s cap k]: match [r] at the head of [s]; [cap] is capture 1 so
    far; [k] continues with the rest of the input.  [None] makes the caller
    backtrack. *)
Fixpoint matchRe {A} (r : regex) (s : jsstring) (cap : option jsstring)
    (k : jsstring -> option jsstring -> option A) : option A :=
  match r with
  | Eps => k s cap
  | Cls p =>
      match s with
      | c :: s' => if p c then k s' cap else None
      | [] => None
      end
  | Seq r1 r2 => matchRe r1 s cap (fun s1 cap1 => matchRe r2 s1 cap1 k)
  | Alt r1 r2 =>
      match matchRe r1 s cap k with
      | Some x => Some x
      | None => matchRe r2 s cap k
      end
  | Star p => starGreedy p s (fun s' => k s' cap)
  | LazyStar p => starLazy p s (fun s' => k s' cap)
  | Group r1 =>
      matchRe r1 s cap
        (fun s1 _ => k s1 (Some (firstn (length s - length s1) s)))
  end.

(** The match of [r] anchored at the head of [s]: capture 1, if any match. *)
Definition matchHere (r : regex) (s : jsstring) : option (option jsstring) :=
  matchRe r s None (fun _ cap => Some cap).

(** A lookahead [(?=r)] at the head of [s]. *)
Definition lookahead (r : regex) (s : jsstring) : bool :=
  match matchHere r s with Some _ => true | None => false end.

(** [String.prototype.match] with a regular expression without flag [g]:
    the leftmost match, of which the callers read capture 1. *)
Fixpoint matchFirst (r : regex) (s : jsstring) : option (option jsstring) :=
  match matchHere r s with
  | Some cap => Some cap
  | None =>
      match s with
      | [] => None
      | _ :: s' => matchFirst r s'
      end
  end.

Definition Chr (c : codeUnit) : regex := Cls (N.eqb c).
Definition ChrI (c : codeUnit) : regex :=
  Cls (fun x => N.eqb (canonicalize x) (canonicalize c)).
Definition Plus (p : codeUnit -> bool) : regex := Seq (Cls p) (Star p).
Definition Opt (r : regex) : regex := Alt r Eps.

Fixpoint Str (s : jsstring) : regex :=
  match s with
  | [] => Eps
  | c :: s' => Seq (Chr c) (Str s')
  end.

Fixpoint StrI (s : jsstring) : regex :=
  match s with
  | [] => Eps
  | c :: s' => Seq (ChrI c) (StrI s')
  end.

Fixpoint Seqs (l : list regex) : regex :=
  match l with
  | [] => Eps
  | r :: l' => Seq r (Seqs l')
  end.

(** [String.prototype.split] with a separator that is a lookahead
    [(?=r)], hence matches the empty string.  The loop of the standard
    keeps [p], the start of the current piece, and [q], the position tried;
    a match at [q = p] only advances [q].  [cur] is [S[p..q)] and [s] is
    [S[q..]] with [q > p]. *)
Fixpoint splitLoop (test : jsstring -> bool) (cur s : jsstring)
    : list jsstring :=
  match s with
  | [] => [cur]
  | c :: s' =>
      if test s then cur :: splitLoop test [c] s'
      else splitLoop test (cur ++ [c]) s'
  end.

Definition split (test : jsstring -> bool) (S : jsstring) : list jsstring :=
  match S with
  | [] => if test [] then [] else [[]]
  | c :: s' => splitLoop test [c] s'
  end.

(** The grouping loop both bundles use:
    [for (let i = 0; i < blocks.length; i += chunkSize)
       grouped.push(blocks.slice(i, i + chunkSize).join('\n\n'))].
    With [chunkSize = 0] the source never leaves the loop; the model then
    runs out of [fuel] and answers [None]. *)
Fixpoint groupLoop (fuel : nat) (blocks : list jsstring) (chunkSize i : nat)
    (grouped : list jsstring) : option (list jsstring) :=
  match fuel with
  | O => None
  | S fuel' =>
      if i <? length blocks then
        groupLoop fuel' blocks chunkSize (i + chunkSize)
          (grouped ++ [join [newline; newline]
                         (slice i (i + chunkSize) blocks)])
      else Some grouped
  end.

(** ** Numbers

    A JavaScript number is a double.  The source asks one thing of a
    number, [Number.isInteger], so the model keeps the two kinds apart:
    the numbers with an integral value, carried by that value, and the
    others.  The two zeros are one [NumInt 0]; nothing in the source tells
    them apart.  An integer beyond 2^53 stands for a double only when a
    double has exactly that value. *)

Inductive jsnumber : Type :=
| NumInt (z : Z)
| NumFrac (mantissa : Z) (exponent : positive)   (* mantissa / 2^exponent, mantissa odd *)
| NumInf (negative : bool)
| NumNaN.

Section Decimal.
Local Open Scope N_scope.

Fixpoint digitsFuel (fuel : nat) (n : N) (acc : jsstring) : jsstring :=
  match fuel with
  | O => acc
  | S fuel' =>
      let acc' := (48 + n mod 10) :: acc in
      if n / 10 =? 0 then acc' else digitsFuel fuel' (n / 10) acc'
  end.

(** The decimal digits of [n], most significant first. *)
Definition decimal (n : N) : jsstring :=
  digitsFuel (S (N.to_nat (N.log2 n))) n [].

Definition digitValue (c : codeUnit) : N := c - 48.

(** The value of a run of decimal digits read after the value [acc]. *)
Fixpoint digitsValue (acc : N) (ds : jsstring) : N :=
  match ds with
  | [] => acc
  | c :: ds' => digitsValue (10 * acc + digitValue c) ds'
  end.

Fixpoint takeDigits (s : jsstring) : jsstring :=
  match s with
  | c :: s' => if isDigit c then c :: takeDigits s' else []
  | [] => []
  end.

Fixpoint stripTrailingZeros (ds : jsstring) : jsstring :=
  match ds with
  | [] => []
  | c :: ds' =>
      match stripTrailingZeros ds' with
      | [] => if c =? 48 then [] else [c]
      | t => c :: t
      end
  end.

End Decimal.

(** [String(value)] on a number with an integral value (Number::toString,
    radix 10): plain decimal digits below 10^21, exponent notation from
    there on.  In exponent notation the source prints the shortest digits
    that read back as the same double, the model those of the integer;
    either way it is one digit followed by [.] or [e]. *)
Definition Number_toString (z : Z) : jsstring :=
  let ds := decimal (Z.abs_N z) in
  let body :=
    if (Z.abs z <? 10 ^ 21)%Z then ds
    else
      match ds with
      | [] => []
      | d :: rest =>
          let frac := stripTrailingZeros rest in
          (d :: match frac with [] => [] | _ => 46%N :: frac end)
            ++ lit "e+" ++ decimal (N.of_nat (List.length rest))
      end in
  if (z <? 0)%Z then 45%N :: body else body.

(** [parseInt(string, 10)]: leading white space is skipped, then an
    optional sign, then the longest run of decimal digits; without a digit
    the answer is NaN, here [None].  (With the radix given as 10 no [0x]
    prefix is looked for.)  The value is the integer read. *)
Definition parseInt (s : jsstring) : option Z :=
  let s1 := trimStart s in
  let signed :=
    match s1 with
    | c :: r =>
        if (c =? 45)%N then (true, r)
        else if (c =? 43)%N then (false, r)
        else (false, s1)
    | [] => (false, s1)
    end in
  match takeDigits (snd signed) with
  | [] => None
  | ds =>
      let n := Z.of_N (digitsValue 0%N ds) in
      Some (if fst signed then (- n)%Z else n)
  end.

(** ** Values

    The native values the store client converts: what [JSON.parse] yields,
    [undefined], and [Date] objects.  An object is the list of its own
    enumerable entries in the order [Object.entries] gives them.  A Date
    is a valid one, written by the text its [toISOString()] answers; an
    Invalid Date, on which [toISOString()] throws a RangeError, is no
    value of this type. *)

Inductive jsvalue : Type :=
| JNull
| JUndefined
| JString (s : jsstring)
| JNumber (n : jsnumber)
| JBoolean (b : bool)
| JArray (elements : list jsvalue)
| JDate (iso : jsstring)           (* a Date, by its [toISOString()] *)
| JObject (entries : list (jsstring * jsvalue)).

(** ToBoolean. *)
Definition truthy (v : jsvalue) : bool :=
  match v with
  | JNull | JUndefined => false
  | JString s => truthyStr s
  | JNumber (NumInt z) => negb (Z.eqb z 0)
  | JNumber NumNaN => false
  | JNumber _ => true
  | JBoolean b => b
  | JArray _ | JDate _ | JObject _ => true
  end.

Section Properties.
Context {V : Type}.

(** [obj.key] on a plain object: the own entry, [None] for [undefined]. *)
Fixpoint getProp (entries : list (jsstring * V)) (key : jsstring) : option V :=
  match entries with
  | [] => None
  | (k, v) :: rest => if str_eqb k key then Some v else getProp rest key
  end.

Fixpoint assign (entries : list (jsstring * V)) (key : jsstring) (v : V)
    : list (jsstring * V) :=
  match entries with
  | [] => [(key, v)]
  | (k, old) :: rest =>
      if str_eqb k key then (k, v) :: rest else (k, old) :: assign rest key v
  end.

(** [obj[key] = v] on an object made by an object literal.  The key
    [__proto__] reaches the accessor of [Object.prototype] instead of
    making an own entry. *)
Definition setProp (entries : list (jsstring * V)) (key : jsstring) (v : V)
    : list (jsstring * V) :=
  if str_eqb key (lit "__proto__") then entries else assign entries key v.

End Properties.

(** Results of code that may throw. *)
Inductive result (A : Type) : Type :=
| Ok (a : A)
| Throw (message : jsstring).
Arguments Ok {A} a.
Arguments Throw {A} message.

Definition orElse (a : option jsstring) (b : jsstring) : jsstring :=
  match a with
  | Some s => if truthyStr s then s else b
  | None => b
  end.

(** What [fetch] answers to a generation request: the promise rejects, or
    a response arrives.  Of a response the callers read the status, the
    body as text, and the body as JSON, of which they follow
    [candidates[0].content.parts[*].text]; every link may be absent. *)
Record part : Type := { text : option jsstring }.
Record content : Type := { parts : option (list part) }.
Record candidate : Type := { candidate_content : option content }.
Record generation : Type := { candidates : option (list candidate) }.

Record llmResponse : Type := {
  llm_status : Z;
  llm_statusText : jsstring;
  llm_text : jsstring;                       (* [response.text()] *)
  llm_errorMessage : option jsstring;        (* [error.message] of a JSON error body *)
  llm_json : option generation               (* [response.json()], [None] when it rejects *)
}.

Inductive fetched (R : Type) : Type :=
| Rejected (reason : jsstring)
| Responded (r : R).
Arguments Rejected {R} reason.
Arguments Responded {R} r.

(** [Response.ok]. *)
Definition ok (status : Z) : bool := (200 <=? status)%Z && (status <=? 299)%Z.

(** What a run does to the world, in order. *)
Inductive event : Type :=
| Alert
| LLMCall (request : jsstring)
| Delay (ms : Z)
| Progress (current total : nat)
| StoreSet (chunkSize totalChunks : nat) (stored : jsstring)
| Download (blob : jsstring).

Definition isDelay (e : event) : bool :=
  match e with Delay _ => true | _ => false end.

Definition isLLMCall (e : event) : bool :=
  match e with LLMCall _ => true | _ => false end.

Definition isStoreSet (e : event) : bool :=
  match e with StoreSet _ _ _ => true | _ => false end.

(** ** Reading a value

    [member value key] is [value.key] for a value that is neither [null]
    nor [undefined] and a key that no prototype defines, as all the keys
    are that the source reads this way: the own entry of an object,
    [undefined] for a missing entry and for every other value. *)
Definition member (value : jsvalue) (key : jsstring) : jsvalue :=
  match value with
  | JObject entries =>
      match getProp entries key with Some v => v | None => JUndefined end
  | _ => JUndefined
  end.

(** [value?.key] *)
Definition optionalMember (value : jsvalue) (key : jsstring) : jsvalue :=
  match value with
  | JNull | JUndefined => JUndefined
  | _ => member value key
  end.

(** [value[0]] for a value that is neither [null] nor [undefined]. *)
Definition firstOf (value : jsvalue) : jsvalue :=
  match value with
  | JArray (x :: _) => x
  | JString (c :: _) => JString [c]
  | JObject _ => member value (lit "0")
  | _ => JUndefined
  end.

(** [a || b] *)
Definition orValue (a b : jsvalue) : jsvalue := if truthy a then a else b.

(** [target.key = v] in strict mode, as the result for [target]: an
    object gets the entry, [null], [undefined] and the primitive values
    make the assignment throw.  An array or a Date would get a property
    besides its elements, which [jsvalue] does not write down: [None]. *)
Definition assignMember (target : jsvalue) (key : jsstring) (v : jsvalue)
    : option (result jsvalue) :=
  match target with
  | JObject entries => Some (Ok (JObject (setProp entries key v)))
  | JArray _ | JDate _ => None
  | _ => Some (Throw (lit "TypeError"))
  end.

(* ------------------------------------------------------------------ *)
(** ** The bundle publishing [SHNCanvas]                               *)
(* ------------------------------------------------------------------ *)

Module SHNCanvas.

Definition backtick : codeUnit := 96%N.
Definition fence : jsstring := [backtick; backtick; backtick].

(** [/```(?:json)?\s*([\s\S]*?)\s*```/] *)
Definition codeBlockRe : regex :=
  Seqs [Str fence; Opt (Str (lit "json")); Star isWhiteSpace;
        Group (LazyStar (fun _ => true)); Star isWhiteSpace; Str fence].

(** The end of [callLLM]: from the response text to the value returned. *)
Definition stripCodeBlock (resultText : jsstring) : result jsstring :=
  match matchFirst codeBlockRe resultText with
  | Some (Some inner) => Ok (trim inner)
  | Some None => Throw (lit "TypeError")
  | None => Ok (trim resultText)
  end.

Definition msgNoApiKey : jsstring :=
  lit "API " ++ [53412; 44032; 32; 49444; 51221; 46104; 51648; 32; 50506;
                 50520; 49845; 45768; 45796; 46]%N.
Definition msgCallFailed : jsstring :=
  lit "Gemini API " ++ [54840; 52636; 32; 49892; 54056; 58; 32]%N.
Definition msgBadShape : jsstring :=
  [51025; 45813; 32; 54805; 49885; 51060; 32; 50732; 48148; 47476; 51648;
   32; 50506; 49845; 45768; 45796; 46]%N.

Definition fullPrompt (systemPrompt userMessage : jsstring) : jsstring :=
  if truthyStr systemPrompt
  then systemPrompt ++ [newline; newline] ++ lit "---" ++ [newline; newline]
         ++ userMessage
  else userMessage.

(** [callLLM(userMessage, systemPrompt)]: [apiKey] is the configured key,
    [fetch] what the endpoint answers to the request. *)
Definition callLLM (apiKey : jsstring) (fetch : jsstring -> fetched llmResponse)
    (userMessage systemPrompt : jsstring) : list event * result jsstring :=
  if negb (truthyStr apiKey) then ([], Throw msgNoApiKey)
  else
    let request := fullPrompt systemPrompt userMessage in
    ([LLMCall request],
     match fetch request with
     | Rejected reason => Throw reason
     | Responded response =>
         if negb (ok (llm_status response)) then
           Throw (msgCallFailed ++ Number_toString (llm_status response)
                    ++ lit " - " ++ llm_text response)
         else
           match llm_json response with
           | None => Throw (lit "SyntaxError")
           | Some data =>
               match candidates data with
               | Some ({| candidate_content := Some c |} :: _) =>
                   let textParts :=
                     match parts c with Some ps => ps | None => [] end in
                   let resultText :=
                     concat (map (fun p => orElse (text p) []) textParts) in
                   stripCodeBlock resultText
               | _ => Throw msgBadShape
               end
           end
     end).

(** [Math.max(1, Math.min(100, parseInt(chunkSizeStr, 10) || 10))] *)
Definition chunkSizeOf (chunkSizeStr : jsstring) : Z :=
  Z.max 1
    (Z.min 100
       (match parseInt chunkSizeStr with
        | Some n => if (n =? 0)%Z then 10 else n
        | None => 10
        end))%Z.

Record turn : Type := {
  turn_content : option jsstring;
  turn_narrative : option jsstring;
  turnNumber : Z
}.

Definition turnMarker : jsstring := lit "## [" ++ [cu_teon].

(** Step 1 of [runExtraction]: every turn as Markdown, joined. *)
Definition allMarkdown (turns : list turn) : jsstring :=
  join [newline; newline]
    (map (fun t =>
            let content := orElse (turn_content t) (orElse (turn_narrative t) []) in
            if startsWith (trim content) turnMarker then content
            else turnMarker ++ lit " " ++ Number_toString (turnNumber t)
                   ++ lit "]" ++ [newline; newline] ++ content)
         turns).

(** Step 2: [allMarkdown.split(/(?=## \[턴)/).filter(b => b.trim())] *)
Definition turnBlocks (markdown : jsstring) : list jsstring :=
  filter (fun b => truthyStr (trim b)) (split (lookahead (Str turnMarker)) markdown).

(** Step 3: blocks gathered [chunkSize] at a time. *)
Definition chunksOf (blocks : list jsstring) (chunkSize : nat)
    : option (list jsstring) :=
  groupLoop (S (List.length blocks)) blocks chunkSize 0 [].

Definition msgNoTurns : jsstring :=
  [52376; 47532; 54624; 32; 53556; 32; 45936; 51060; 53552; 44032; 32;
   50630; 49845; 45768; 45796; 46]%N.
Definition dataStart : jsstring :=
  lit "--- " ++ [45936; 51060; 53552; 32; 49884; 51089]%N ++ lit " ---" ++ [newline].
Definition dataEnd : jsstring :=
  [newline] ++ lit "--- " ++ [45936; 51060; 53552; 32; 45149]%N ++ lit " ---".

(** The four elements [runExtraction] looks up on the page with
    [document.getElementById]: [true] for an element the page has (an HTML
    element, with its [style]), [false] when the lookup answers [null]. *)
Record page : Type := {
  progressEl : bool;                                  (* [shn-extraction-progress] *)
  progressBar : bool;                                 (* [shn-progress-bar] *)
  progressText : bool;                                (* [shn-progress-text] *)
  statusEl : bool                                     (* [shn-session-status] *)
}.

(** The surroundings of one run of [runExtraction]. *)
Record world : Type := {
  apiKey : jsstring;                                  (* [getApiConfig().apiKey] *)
  promptAnswer : option jsstring;                     (* [prompt(...)], [None] when dismissed *)
  dom : page;                                         (* what the page holds *)
  fetch : nat -> jsstring -> fetched llmResponse;     (* the answer to the n-th request *)
  storeReady : bool;                                  (* [db && currentSessionId] *)
  confirmDownload : bool                              (* [confirm(...)] *)
}.

Section RunExtraction.
Variable NARRATIVE_DATA_REFINER_PROMPT : jsstring.
Variable w : world.

(** Step 4, the loop over the chunks: [k] iterations are left, [i] is the
    loop variable.  A throwing [callLLM] leaves the loop for the [catch]
    of [runExtraction]. *)
Fixpoint processChunks (chunks : list jsstring) (k i : nat)
    (accumulatedResults : list jsstring) (trace : list event)
    : list event * result (list jsstring) :=
  match k with
  | O => (trace, Ok accumulatedResults)
  | S k' =>
      let userMessage := dataStart ++ nth i chunks [] ++ dataEnd in
      let (called, outcome) :=
        callLLM (apiKey w) (fetch w i) userMessage NARRATIVE_DATA_REFINER_PROMPT in
      match outcome with
      | Throw message => (trace ++ called, Throw message)
      | Ok r =>
          processChunks chunks k' (S i) (accumulatedResults ++ [r])
            (trace ++ called
               ++ (if i <? List.length chunks - 1 then [Delay 2000] else []))
      end
  end.

(** How a run ends: it never started (no key, or the prompt was
    dismissed), it reached the end with the merged result, the [catch]
    block reported a failure, or an exception left the function (the
    promise it returned is rejected). *)
Inductive ending : Type :=
| NotStarted
| Completed (finalResult : jsstring)
| Failed (message : jsstring)
| Uncaught (error : jsstring).

(** The [catch] block, entered with [error.message] after the events of
    [trace]: it writes the failure to [progressText] and to [statusEl].
    Writing to a [statusEl] that is [null] throws, and nothing catches
    that. *)
Definition catchBlock (trace : list event) (message : jsstring)
    : list event * ending :=
  if statusEl (dom w) then (trace, Failed message)
  else (trace, Uncaught (lit "TypeError")).

Definition runExtraction (turns : list turn) : option (list event * ending) :=
  if negb (truthyStr (apiKey w)) then Some ([Alert], NotStarted)
  else
    match promptAnswer w with
    | None => Some ([], NotStarted)
    | Some chunkSizeStr =>
        if negb (truthyStr chunkSizeStr) then Some ([], NotStarted)
        else
          let chunkSize := Z.to_nat (chunkSizeOf chunkSizeStr) in
          (* before the [try]: [progressEl.style.display = 'block'],
             [progressBar.style.width = '0%'], [progressText.textContent = ...] *)
          if negb (progressEl (dom w)) then Some ([], Uncaught (lit "TypeError"))
          else if negb (progressBar (dom w)) then Some ([], Uncaught (lit "TypeError"))
          else if negb (progressText (dom w)) then Some ([], Uncaught (lit "TypeError"))
          else
            match chunksOf (turnBlocks (allMarkdown turns)) chunkSize with
            | None => None
            | Some chunks =>
                if List.length chunks =? 0 then Some (catchBlock [] msgNoTurns)
                else
                  match processChunks chunks (List.length chunks) 0 [] [] with
                  | (trace, Throw message) => Some (catchBlock trace message)
                  | (trace, Ok accumulatedResults) =>
                      let finalResult :=
                        join (lit "," ++ [newline])
                          (filter (fun r => truthyStr (trim r)) accumulatedResults) in
                      let saved :=
                        if storeReady w
                        then [StoreSet chunkSize (List.length chunks) finalResult]
                        else [] in
                      (* [statusEl.textContent = ...] after the store write, or
                         in its place: on [null] it throws inside the [try] *)
                      if negb (statusEl (dom w))
                      then Some (catchBlock (trace ++ saved) (lit "TypeError"))
                      else
                        let downloaded :=
                          if confirmDownload w
                          then [Download (lit "[" ++ finalResult ++ lit "]")]
                          else [] in
                        Some (trace ++ saved ++ downloaded, Completed finalResult)
                  end
            end
    end.

End RunExtraction.

Section EscapeHtml.
(** [String(text)] on a value that is not a string. *)
Variable String_ : jsvalue -> jsstring.

(** [s.replace(/c/g, by)] for a pattern that is one character. *)
Definition replaceAll (c : codeUnit) (by_ : jsstring) (s : jsstring) : jsstring :=
  flat_map (fun x => if N.eqb x c then by_ else [x]) s.

Definition escapeHtml (text_ : jsvalue) : jsstring :=
  if negb (truthy text_) then []
  else
    let s := match text_ with JString s => s | _ => String_ text_ end in
    replaceAll 34%N (lit "&quot;")
      (replaceAll 62%N (lit "&gt;")
         (replaceAll 60%N (lit "&lt;")
            (replaceAll 38%N (lit "&amp;") s))).

End EscapeHtml.

Section SanitizeFilename.
(** [String(name)] on a value that is not a string. *)
Variable String_ : jsvalue -> jsstring.

(** The class of the first pattern: less-than, greater-than, colon,
    double quote, slash, backslash, bar, question mark and asterisk. *)
Definition isReservedChar (c : codeUnit) : bool :=
  existsb (N.eqb c) [60; 62; 58; 34; 47; 92; 124; 63; 42]%N.

(** [s.replace(/[...]/g, by)] for a pattern that is one character class. *)
Definition replaceClass (p : codeUnit -> bool) (by_ s : jsstring) : jsstring :=
  flat_map (fun x => if p x then by_ else [x]) s.

(** [s.replace(/\s+/g, by)]: the pattern is greedy, so each maximal run of
    white space is one match and becomes one [by_].  [inRun] says that the
    code unit before belongs to the run being replaced. *)
Fixpoint replaceRuns (p : codeUnit -> bool) (by_ : jsstring) (inRun : bool)
    (s : jsstring) : jsstring :=
  match s with
  | [] => []
  | c :: s' =>
      if p c then (if inRun then [] else by_) ++ replaceRuns p by_ true s'
      else c :: replaceRuns p by_ false s'
  end.

(** [sanitizeFilename(name)]; [substring(0, 50)] keeps the first 50 code
    units. *)
Definition sanitizeFilename (name : jsvalue) : jsstring :=
  let s := match name with JString s => s | _ => String_ name end in
  firstn 50
    (replaceRuns isWhiteSpace (lit "_") false
       (replaceClass isReservedChar (lit "_") s)).

End SanitizeFilename.

(** What [convertHtmlToMarkdown] reads of the parsed document: the answers
    of its [querySelector] and [querySelectorAll] calls, an element by its
    [textContent].  [None] is a query without a match. *)
Record dashboardItem : Type := {
  item_key : option jsstring;                      (* [.key] *)
  item_value : option jsstring                     (* [.value] *)
}.

Record dashboardSection : Type := {
  section_title : option jsstring;                 (* [.dashboard-section-title] *)
  section_items : list dashboardItem               (* [.dashboard-item] *)
}.

Record contentSection : Type := {
  classList : list jsstring;
  paragraphs : list jsstring;                      (* [p] *)
  blockquote : option jsstring;                    (* [blockquote] *)
  heading : option jsstring;                       (* [h2] *)
  dashboardSections : list dashboardSection;       (* [.dashboard-section] *)
  listItems : list jsstring                        (* [li] *)
}.

Record headerElement : Type := {
  mainTitle : option jsstring;                     (* [h1] *)
  subtitle : option jsstring                       (* [.subtitle] *)
}.

Record parsedDocument : Type := {
  header : option headerElement;                   (* [.header] *)
  contentSections : list contentSection            (* [.content-section] *)
}.

(** [classList.contains(name)] *)
Definition contains (classes : list jsstring) (name : jsstring) : bool :=
  existsb (str_eqb name) classes.

(** [s.split('\n')] *)
Fixpoint splitLines (cur s : jsstring) : list jsstring :=
  match s with
  | [] => [cur]
  | c :: s' =>
      if N.eqb c newline then cur :: splitLines [] s'
      else splitLines (cur ++ [c]) s'
  end.

Definition statusHeading : jsstring :=
  lit "### " ++ [49345; 53468; 32; 51221; 48372]%N ++ [newline; newline].
Definition choicesHeading : jsstring :=
  lit "### " ++ [51228; 49884; 46108; 32; 49440; 53469; 51648]%N ++ [newline; newline].

(** The text one [.dashboard-section] adds. *)
Definition dashboardText (ds : dashboardSection) : jsstring :=
  match section_title ds, section_items ds with
  | Some title, _ :: _ =>
      lit "**" ++ trim title ++ lit "**" ++ [newline]
        ++ flat_map
             (fun item =>
                match item_key item, item_value item with
                | Some key, Some value =>
                    lit "- **" ++ trim key ++ lit ":** " ++ trim value ++ [newline]
                | _, _ => []
                end)
             (section_items ds)
        ++ [newline]
  | _, _ => []
  end.

(** The numbered lines of an ordered list, [idx] the index of the first. *)
Fixpoint numbered (idx : nat) (items : list jsstring) : jsstring :=
  match items with
  | [] => []
  | item :: rest =>
      Number_toString (Z.of_nat (idx + 1)) ++ lit ". " ++ trim item ++ [newline]
        ++ numbered (S idx) rest
  end.

(** The text one [.content-section] adds: the first of the five type
    classes it carries decides, a section with none of them adds
    nothing. *)
Definition sectionText (section : contentSection) : jsstring :=
  if contains (classList section) (lit "type-paragraph") then
    flat_map (fun p => trim p ++ [newline; newline]) (paragraphs section)
  else if contains (classList section) (lit "type-blockquote") then
    match blockquote section with
    | Some quote =>
        join [newline]
          (map (fun line => lit "> " ++ trim line) (splitLines [] (trim quote)))
          ++ [newline; newline]
    | None => []
    end
  else if contains (classList section) (lit "type-heading-h2") then
    match heading section with
    | Some h2 => lit "## " ++ trim h2 ++ [newline; newline]
    | None => []
    end
  else if contains (classList section) (lit "type-status-dashboard") then
    statusHeading ++ flat_map dashboardText (dashboardSections section)
      ++ lit "---" ++ [newline; newline]
  else if contains (classList section) (lit "type-ordered-list") then
    choicesHeading ++ numbered 0 (listItems section) ++ [newline]
  else [].

(** [convertHtmlToMarkdown(htmlContent, turn)], from the document the
    parser made of [htmlContent]. *)
Definition convertHtmlToMarkdown (doc : parsedDocument) (turn_ : Z) : jsstring :=
  [newline; newline] ++ turnMarker ++ lit " " ++ Number_toString turn_ ++ lit "]"
    ++ [newline; newline]
    ++ match header doc with
       | Some h =>
           match mainTitle h with
           | Some title => lit "### @mainTitle: " ++ trim title ++ [newline]
           | None => []
           end
           ++ match subtitle h with
              | Some sub => lit "### @mainSubtitle: " ++ trim sub ++ [newline]
              | None => []
              end
           ++ [newline]
       | None => []
       end
    ++ flat_map sectionText (contentSections doc).

(** *** The API settings

    [userApiSettings] is the settings object of the bundle: the empty
    object at first, then what [loadUserSettingsFromFirebase] read or
    made. *)
Definition defaultModel : jsstring := lit "gemini-2.0-flash-exp".

(** [getApiKey()] *)
Definition getApiKey (userApiSettings : jsvalue) : jsvalue :=
  let presets := orValue (member userApiSettings (lit "apiPresets")) (JArray []) in
  let currentPreset := firstOf presets in
  orValue (optionalMember currentPreset (lit "apiKey")) (JString []).

Record apiConfig : Type := {
  config_apiKey : jsvalue;
  config_model : jsvalue;
  config_provider : jsvalue
}.

(** [getApiConfig()] *)
Definition getApiConfig (userApiSettings : jsvalue) : apiConfig :=
  let presets := orValue (member userApiSettings (lit "apiPresets")) (JArray []) in
  let currentPreset := firstOf presets in
  {| config_apiKey := orValue (optionalMember currentPreset (lit "apiKey")) (JString []);
     config_model :=
       orValue (optionalMember currentPreset (lit "model")) (JString defaultModel);
     config_provider :=
       orValue (optionalMember currentPreset (lit "provider")) (JString (lit "gemini")) |}.

(** The preset [setApiKey] pushes when there is none. *)
Definition newPreset (apiKey model : jsstring) : jsvalue :=
  JObject [(lit "name", JString (lit "Default"));
           (lit "provider", JString (lit "gemini"));
           (lit "apiKey", JString apiKey);
           (lit "model", JString model);
           (lit "tokensUsed", JNumber (NumInt 0))].

(** The two assignments of [setApiKey] to the first preset. *)
Definition updatePreset (preset : jsvalue) (apiKey model : jsstring)
    : option (result jsvalue) :=
  match assignMember preset (lit "apiKey") (JString apiKey) with
  | Some (Ok keyed) => assignMember keyed (lit "model") (JString model)
  | other => other
  end.

(** [setApiKey(apiKey, model)]: the entries of [userApiSettings] after
    the call, when it returns.  [model] is [None] when the argument is left
    out.  [saveUserSettingsToFirebase], which the call ends with, catches
    whatever goes wrong in it, so it decides nothing here.  [None] is a
    result the model has no value for, see [assignMember]. *)
Definition setApiKey (userApiSettings : list (jsstring * jsvalue))
    (apiKey : jsstring) (model : option jsstring)
    : option (result (list (jsstring * jsvalue))) :=
  let model_ := match model with Some m => m | None => defaultModel end in
  let settings :=
    if negb (truthy (member (JObject userApiSettings) (lit "apiPresets")))
    then setProp userApiSettings (lit "apiPresets") (JArray [])
    else userApiSettings in
  let presets := member (JObject settings) (lit "apiPresets") in
  let keep (rebuild : jsvalue -> jsvalue) (updated : option (result jsvalue)) :=
    match updated with
    | Some (Ok preset) => Some (Ok (setProp settings (lit "apiPresets") (rebuild preset)))
    | Some (Throw e) => Some (Throw e)
    | None => None
    end in
  match presets with
  | JArray [] =>
      Some (Ok (setProp settings (lit "apiPresets") (JArray [newPreset apiKey model_])))
  | JArray (preset :: rest) =>
      keep (fun p => JArray (p :: rest)) (updatePreset preset apiKey model_)
  | JObject entries =>
      match member presets (lit "length") with
      | JNumber (NumInt 0) => Some (Throw (lit "TypeError"))   (* no [push] to call *)
      | _ =>
          keep (fun p => JObject (setProp entries (lit "0") p))
            (updatePreset (member presets (lit "0")) apiKey model_)
      end
  | _ => Some (Throw (lit "TypeError"))
  end.

(** The settings [loadUserSettingsFromFirebase] makes when it finds none. *)
Definition defaultSettings : jsvalue :=
  JObject [(lit "apiPresets", JArray [newPreset [] defaultModel])].

(** [loadUserSettingsFromFirebase()].  [got] is what reading the settings
    document gives: its data, [None] when it does not exist, or a
    failure.  The result is the value [userApiSettings] is left with, and
    whether [saveUserSettingsToFirebase] is called. *)
Definition loadUserSettingsFromFirebase
    (got : result (option (list (jsstring * jsvalue)))) : jsvalue * bool :=
  match got with
  | Ok (Some data) =>
      (orValue (member (JObject data) (lit "userApiSettings")) (JObject []), false)
  | Ok None => (defaultSettings, true)
  | Throw _ => (defaultSettings, false)
  end.

(** *** The session list

    [loadSessions()].  [db] says whether Firestore is initialised, [query]
    is what the query for the sessions gives: the documents, each with its
    id and its data, or a rejection.  The result is the array returned and
    the value [sessionsCache] is left with.  [{ id: doc.id, ...doc.data() }]
    defines its properties in order, so an entry [id] of the data takes the
    place of the document id. *)
Definition sessionEntry (doc : jsstring * list (jsstring * jsvalue)) : jsvalue :=
  JObject (fold_left (fun entries kv => assign entries (fst kv) (snd kv)) (snd doc)
             [(lit "id", JString (fst doc))]).

Definition loadSessions (db : bool)
    (query : result (list (jsstring * list (jsstring * jsvalue))))
    (sessionsCache : list jsvalue) : list jsvalue * list jsvalue :=
  if negb db then ([], sessionsCache)
  else
    match query with
    | Ok docs => (map sessionEntry docs, map sessionEntry docs)
    | Throw _ => ([], sessionsCache)
    end.

End SHNCanvas.

(* ------------------------------------------------------------------ *)
(** ** The bundle publishing [SHNLiteCanvas]                           *)
(* ------------------------------------------------------------------ *)

Module SHNLiteCanvas.

(** A value of the store's REST format: an object with one key that says
    which kind it is.  [values] of an array and [fields] of a map may be
    absent; an object with none of the eight keys is [unknownValue]. *)
Inductive fsvalue : Type :=
| nullValue
| stringValue (s : jsstring)
| integerValue (s : jsstring)
| doubleValue (n : jsnumber)
| booleanValue (b : bool)
| timestampValue (iso : jsstring)
| arrayValue (values : option (list fsvalue))
| mapValue (fields : option (list (jsstring * fsvalue)))
| unknownValue.

Definition isTruthyProp (entries : list (jsstring * jsvalue)) (key : jsstring) : bool :=
  match getProp entries key with
  | Some v => truthy v
  | None => false
  end.

(** [convertToFirestoreValue(value)]; [now] is what
    [new Date().toISOString()] answers. *)
Fixpoint convertToFirestoreValue (now : jsstring) (value : jsvalue) : fsvalue :=
  match value with
  | JNull | JUndefined => nullValue
  | JString s => stringValue s
  | JNumber n =>
      match n with
      | NumInt z => integerValue (Number_toString z)    (* [Number.isInteger(value)] *)
      | _ => doubleValue n
      end
  | JBoolean b => booleanValue b
  | JArray elements =>
      arrayValue (Some (map (convertToFirestoreValue now) elements))
  | JDate iso => timestampValue iso
  | JObject entries =>
      if isTruthyProp entries (lit "_serverTimestamp") then timestampValue now
      else
        mapValue
          (Some (fold_left
                   (fun fields kv =>
                      setProp fields (fst kv) (convertToFirestoreValue now (snd kv)))
                   entries []))
  end.

(** [convertFromFirestoreValue(value)].  Of a [timestampValue] the source
    makes [new Date(text)]: for a text that [toISOString()] wrote this is
    the Date with that text, which is what the model answers; a text of
    another form the source reads as another Date or as an Invalid Date,
    and the model does not follow it there. *)
Fixpoint convertFromFirestoreValue (value : fsvalue) : jsvalue :=
  match value with
  | stringValue s => JString s
  | integerValue s =>
      JNumber (match parseInt s with Some z => NumInt z | None => NumNaN end)
  | doubleValue n => JNumber n
  | booleanValue b => JBoolean b
  | nullValue => JNull
  | timestampValue iso => JDate iso
  | arrayValue (Some values) => JArray (map convertFromFirestoreValue values)
  | arrayValue None => JArray []
  | mapValue (Some fields) =>
      JObject (fold_left
                 (fun result kv =>
                    setProp result (fst kv) (convertFromFirestoreValue (snd kv)))
                 fields [])
  | mapValue None => JObject []
  | unknownValue => JNull
  end.

(** [serverTimestamp()] *)
Definition serverTimestamp : jsvalue :=
  JObject [(lit "_serverTimestamp", JBoolean true)].

(** A document of the REST API: [name] and [fields], each possibly absent. *)
Record document : Type := {
  doc_name : option jsstring;
  doc_fields : option (list (jsstring * fsvalue))
}.

(** [name.split('/').pop()]: what follows the last slash. *)
Fixpoint lastSegment (cur s : jsstring) : jsstring :=
  match s with
  | [] => cur
  | c :: s' => if N.eqb c 47%N then lastSegment [] s' else lastSegment (cur ++ [c]) s'
  end.

(** [convertFromFirestoreDoc(doc)]; [None] is a body that is [null]. *)
Definition convertFromFirestoreDoc (doc : option document) : jsvalue :=
  match doc with
  | None => JNull
  | Some d =>
      match doc_fields d with
      | None => JNull
      | Some fields =>
          let result :=
            fold_left
              (fun result kv =>
                 setProp result (fst kv) (convertFromFirestoreValue (snd kv)))
              fields [] in
          match doc_name d with
          | Some name =>
              if truthyStr name
              then JObject (setProp result (lit "_id") (JString (lastSegment [] name)))
              else JObject result
          | None => JObject result
          end
      end
  end.

(** The body of a response of the store as [response.json()] reads it. *)
Inductive storeBody : Type :=
| NotJson                                       (* [json()] rejects *)
| JsonNull                                      (* the body is [null] *)
| ErrorBody (message : option jsstring)         (* [{ error: { message } }] *)
| DocumentBody (doc : document).

Record storeResponse : Type := {
  status : Z;
  statusText : jsstring;
  body : storeBody
}.

Definition msgNeedsConfig : jsstring :=
  lit "Firebase " ++ [49444; 51221; 32; 54596; 50836]%N.
Definition msgGetFailed : jsstring :=
  lit "Firestore " ++ [51312; 54924; 32; 49892; 54056]%N ++ lit ": ".

(** [firestoreGet(collectionPath, docId)].  [projectId] is
    [firebaseConfig?.projectId], without which there is no URL; [fetched_]
    is what [fetch] answers. *)
Definition firestoreGet (projectId : option jsstring)
    (fetched_ : fetched storeResponse) : result jsvalue :=
  if negb (truthyStr (orElse projectId [])) then Throw msgNeedsConfig
  else
    match fetched_ with
    | Rejected reason => Throw reason
    | Responded response =>
        if (status response =? 404)%Z then Ok JNull
        else if negb (ok (status response)) then
          match body response with
          | JsonNull => Throw (lit "TypeError")
          | ErrorBody (Some message) =>
              Throw (msgGetFailed ++ orElse (Some message) (statusText response))
          | _ => Throw (msgGetFailed ++ statusText response)
          end
        else
          match body response with
          | NotJson => Throw (lit "SyntaxError")
          | JsonNull => Ok (convertFromFirestoreDoc None)
          | ErrorBody _ =>
              Ok (convertFromFirestoreDoc
                    (Some {| doc_name := None; doc_fields := None |}))
          | DocumentBody doc => Ok (convertFromFirestoreDoc (Some doc))
          end
    end.

(** [getFirestoreUrl(collectionPath, docId)]; [projectId] is
    [firebaseConfig?.projectId], [None] a call that returns [null]. *)
Definition getFirestoreUrl (projectId : option jsstring) (collectionPath : jsstring)
    (docId : option jsstring) : option jsstring :=
  if negb (truthyStr (orElse projectId [])) then None
  else
    let url := lit "https://firestore.googleapis.com/v1/projects/"
                 ++ orElse projectId [] ++ lit "/databases/(default)/documents/"
                 ++ collectionPath in
    Some (if truthyStr (orElse docId []) then url ++ lit "/" ++ orElse docId []
          else url).

Definition msgSetFailed : jsstring :=
  lit "Firestore " ++ [51200; 51109; 32; 49892; 54056]%N ++ lit ": ".
Definition msgListFailed : jsstring :=
  lit "Firestore " ++ [47785; 47197; 32; 51312; 54924; 32; 49892; 54056]%N ++ lit ": ".

(** The loop of [firestoreSet] over [Object.entries(data)]:
    [fields[key] = convertToFirestoreValue(value)]. *)
Definition fieldsOf (now : jsstring) (data : list (jsstring * jsvalue))
    : list (jsstring * fsvalue) :=
  fold_left
    (fun fields kv => setProp fields (fst kv) (convertToFirestoreValue now (snd kv)))
    data [].

(** The PATCH request of [firestoreSet]: its URL and the [fields] of its
    body. *)
Record patchRequest : Type := {
  patch_url : jsstring;
  patch_fields : list (jsstring * fsvalue)
}.

(** [firestoreSet(collectionPath, docId, data)].  [apiKey] is what
    [firebaseConfig.apiKey] prints as, [fetch_] what the store answers to the
    request.  The first component is the request sent, if one is; the
    value returned is the body of the answer as [response.json()] reads
    it. *)
Definition firestoreSet (projectId : option jsstring) (apiKey now : jsstring)
    (fetch_ : patchRequest -> fetched storeResponse)
    (collectionPath : jsstring) (docId : option jsstring)
    (data : list (jsstring * jsvalue)) : option patchRequest * result storeBody :=
  match getFirestoreUrl projectId collectionPath docId with
  | None => (None, Throw msgNeedsConfig)
  | Some url =>
      let request := {| patch_url := url ++ lit "?key=" ++ apiKey;
                        patch_fields := fieldsOf now data |} in
      (Some request,
       match fetch_ request with
       | Rejected reason => Throw reason
       | Responded response =>
           if negb (ok (status response)) then
             match body response with
             | JsonNull => Throw (lit "TypeError")
             | ErrorBody (Some message) =>
                 Throw (msgSetFailed ++ orElse (Some message) (statusText response))
             | _ => Throw (msgSetFailed ++ statusText response)
             end
           else
             match body response with
             | NotJson => Throw (lit "SyntaxError")
             | answered => Ok answered
             end
       end)
  end.

(** The body of the answer to a list request as [response.json()] reads
    it: [documents] may be absent, and a document of the array may be
    [null]. *)
Inductive listBody : Type :=
| ListNotJson                                          (* [json()] rejects *)
| ListNull                                             (* the body is [null] *)
| ListError (message : option jsstring)                (* [{ error: { message } }] *)
| Documents (documents : option (list (option document))).

Record listResponse : Type := {
  list_status : Z;
  list_statusText : jsstring;
  list_body : listBody
}.

(** [firestoreList(collectionPath, orderByField, limitCount)].  The first
    component is the URL asked, if one is. *)
Definition firestoreList (projectId : option jsstring) (apiKey : jsstring)
    (fetch_ : jsstring -> fetched listResponse)
    (collectionPath : jsstring) (orderByField : option jsstring)
    (limitCount : option Z) : option jsstring * result (list jsvalue) :=
  match getFirestoreUrl projectId collectionPath None with
  | None => (None, Throw msgNeedsConfig)
  | Some base =>
      let url :=
        base ++ lit "?key=" ++ apiKey
          ++ (if truthyStr (orElse orderByField [])
              then lit "&orderBy=" ++ orElse orderByField [] else [])
          ++ (match limitCount with
              | Some n => if (n =? 0)%Z then [] else lit "&pageSize=" ++ Number_toString n
              | None => []
              end) in
      (Some url,
       match fetch_ url with
       | Rejected reason => Throw reason
       | Responded response =>
           if negb (ok (list_status response)) then
             match list_body response with
             | ListNull => Throw (lit "TypeError")
             | ListError (Some message) =>
                 Throw (msgListFailed
                          ++ orElse (Some message) (list_statusText response))
             | _ => Throw (msgListFailed ++ list_statusText response)
             end
           else
             match list_body response with
             | ListNotJson => Throw (lit "SyntaxError")
             | ListNull => Throw (lit "TypeError")
             | ListError _ | Documents None => Ok []
             | Documents (Some documents) => Ok (map convertFromFirestoreDoc documents)
             end
       end)
  end.

(** *** The configuration in [localStorage] *)

Definition msgNeedsConnection : jsstring :=
  lit "Firebase " ++ [50672; 44208; 32; 54596; 50836]%N.

Section Config.
(** [JSON.parse], and [String(value)] on the values [toText] leaves to
    it. *)
Variable JSON_parse : jsstring -> result jsvalue.
Variable String_ : jsvalue -> jsstring.

(** [loadConfig()]; [stored] is [localStorage.getItem(CONFIG_KEY)],
    [None] for [null], which [JSON.parse] reads as the text [null]. *)
Definition loadConfig (stored : option jsstring) : jsvalue :=
  match JSON_parse (match stored with Some s => s | None => lit "null" end) with
  | Ok config => orValue config (JObject [])
  | Throw _ => JObject []
  end.

(** [getFirebaseConfig()] *)
Definition getFirebaseConfig (stored : option jsstring) : jsvalue :=
  orValue (member (loadConfig stored) (lit "firebase")) JNull.

(** [getLLMConfig()] *)
Definition getLLMConfig (stored : option jsstring) : jsvalue :=
  orValue (member (loadConfig stored) (lit "llm"))
    (JObject [(lit "apiKey", JString []); (lit "model", JString (lit "gemini-2.0-flash"))]).

(** [initFirebase()]: the value it leaves in [firebaseConfig], and what it
    returns. *)
Definition initFirebase (stored : option jsstring) : jsvalue * bool :=
  let firebaseConfig := getFirebaseConfig stored in
  (firebaseConfig,
   truthy firebaseConfig
   && truthy (member firebaseConfig (lit "apiKey"))
   && truthy (member firebaseConfig (lit "projectId"))).

(** A value as a template literal prints it. *)
Definition toText (v : jsvalue) : jsstring :=
  match v with
  | JString s => s
  | JUndefined => lit "undefined"
  | JNull => lit "null"
  | JBoolean true => lit "true"
  | JBoolean false => lit "false"
  | JNumber (NumInt z) => Number_toString z
  | _ => String_ v
  end.

(** [firebaseConfig?.projectId], as [getFirestoreUrl] takes it: [None]
    when it is falsy. *)
Definition projectIdOf (firebaseConfig : jsvalue) : option jsstring :=
  let projectId := optionalMember firebaseConfig (lit "projectId") in
  if truthy projectId then Some (toText projectId) else None.

(** [saveExtractedData(sessionId, extractedData, extractionType)] in the
    state [firebaseConfig]: the state it leaves, the request it sends, if
    any, and how it ends (it returns nothing).  [extractionType] is [None] when the argument is
    left out. *)
Definition saveExtractedData (firebaseConfig : jsvalue) (stored : option jsstring)
    (now : jsstring) (fetch_ : patchRequest -> fetched storeResponse)
    (sessionId : jsstring) (extractedData : jsvalue) (extractionType : option jsstring)
    : jsvalue * option patchRequest * result unit :=
  let extractionType_ :=
    match extractionType with Some t => t | None => lit "micro" end in
  let started :=
    if truthy firebaseConfig then (firebaseConfig, true) else initFirebase stored in
  if negb (snd started) then (fst started, None, Throw msgNeedsConnection)
  else
    let (request, outcome) :=
      firestoreSet (projectIdOf (fst started))
        (toText (member (fst started) (lit "apiKey"))) now fetch_
        (lit "extractions") (Some (sessionId ++ lit "_" ++ extractionType_))
        [(lit "sessionId", JString sessionId);
         (lit "extractionType", JString extractionType_);
         (lit "data", extractedData);
         (lit "extractedAt", serverTimestamp)] in
    (fst started, request,
     match outcome with Ok _ => Ok tt | Throw e => Throw e end).

End Config.

(** [/(?=\[📅\s*(?:Day|날짜)[:\s]*\d+\])/gi] *)
Definition dayRe : regex :=
  Seqs [ChrI 91%N; StrI calendar_emoji; Star isWhiteSpace;
        Alt (StrI (lit "Day")) (StrI [cu_nal; cu_jja]);
        Star (fun c => N.eqb c 58%N || isWhiteSpace c);
        Plus isDigit; ChrI 93%N].

(** [/(?=\[📖\s*(?:Episode|에피소드)[:\s]*\d+\])/gi] *)
Definition episodeRe : regex :=
  Seqs [ChrI 91%N; StrI book_emoji; Star isWhiteSpace;
        Alt (StrI (lit "Episode")) (StrI [cu_e; cu_pi; cu_so; cu_deu]);
        Star (fun c => N.eqb c 58%N || isWhiteSpace c);
        Plus isDigit; ChrI 93%N].

(** [/(?=##\s*\[턴\s*\d+\])/gi] *)
Definition turnRe : regex :=
  Seqs [ChrI 35%N; ChrI 35%N; Star isWhiteSpace; ChrI 91%N; ChrI cu_teon;
        Star isWhiteSpace; Plus isDigit; ChrI 93%N].

(** The [switch (markerType)] of [chunkByMarker]. *)
Definition markerRe (markerType : jsstring) : regex :=
  if str_eqb markerType (lit "day") then dayRe
  else if str_eqb markerType (lit "episode") then episodeRe
  else turnRe.

(** [chunkByMarker(text, markerType, chunkSize)]; [chunkSize] defaults
    to 1.  [None] is a call that does not return. *)
Definition chunkByMarker (text_ markerType : jsstring) (chunkSize : nat)
    : option (list jsstring) :=
  let rawChunks :=
    filter (fun c => truthyStr (trim c))
           (split (lookahead (markerRe markerType)) text_) in
  groupLoop (S (List.length rawChunks)) rawChunks chunkSize 0 [].

(** One entry of the array [batchExtract] returns:
    [{ index, success: true, data }] or [{ index, success: false, error }]. *)
Inductive entry : Type :=
| Succeeded (index : nat) (data : jsvalue)
| Failed (index : nat) (error : jsstring).

Definition index (e : entry) : nat :=
  match e with Succeeded i _ | Failed i _ => i end.

Definition success (e : entry) : bool :=
  match e with Succeeded _ _ => true | Failed _ _ => false end.

Definition msgNeedsLLM : jsstring :=
  lit "LLM " ++ [49444; 51221; 51060; 32; 54596; 50836; 54633; 45768; 45796]%N
    ++ lit ". saveConfig({ llm: { apiKey, model } })".
Definition msgGeminiError : jsstring :=
  lit "Gemini API " ++ [50724; 47448]%N ++ lit ": ".

Section BatchExtract.
(** The prompts of [extractMicro], [extractMeso] (which names the chunk
    type) and [extractMacro]. *)
Variable microPrompt : jsstring.
Variable mesoPrompt : jsstring -> jsstring.
Variable macroPrompt : jsstring.
(** [JSON.parse] *)
Variable JSON_parse : jsstring -> result jsvalue.
(** [getLLMConfig().apiKey] and what the endpoint answers to the n-th
    request. *)
Variable apiKey : jsstring.
Variable fetch : nat -> jsstring -> fetched llmResponse.

(** [data.candidates?.[0]?.content?.parts?.[0]?.text] *)
Definition firstText (data : generation) : option jsstring :=
  match candidates data with
  | Some ({| candidate_content := Some {| parts := Some (p :: _) |} |} :: _) => text p
  | _ => None
  end.

(** [callLLM(prompt, content)], as the [n]-th call of a run. *)
Definition callLLM (n : nat) (prompt content_ : jsstring)
    : list event * result jsvalue :=
  if negb (truthyStr apiKey) then ([], Throw msgNeedsLLM)
  else
    let request := prompt ++ [newline; newline] ++ lit "---" ++ [newline; newline]
                     ++ content_ in
    ([LLMCall request],
     match fetch n request with
     | Rejected reason => Throw reason
     | Responded response =>
         if negb (ok (llm_status response)) then
           Throw (msgGeminiError ++ Number_toString (llm_status response) ++ lit " "
                    ++ orElse (llm_errorMessage response) (llm_statusText response))
         else
           match llm_json response with
           | None => Throw (lit "SyntaxError")
           | Some data => JSON_parse (orElse (firstText data) (lit "{}"))
           end
     end).

Definition extractMicro (n : nat) (turnContent : jsstring) :=
  callLLM n microPrompt turnContent.

Definition extractMeso (n : nat) (chunkContent chunkType : jsstring) :=
  callLLM n (mesoPrompt chunkType) chunkContent.

Definition extractMacro (n : nat) (fullContent : jsstring) :=
  callLLM n macroPrompt fullContent.

(** The [switch (extractionLevel)] of the loop, as the [n]-th call. *)
Definition extractAtLevel (extractionLevel markerType : jsstring) (n : nat)
    (chunk : jsstring) : list event * result jsvalue :=
  if str_eqb extractionLevel (lit "meso") then extractMeso n chunk markerType
  else if str_eqb extractionLevel (lit "macro") then extractMacro n chunk
  else extractMicro n chunk.

(** The body of the loop of [batchExtract] for the loop variable [i]. *)
Definition extractChunk (chunks : list jsstring) (markerType extractionLevel : jsstring)
    (onProgress : bool) (i : nat) : list event * entry :=
  let (called, outcome) :=
    extractAtLevel extractionLevel markerType i (nth i chunks []) in
  (called
     ++ (if onProgress then [Progress (i + 1) (List.length chunks)] else [])
     ++ (if i <? List.length chunks - 1 then [Delay 500] else []),
   match outcome with
   | Ok data => Succeeded i data
   | Throw message => Failed i message
   end).

(** The loop: [k] iterations are left, [i] is the loop variable. *)
Fixpoint extractChunks (chunks : list jsstring) (markerType extractionLevel : jsstring)
    (onProgress : bool) (k i : nat) (results : list entry) (trace : list event)
    : list event * list entry :=
  match k with
  | O => (trace, results)
  | S k' =>
      let (events, e) := extractChunk chunks markerType extractionLevel onProgress i in
      extractChunks chunks markerType extractionLevel onProgress k' (S i)
        (results ++ [e]) (trace ++ events)
  end.

(** [batchExtract(fullText, markerType, extractionLevel, onProgress)].
    [onProgress] says whether a callback is given; a call of it is the
    event [Progress], and it is taken to return. *)
Definition batchExtract (fullText markerType extractionLevel : jsstring)
    (onProgress : bool) : option (list event * list entry) :=
  match chunkByMarker fullText markerType 1 with
  | None => None
  | Some chunks =>
      Some (extractChunks chunks markerType extractionLevel onProgress
              (List.length chunks) 0 [] [])
  end.

End BatchExtract.

End SHNLiteCanvas.

(* ------------------------------------------------------------------ *)
(** ** Vocabulary of the statements                                    *)
(* ------------------------------------------------------------------ *)

(** The entities [escapeHtml] emits. *)
Definition entities : list jsstring :=
  [lit "&amp;"; lit "&lt;"; lit "&gt;"; lit "&quot;"].

(** What [escapeHtml] does to one code unit. *)
Definition escapeUnit (c : codeUnit) : jsstring :=
  if N.eqb c 38 then lit "&amp;"
  else if N.eqb c 60 then lit "&lt;"
  else if N.eqb c 62 then lit "&gt;"
  else if N.eqb c 34 then lit "&quot;"
  else [c].

(** Every ampersand of [s] starts one of the entities. *)
Fixpoint ampersandsStartEntities (s : jsstring) : bool :=
  match s with
  | [] => true
  | c :: s' =>
      (if N.eqb c 38 then existsb (startsWith s) entities else true)
      && ampersandsStartEntities s'
  end.

(** A body that is JSON and is not a document with [fields]: what
    [convertFromFirestoreDoc] turns into [null]. *)
Definition lacksFields (b : SHNLiteCanvas.storeBody) : bool :=
  match b with
  | SHNLiteCanvas.NotJson => false
  | SHNLiteCanvas.JsonNull | SHNLiteCanvas.ErrorBody _ => true
  | SHNLiteCanvas.DocumentBody d =>
      match SHNLiteCanvas.doc_fields d with Some _ => false | None => true end
  end.

(** The provider's message of a body: [error.message] when the body has
    one that is not empty. *)
Definition providerMessage (b : SHNLiteCanvas.storeBody) : option jsstring :=
  match b with
  | SHNLiteCanvas.ErrorBody (Some message) =>
      if truthyStr message then Some message else None
  | _ => None
  end.

(** [ceil (k / n)] *)
Definition ceilDiv (k n : nat) : nat := (k + n - 1) / n.

(** The separator of the grouping loop. *)
Definition blankLine : jsstring := [newline; newline].

(** The [j]-th batch of [blocks] taken [n] at a time, as the grouping loop
    slices it. *)
Definition batchAt (n : nat) (blocks : list jsstring) (j : nat) : list jsstring :=
  slice (j * n) (j * n + n) blocks.

(** The request [runExtraction] sends for chunk [i]. *)
Definition requestFor (systemPrompt : jsstring) (chunks : list jsstring) (i : nat)
    : jsstring :=
  SHNCanvas.fullPrompt systemPrompt
    (SHNCanvas.dataStart ++ nth i chunks [] ++ SHNCanvas.dataEnd).

(** A call of the loop and the pause that follows it unless it is the last
    of [b]. *)
Definition paced (ms : Z) (b : nat) (called : list event) (i : nat) : list event :=
  called ++ (if i <? b - 1 then [Delay ms] else []).

(** The positions of [s], each as the suffix that starts there. *)
Fixpoint suffixes (s : jsstring) : list jsstring :=
  match s with
  | [] => []
  | _ :: s' => s :: suffixes s'
  end.

(** How many positions of [s] a marker starts at. *)
Definition markerCount (test : jsstring -> bool) (s : jsstring) : nat :=
  List.length (filter test (suffixes s)).

(** What stands before the first marker of [s]: all of [s] without one. *)
Fixpoint preamble (test : jsstring -> bool) (s : jsstring) : jsstring :=
  match s with
  | [] => []
  | c :: s' => if test s then [] else c :: preamble test s'
  end.

(** The test of the [filter] after [split]: [c => c.trim()]. *)
Definition nonBlank (c : jsstring) : bool := truthyStr (trim c).

(** The blocks a text with a preamble that is not blank counts besides
    its markers. *)
Definition preambleCount (test : jsstring -> bool) (s : jsstring) : nat :=
  if nonBlank (preamble test s) then 1 else 0.

(** [batches] are [blocks] taken [n] at a time: consecutive runs of at
    least one and at most [n] blocks, each joined by a blank line, that
    laid end to end are [blocks]. *)
Definition batchesOf (n : nat) (blocks batches : list jsstring) : Prop :=
  exists groups,
    batches = map (join blankLine) groups
    /\ concat groups = blocks
    /\ Forall (fun g => 1 <= List.length g <= n) groups.

(** What [callLLM] answers for chunk [i] in a run of [runExtraction]. *)
Definition answerFor (systemPrompt : jsstring) (w : SHNCanvas.world)
    (chunks : list jsstring) (i : nat) : result jsstring :=
  snd (SHNCanvas.callLLM (SHNCanvas.apiKey w) (SHNCanvas.fetch w i)
         (SHNCanvas.dataStart ++ nth i chunks [] ++ SHNCanvas.dataEnd) systemPrompt).

(** The page holds the three elements [runExtraction] writes its progress
    to before the [try]. *)
Definition hasProgress (w : SHNCanvas.world) : bool :=
  SHNCanvas.progressEl (SHNCanvas.dom w)
  && SHNCanvas.progressBar (SHNCanvas.dom w)
  && SHNCanvas.progressText (SHNCanvas.dom w).

(** How the [catch] block of [runExtraction] ends once it was entered with
    [message]: the failure is reported on a page with the status element;
    without it the block throws. *)
Definition reported (w : SHNCanvas.world) (message : jsstring) : SHNCanvas.ending :=
  if SHNCanvas.statusEl (SHNCanvas.dom w) then SHNCanvas.Failed message
  else SHNCanvas.Uncaught (lit "TypeError").

(** The calls and pauses of a trace, in order. *)
Definition callsAndDelays (trace : list event) : list event :=
  filter (fun e => isLLMCall e || isDelay e) trace.

(** *** A sample run

    Two turns, a batch size of 1, an endpoint that answers the first
    request with a fenced object and is unreachable from then on. *)

Definition sampleAnswer : llmResponse :=
  {| llm_status := 200; llm_statusText := lit "OK"; llm_text := [];
     llm_errorMessage := None;
     llm_json :=
       Some {| candidates :=
                 Some [{| candidate_content :=
                            Some {| parts :=
                                      Some [{| text := Some (SHNCanvas.fence ++ lit "json"
                                                               ++ [newline] ++ lit "{}"
                                                               ++ [newline] ++ SHNCanvas.fence) |}] |} |}] |} |}.

Definition sampleFetch (n : nat) (request : jsstring) : fetched llmResponse :=
  if n =? 0 then Responded sampleAnswer else Rejected (lit "offline").

(** A page that holds the four elements. *)
Definition wholePage : SHNCanvas.page :=
  {| SHNCanvas.progressEl := true; SHNCanvas.progressBar := true;
     SHNCanvas.progressText := true; SHNCanvas.statusEl := true |}.

Definition sampleWorld : SHNCanvas.world :=
  {| SHNCanvas.apiKey := lit "key";
     SHNCanvas.promptAnswer := Some (lit "1");
     SHNCanvas.dom := wholePage;
     SHNCanvas.fetch := sampleFetch;
     SHNCanvas.storeReady := true;
     SHNCanvas.confirmDownload := true |}.

(** The same surroundings with an endpoint that is never reached. *)
Definition offlineWorld : SHNCanvas.world :=
  {| SHNCanvas.apiKey := lit "key";
     SHNCanvas.promptAnswer := Some (lit "1");
     SHNCanvas.dom := wholePage;
     SHNCanvas.fetch := fun _ _ => Rejected (lit "offline");
     SHNCanvas.storeReady := true;
     SHNCanvas.confirmDownload := true |}.

Definition sampleTurns : list SHNCanvas.turn :=
  [{| SHNCanvas.turn_content := Some (lit "a"); SHNCanvas.turn_narrative := None;
      SHNCanvas.turnNumber := 1 |};
   {| SHNCanvas.turn_content := None; SHNCanvas.turn_narrative := Some (lit "b");
      SHNCanvas.turnNumber := 2 |}].

Definition sampleText : jsstring := SHNCanvas.allMarkdown sampleTurns.

(** [Number.isSafeInteger] on an integral value. *)
Definition isSafeInteger (z : Z) : bool :=
  (- (2 ^ 53 - 1) <=? z)%Z && (z <=? 2 ^ 53 - 1)%Z.

Fixpoint distinct (keys : list jsstring) : bool :=
  match keys with
  | [] => true
  | k :: rest => negb (existsb (str_eqb k) rest) && distinct rest
  end.

(** The native values the round trip is stated for: strings, safe
    integers, numbers that are not integers, booleans, [null], arrays of
    such values, and objects of such values.  An object has its keys once
    each; [plain] asks besides that none is [__proto__] and that no
    [_serverTimestamp] entry is truthy (such an object is the sentinel
    [serverTimestamp()] makes). *)
Fixpoint plain (v : jsvalue) : bool :=
  match v with
  | JNull | JString _ | JBoolean _ => true
  | JNumber (NumInt z) => isSafeInteger z
  | JNumber _ => true
  | JArray elements => forallb plain elements
  | JObject entries =>
      distinct (map fst entries)
      && negb (existsb (str_eqb (lit "__proto__")) (map fst entries))
      && negb (SHNLiteCanvas.isTruthyProp entries (lit "_serverTimestamp"))
      && forallb (fun kv => plain (snd kv)) entries
  | JUndefined | JDate _ => false
  end.

(** *** Fenced code blocks

    [cut pat s] splits [s] at the first occurrence of [pat]: what stands
    before it and what follows it. *)
Fixpoint cut (pat s : jsstring) {struct s} : option (jsstring * jsstring) :=
  if startsWith s pat then Some ([], skipn (List.length pat) s)
  else
    match s with
    | [] => None
    | c :: s' =>
        match cut pat s' with
        | Some (before, after) => Some (c :: before, after)
        | None => None
        end
    end.

(** In the words of the claim: the interior of the first fenced code
    block of [s], that is the text between the first fence and the next
    fence after it.  [None] when [s] has no such pair of fences. *)
Definition fenceInterior (s : jsstring) : option jsstring :=
  match cut SHNCanvas.fence s with
  | None => None
  | Some (_, opened) =>
      match cut SHNCanvas.fence opened with
      | None => None
      | Some (interior, _) => Some interior
      end
  end.

(** [s] without the four letters [json] when it begins with them,
    whatever follows them. *)
Definition withoutJson (s : jsstring) : jsstring :=
  if startsWith s (lit "json") then skipn 4 s else s.

(** A successful response of the endpoint whose text is [t]. *)
Definition answerWith (t : jsstring) : llmResponse :=
  {| llm_status := 200; llm_statusText := lit "OK"; llm_text := [];
     llm_errorMessage := None;
     llm_json :=
       Some {| candidates :=
                 Some [{| candidate_content :=
                            Some {| parts := Some [{| text := Some t |}] |} |}] |} |}.

(** A block whose opening fence carries the tag [json5]. *)
Definition json5Block : jsstring :=
  SHNCanvas.fence ++ lit "json5" ++ [newline] ++ lit "{a:1}" ++ [newline]
    ++ SHNCanvas.fence.

(** The shortest prefix of [s] after which only white space stands before
    a fence: what the lazy group of the pattern consumes. *)
Fixpoint closeAt (s : jsstring) : option jsstring :=
  if startsWith (trimStart s) SHNCanvas.fence then Some []
  else
    match s with
    | [] => None
    | c :: s' => option_map (cons c) (closeAt s')
    end.

(** The pattern of [callLLM] after the opening fence and its tag. *)
Definition tailRe : regex :=
  Seqs [Star isWhiteSpace; Group (LazyStar (fun _ => true)); Star isWhiteSpace;
        Str SHNCanvas.fence].

(** After an opening fence: the trimmed text up to the next fence, a
    leading [json] left out. *)
Definition capture (opened : jsstring) : option jsstring :=
  option_map (fun p => trim (fst p)) (cut SHNCanvas.fence (withoutJson opened)).

(** *** Reading entities back

    What a reader of HTML makes of text [escapeHtml] wrote: each of the
    four entities stands for its character.  [skip] code units of an
    entity already read are still to pass. *)
Fixpoint readEntities (skip : nat) (s : jsstring) : jsstring :=
  match s with
  | [] => []
  | c :: s' =>
      match skip with
      | S k => readEntities k s'
      | O =>
          if startsWith s (lit "&amp;") then 38%N :: readEntities 4 s'
          else if startsWith s (lit "&lt;") then 60%N :: readEntities 3 s'
          else if startsWith s (lit "&gt;") then 62%N :: readEntities 3 s'
          else if startsWith s (lit "&quot;") then 34%N :: readEntities 5 s'
          else c :: readEntities 0 s'
      end
  end.

(** *** Values after a round trip

    [settled] values are the [plain] ones and Dates, at any depth: what a
    value is once it went to the store format and came back. *)
Fixpoint settled (v : jsvalue) : bool :=
  match v with
  | JNull | JString _ | JBoolean _ | JDate _ => true
  | JNumber (NumInt z) => isSafeInteger z
  | JNumber _ => true
  | JArray elements => forallb settled elements
  | JObject entries =>
      distinct (map fst entries)
      && negb (existsb (str_eqb (lit "__proto__")) (map fst entries))
      && negb (SHNLiteCanvas.isTruthyProp entries (lit "_serverTimestamp"))
      && forallb (fun kv => settled (snd kv)) entries
  | JUndefined => false
  end.

(** [settledAt now] values are the settled ones in which every Date is
    the time [now]. *)
Fixpoint settledAt (now : jsstring) (v : jsvalue) : bool :=
  match v with
  | JNull | JString _ | JBoolean _ => true
  | JDate iso => str_eqb iso now
  | JNumber (NumInt z) => isSafeInteger z
  | JNumber _ => true
  | JArray elements => forallb (settledAt now) elements
  | JObject entries =>
      distinct (map fst entries)
      && negb (existsb (str_eqb (lit "__proto__")) (map fst entries))
      && negb (SHNLiteCanvas.isTruthyProp entries (lit "_serverTimestamp"))
      && forallb (fun kv => settledAt now (snd kv)) entries
  | JUndefined => false
  end.

(** The native values without Dates the store client can be handed:
    every integer is a safe one; an object has each of its keys once, as
    [Object.entries] gives them.  [undefined], the sentinel of
    [serverTimestamp()] and the key [__proto__] are all allowed. *)
Fixpoint storable (v : jsvalue) : bool :=
  match v with
  | JNumber (NumInt z) => isSafeInteger z
  | JArray elements => forallb storable elements
  | JObject entries =>
      distinct (map fst entries) && forallb (fun kv => storable (snd kv)) entries
  | JDate _ => false
  | _ => true
  end.

(** The number two decimal digits write. *)
Definition twoDigits (a b : codeUnit) : option N :=
  if isDigit a && isDigit b then Some (10 * digitValue a + digitValue b)%N
  else None.

(** The days of a month of the Gregorian calendar. *)
Definition daysIn (year month : N) : N :=
  if (month =? 2)%N then
    if ((year mod 4 =? 0) && negb (year mod 100 =? 0) || (year mod 400 =? 0))%N
    then 29%N else 28%N
  else if ((month =? 4) || (month =? 6) || (month =? 9) || (month =? 11))%N
       then 30%N else 31%N.

(** [s] is a time as [toISOString()] writes it, for the years 0 to 9999:
    [YYYY-MM-DDTHH:mm:ss.sssZ] with a day the month has and a time of the
    day.  For such a text [new Date(s).toISOString()] is [s] again. *)
Definition isTimestamp (s : jsstring) : bool :=
  match s with
  | [y1; y2; y3; y4; dash1; m1; m2; dash2; d1; d2; t; h1; h2; colon1; n1; n2;
     colon2; s1; s2; dot; f1; f2; f3; z] =>
      N.eqb dash1 45 && N.eqb dash2 45 && N.eqb t 84 && N.eqb colon1 58
      && N.eqb colon2 58 && N.eqb dot 46 && N.eqb z 90
      && isDigit f1 && isDigit f2 && isDigit f3
      && match twoDigits y1 y2, twoDigits y3 y4, twoDigits m1 m2, twoDigits d1 d2,
               twoDigits h1 h2, twoDigits n1 n2, twoDigits s1 s2 with
         | Some century, Some years, Some month, Some day,
           Some hours, Some minutes, Some seconds =>
             ((1 <=? month) && (month <=? 12) && (1 <=? day)
              && (day <=? daysIn (100 * century + years) month)
              && (hours <=? 23) && (minutes <=? 59) && (seconds <=? 59))%N
         | _, _, _, _, _, _, _ => false
         end
  | _ => false
  end.

(** The entries an assignment loop keeps: all but those with the key
    [__proto__]. *)
Definition notProto {V : Type} (kv : jsstring * V) : bool :=
  negb (str_eqb (fst kv) (lit "__proto__")).

(** A surrounding in which the endpoint answers every request. *)
Definition steadyWorld : SHNCanvas.world :=
  {| SHNCanvas.apiKey := lit "key";
     SHNCanvas.promptAnswer := Some (lit "1");
     SHNCanvas.dom := wholePage;
     SHNCanvas.fetch := fun _ _ => Responded sampleAnswer;
     SHNCanvas.storeReady := true;
     SHNCanvas.confirmDownload := true |}.

(** The prompt [batchExtract] sends a chunk under: the one of the level,
    the micro one for a level that is neither [meso] nor [macro]. *)
Definition promptFor (microPrompt : jsstring) (mesoPrompt : jsstring -> jsstring)
    (macroPrompt : jsstring) (extractionLevel markerType : jsstring) : jsstring :=
  if str_eqb extractionLevel (lit "meso") then mesoPrompt markerType
  else if str_eqb extractionLevel (lit "macro") then macroPrompt
  else microPrompt.

(** The text [runExtraction] writes for one turn: the function mapped over
    the turns in [allMarkdown]. *)
Definition turnText (t : SHNCanvas.turn) : jsstring :=
  let content :=
    orElse (SHNCanvas.turn_content t) (orElse (SHNCanvas.turn_narrative t) []) in
  if startsWith (trim content) SHNCanvas.turnMarker then content
  else SHNCanvas.turnMarker ++ lit " " ++ Number_toString (SHNCanvas.turnNumber t)
         ++ lit "]" ++ [newline; newline] ++ content.

(** The spec's scenario: three turns with their headings. *)
Definition threeTurns : list SHNCanvas.turn :=
  [{| SHNCanvas.turn_content := Some (lit "## [" ++ [cu_teon] ++ lit " 1]" ++ [newline] ++ lit "a");
      SHNCanvas.turn_narrative := None; SHNCanvas.turnNumber := 1 |};
   {| SHNCanvas.turn_content := Some (lit "## [" ++ [cu_teon] ++ lit " 2]" ++ [newline] ++ lit "b");
      SHNCanvas.turn_narrative := None; SHNCanvas.turnNumber := 2 |};
   {| SHNCanvas.turn_content := Some (lit "## [" ++ [cu_teon] ++ lit " 3]" ++ [newline] ++ lit "c");
      SHNCanvas.turn_narrative := None; SHNCanvas.turnNumber := 3 |}].

(** [config.apiKey] of the LLM settings as the JSON-mode [callLLM] takes
    it: the key as the request URL prints it, empty when it is falsy. *)
Definition llmKeyOf (String_ : jsvalue -> jsstring) (config : jsvalue) : jsstring :=
  let apiKey := member config (lit "apiKey") in
  if truthy apiKey then SHNLiteCanvas.toText String_ apiKey else [].

(** The URL of the document [saveExtractedData] writes. *)
Definition extractionUrl (projectId sessionId extractionType apiKey : jsstring)
    : jsstring :=
  lit "https://firestore.googleapis.com/v1/projects/" ++ projectId
    ++ lit "/databases/(default)/documents/extractions/"
    ++ sessionId ++ lit "_" ++ extractionType ++ lit "?key=" ++ apiKey.

(** *** Sample configurations

    A [JSON.parse] that reads every text as a configuration with both
    Firebase settings, and one that reads it as a configuration without
    the Firebase key. *)
Definition parseComplete (text_ : jsstring) : result jsvalue :=
  Ok (JObject [(lit "firebase",
                JObject [(lit "apiKey", JString (lit "k"));
                         (lit "projectId", JString (lit "p"))])]).

Definition parseKeyless (text_ : jsstring) : result jsvalue :=
  Ok (JObject [(lit "firebase", JObject [(lit "projectId", JString (lit "p"))])]).

Definition parseNothing (text_ : jsstring) : result jsvalue := Ok JNull.

(* ================================================================== *)
(** * Part II: properties                                              *)
(* ================================================================== *)

(** ** The batch size of [runExtraction] *)

Lemma chunkSizeOf_unparsed (s : jsstring) :
  parseInt s = None -> SHNCanvas.chunkSizeOf s = 10%Z.
Proof.
  intros H. unfold SHNCanvas.chunkSizeOf. rewrite H. reflexivity.
Qed.

Lemma chunkSizeOf_parsed (s : jsstring) (n : Z) :
  parseInt s = Some n -> n <> 0%Z ->
  SHNCanvas.chunkSizeOf s = Z.max 1 (Z.min 100 n).
Proof.
  intros H Hn. unfold SHNCanvas.chunkSizeOf. rewrite H.
  destruct (Z.eqb_spec n 0); [contradiction | reflexivity].
Qed.

Lemma chunkSizeOf_range (s : jsstring) :
  (1 <= SHNCanvas.chunkSizeOf s <= 100)%Z.
Proof.
  unfold SHNCanvas.chunkSizeOf. lia.
Qed.

(** C7, at the input ["0"]: the string parses to the number 0, which is
    below 1, and the batch size the run uses is 10, the default, not the
    lower bound 1 the clamp gives every other parsed value below 1 (as it
    does for ["-5"]). *)
Theorem chunkSizeOf_zero_is_default :
  parseInt (lit "0") = Some 0%Z
  /\ SHNCanvas.chunkSizeOf (lit "0") = 10%Z
  /\ Z.max 1 (Z.min 100 0) = 1%Z
  /\ SHNCanvas.chunkSizeOf (lit "-5") = 1%Z.
Proof.
  repeat split; reflexivity.
Qed.

(** ** [escapeHtml] *)

Section EscapeHtmlFacts.
Local Open Scope N_scope.

Lemma replaceAll_flat_map (c : codeUnit) (by_ : jsstring) (f : codeUnit -> jsstring)
    (s : jsstring) :
  SHNCanvas.replaceAll c by_ (flat_map f s)
  = flat_map (fun x => SHNCanvas.replaceAll c by_ (f x)) s.
Proof.
  unfold SHNCanvas.replaceAll.
  induction s as [|x s IH]; [reflexivity|].
  cbn [flat_map]. rewrite flat_map_app. f_equal. exact IH.
Qed.

Lemma escape_chain_unit (x : codeUnit) :
  SHNCanvas.replaceAll 34 (lit "&quot;")
    (SHNCanvas.replaceAll 62 (lit "&gt;")
       (SHNCanvas.replaceAll 60 (lit "&lt;")
          (if N.eqb x 38 then lit "&amp;" else [x])))
  = escapeUnit x.
Proof.
  unfold escapeUnit, SHNCanvas.replaceAll.
  destruct (N.eqb x 38) eqn:E38; [reflexivity|]. simpl.
  destruct (N.eqb x 60) eqn:E60; [reflexivity|]. simpl.
  destruct (N.eqb x 62) eqn:E62; [reflexivity|]. simpl.
  destruct (N.eqb x 34) eqn:E34; reflexivity.
Qed.

(** The four replacements in a row are one pass of [escapeUnit]. *)
Lemma escape_chain (s : jsstring) :
  SHNCanvas.replaceAll 34 (lit "&quot;")
    (SHNCanvas.replaceAll 62 (lit "&gt;")
       (SHNCanvas.replaceAll 60 (lit "&lt;")
          (SHNCanvas.replaceAll 38 (lit "&amp;") s)))
  = flat_map escapeUnit s.
Proof.
  change (SHNCanvas.replaceAll 38 (lit "&amp;") s)
    with (flat_map (fun x => if N.eqb x 38 then lit "&amp;" else [x]) s).
  rewrite !replaceAll_flat_map.
  induction s as [|x s IH]; simpl; [reflexivity|].
  rewrite IH. f_equal. apply escape_chain_unit.
Qed.

Lemma escapeHtml_flat_map (String_ : jsvalue -> jsstring) (v : jsvalue) :
  exists s, SHNCanvas.escapeHtml String_ v = flat_map escapeUnit s.
Proof.
  unfold SHNCanvas.escapeHtml.
  destruct (negb (truthy v)).
  - exists []. reflexivity.
  - eexists. apply escape_chain.
Qed.

Lemma escapeUnit_cases (c : codeUnit) :
  escapeUnit c = lit "&amp;" \/ escapeUnit c = lit "&lt;"
  \/ escapeUnit c = lit "&gt;" \/ escapeUnit c = lit "&quot;"
  \/ (escapeUnit c = [c] /\ c <> 38%N /\ c <> 60%N /\ c <> 62%N /\ c <> 34%N).
Proof.
  unfold escapeUnit.
  destruct (N.eqb_spec c 38); [auto|].
  destruct (N.eqb_spec c 60); [auto|].
  destruct (N.eqb_spec c 62); [auto|].
  destruct (N.eqb_spec c 34); [auto 6|].
  right; right; right; right. auto.
Qed.

Lemma escaped_no_raw (s : jsstring) (x : codeUnit) :
  In x (flat_map escapeUnit s) -> x <> 60%N /\ x <> 62%N /\ x <> 34%N.
Proof.
  rewrite in_flat_map. intros [c [_ Hx]].
  destruct (escapeUnit_cases c) as [E|[E|[E|[E|[E H]]]]]; rewrite E in Hx.
  1-4: vm_compute in Hx;
       repeat (destruct Hx as [Hx|Hx]; [subst x; repeat split; discriminate|]);
       contradiction.
  destruct Hx as [Hx|[]]. subst x. tauto.
Qed.

Lemma escaped_ampersands (s : jsstring) :
  ampersandsStartEntities (flat_map escapeUnit s) = true.
Proof.
  induction s as [|c s IH]; [reflexivity|].
  change (flat_map escapeUnit (c :: s)) with (escapeUnit c ++ flat_map escapeUnit s).
  destruct (escapeUnit_cases c) as [E|[E|[E|[E|[E [H _]]]]]]; rewrite E.
  1-4: vm_compute lit; simpl; exact IH.
  simpl. apply N.eqb_neq in H. rewrite H. exact IH.
Qed.

(** What [ampersandsStartEntities] checks, spelled out. *)
Lemma ampersandsStartEntities_spec (s : jsstring) :
  ampersandsStartEntities s = true ->
  forall pre suf, s = pre ++ 38%N :: suf ->
  exists e, In e entities /\ startsWith (38%N :: suf) e = true.
Proof.
  intros H pre. revert s H.
  induction pre as [|p pre IH]; intros s H suf ->;
    cbn [app ampersandsStartEntities] in H.
  - rewrite N.eqb_refl in H. apply andb_prop in H. destruct H as [H _].
    apply existsb_exists in H. exact H.
  - apply andb_prop in H. destruct H as [_ H].
    exact (IH _ H suf eq_refl).
Qed.

(** C9: the output of [escapeHtml] holds no [<], [>] or double quote, every
    ampersand in it starts one of [&amp;], [&lt;], [&gt;], [&quot;], and for
    [null], [undefined] and the empty string the output is empty. *)
Theorem escapeHtml_escapes (String_ : jsvalue -> jsstring) (v : jsvalue) :
  let out := SHNCanvas.escapeHtml String_ v in
  (~ In 60%N out /\ ~ In 62%N out /\ ~ In 34%N out)
  /\ (forall pre suf, out = pre ++ 38%N :: suf ->
        exists e, In e entities /\ startsWith (38%N :: suf) e = true)
  /\ SHNCanvas.escapeHtml String_ JNull = []
  /\ SHNCanvas.escapeHtml String_ JUndefined = []
  /\ SHNCanvas.escapeHtml String_ (JString []) = [].
Proof.
  intros out.
  destruct (escapeHtml_flat_map String_ v) as [s Hs].
  fold out in Hs.
  split; [|split; [|repeat split]].
  - rewrite Hs.
    repeat split; intros Hin; apply escaped_no_raw in Hin; tauto.
  - apply ampersandsStartEntities_spec. rewrite Hs. apply escaped_ampersands.
Qed.

End EscapeHtmlFacts.

(** ** [firestoreGet] *)

Section FirestoreGetFacts.
Import SHNLiteCanvas.

Lemma convertFromFirestoreDoc_null (d : document) :
  convertFromFirestoreDoc (Some d) = JNull <-> doc_fields d = None.
Proof.
  unfold convertFromFirestoreDoc.
  destruct (doc_fields d) as [fields|].
  - split; [|discriminate].
    destruct (doc_name d) as [name|]; [destruct (truthyStr name)|]; discriminate.
  - tauto.
Qed.

(** C5 as stated fails: a document that exists and holds no field comes
    back from the store with status 200 and without [fields], and
    [firestoreGet] answers [null] although the status is not 404. *)
Lemma firestoreGet_null_on_empty_document :
  let r := {| status := 200; statusText := lit "OK";
              body := DocumentBody
                        {| doc_name := Some (lit "projects/p/databases/(default)/documents/sessions/s1");
                           doc_fields := None |} |} in
  firestoreGet (Some (lit "p")) (Responded r) = Ok JNull /\ status r <> 404%Z.
Proof.
  split; [reflexivity | discriminate].
Qed.

(** C5, amended: with the store configured, [firestoreGet] answers [null]
    on status 404.  On any other status outside 200..299 it throws: when
    the body is the JSON [null], a TypeError; otherwise an error whose
    message ends with the provider's message when the body gives one that
    is not empty, and with the status text of the response when it gives
    none or is not JSON.  On success it answers the converted document,
    which is [null] again when the body holds no [fields], and throws
    when the body is not JSON.  These are all the ways to [null]. *)
Theorem firestoreGet_outcomes (projectId : jsstring) (r : storeResponse)
    (Hcfg : truthyStr projectId = true) :
  let out := firestoreGet (Some projectId) (Responded r) in
  (status r = 404%Z -> out = Ok JNull)
  /\ (status r <> 404%Z -> ok (status r) = false ->
        (exists error, out = Throw error)
        /\ (body r = JsonNull -> out = Throw (lit "TypeError"))
        /\ (forall m, providerMessage (body r) = Some m ->
              out = Throw (msgGetFailed ++ m))
        /\ (body r <> JsonNull -> providerMessage (body r) = None ->
              out = Throw (msgGetFailed ++ statusText r)))
  /\ (ok (status r) = true ->
        (body r = NotJson -> out = Throw (lit "SyntaxError"))
        /\ (forall d, body r = DocumentBody d ->
              out = Ok (convertFromFirestoreDoc (Some d))))
  /\ (out = Ok JNull <->
        status r = 404%Z \/ (ok (status r) = true /\ lacksFields (body r) = true)).
Proof.
  intros out. subst out. unfold firestoreGet, orElse.
  rewrite Hcfg. cbn iota. rewrite Hcfg. simpl.
  destruct (Z.eqb_spec (status r) 404) as [E|E].
  - assert (ok (status r) = false) as Hok by (rewrite E; reflexivity).
    split; [reflexivity|]. split; [intros H; contradiction|].
    split; [intros H; rewrite Hok in H; discriminate|].
    split; [intros _; left; exact E | reflexivity].
  - split; [tauto|].
    destruct (ok (status r)) eqn:Eok; simpl.
    + split; [intros _ H; discriminate|].
      split.
      * intros _. split; [intros Hb; rewrite Hb; reflexivity|].
        intros d Hd. rewrite Hd. reflexivity.
      * destruct (body r) as [| |m|d] eqn:Eb; simpl.
        -- split; [discriminate | intros [H|[_ H]]; [contradiction|discriminate]].
        -- split; [auto | reflexivity].
        -- split; [auto | reflexivity].
        -- split.
           ++ intros H. right. split; [reflexivity|].
              injection H as H. apply convertFromFirestoreDoc_null in H.
              rewrite H. reflexivity.
           ++ intros [H|[_ H]]; [contradiction|].
              f_equal. apply convertFromFirestoreDoc_null.
              destruct (doc_fields d); [discriminate | reflexivity].
    + split.
      * intros _ _. split; [destruct (body r) as [| |[m|]|d]; eauto|].
        split; [intros Hb; rewrite Hb; reflexivity|]. split.
        -- intros m Hm. destruct (body r) as [| |[m'|]|d]; try discriminate Hm.
           cbn [providerMessage] in Hm.
           destruct (truthyStr m') eqn:Ht; [|discriminate].
           injection Hm as ->. reflexivity.
        -- intros Hnull Hnone. destruct (body r) as [| |[m'|]|d]; try reflexivity.
           ++ contradiction Hnull. reflexivity.
           ++ cbn [providerMessage] in Hnone.
              destruct (truthyStr m'); [discriminate | reflexivity].
      * split; [discriminate|].
        split.
        -- destruct (body r) as [| |[m|]|d]; discriminate.
        -- intros [H|[H _]]; [contradiction | discriminate].
Qed.

Lemma firestoreGet_outcomes_witness :
  truthyStr (lit "p") = true
  /\ firestoreGet (Some (lit "p"))
       (Responded {| status := 404; statusText := lit "Not Found";
                     body := ErrorBody (Some (lit "Document not found")) |})
     = Ok JNull.
Proof.
  split; [reflexivity|].
  exact (proj1 (firestoreGet_outcomes (lit "p")
                  {| status := 404; statusText := lit "Not Found";
                     body := ErrorBody (Some (lit "Document not found")) |}
                  eq_refl) eq_refl).
Defined.

End FirestoreGetFacts.

(** ** The grouping loop *)

Section GroupLoopFacts.

Lemma ceilDiv_gt (len n j : nat) : 1 <= n -> (j * n < len <-> j < ceilDiv len n).
Proof.
  intros Hn. unfold ceilDiv. split; intros H.
  - apply Nat.div_le_lower_bound; lia.
  - assert (n * (S j) <= len + n - 1).
    { etransitivity; [apply Nat.mul_le_mono_l; exact H|].
      apply Nat.Div0.mul_div_le. }
    lia.
Qed.

Lemma ceilDiv_le (len n : nat) : 1 <= n -> ceilDiv len n <= len.
Proof.
  intros Hn.
  destruct (Nat.le_gt_cases (ceilDiv len n) len) as [H|H]; [exact H|].
  apply ceilDiv_gt in H; [|exact Hn]. nia.
Qed.

Lemma ceilDiv_one (len : nat) : ceilDiv len 1 = len.
Proof.
  unfold ceilDiv. rewrite Nat.div_1_r. lia.
Qed.

(** With a batch size of at least 1 the loop ends, and it has pushed the
    batches [j], [j + 1], ... up to the last. *)
Lemma groupLoop_from (blocks : list jsstring) (n : nat) (Hn : 1 <= n) :
  let m := ceilDiv (List.length blocks) n in
  forall fuel j grouped,
    m - j < fuel ->
    groupLoop fuel blocks n (j * n) grouped
    = Some (grouped
              ++ map (fun t => join blankLine (batchAt n blocks t)) (seq j (m - j))).
Proof.
  intros m. induction fuel as [|fuel IH]; intros j grouped Hf; [lia|].
  cbn [groupLoop].
  destruct (Nat.ltb_spec (j * n) (List.length blocks)) as [Hlt|Hge].
  - apply ceilDiv_gt in Hlt; [|exact Hn]. fold m in Hlt.
    replace (j * n + n) with (S j * n) by lia.
    rewrite IH by lia.
    replace (m - j) with (S (m - S j)) by lia.
    cbn [seq map]. rewrite <- app_assoc. cbn [app].
    unfold batchAt at 2. replace (S j * n) with (j * n + n) by lia.
    reflexivity.
  - assert (~ j < m) as Hm.
    { intros Hm. apply ceilDiv_gt in Hm; [lia | exact Hn]. }
    replace (m - j) with 0 by lia. cbn [seq map]. rewrite app_nil_r. reflexivity.
Qed.

Lemma groupLoop_total (blocks : list jsstring) (n : nat) :
  1 <= n ->
  groupLoop (S (List.length blocks)) blocks n 0 []
  = Some (map (fun t => join blankLine (batchAt n blocks t))
              (seq 0 (ceilDiv (List.length blocks) n))).
Proof.
  intros Hn.
  pose proof (ceilDiv_le (List.length blocks) n Hn) as Hle.
  pose proof (groupLoop_from blocks n Hn (S (List.length blocks)) 0 []) as H.
  cbn zeta in H. rewrite Nat.sub_0_r in H. cbn [Nat.mul app] in H.
  apply H. lia.
Qed.

(** The batches laid end to end are the blocks: none is left out, none
    comes twice, and the order is kept. *)
Lemma batches_concat_from (n : nat) (blocks : list jsstring) :
  forall k j, List.length blocks <= (j + k) * n ->
    concat (map (batchAt n blocks) (seq j k)) = skipn (j * n) blocks.
Proof.
  induction k as [|k IH]; intros j H.
  - cbn. symmetry. apply skipn_all2. lia.
  - cbn [seq map concat]. rewrite IH by lia.
    unfold batchAt, slice.
    replace (j * n + n - j * n) with n by lia.
    replace (S j * n) with (n + j * n) by lia.
    rewrite <- skipn_skipn. apply firstn_skipn.
Qed.

Lemma batches_concat (n : nat) (blocks : list jsstring) :
  1 <= n ->
  concat (map (batchAt n blocks) (seq 0 (ceilDiv (List.length blocks) n))) = blocks.
Proof.
  intros Hn.
  rewrite batches_concat_from; [reflexivity|].
  cbn [Nat.add].
  destruct (Nat.le_gt_cases (List.length blocks) (ceilDiv (List.length blocks) n * n))
    as [H|H]; [exact H|].
  apply ceilDiv_gt in H; [lia | exact Hn].
Qed.

(** One block at a time, every batch is its block. *)
Lemma batches_of_one (blocks : list jsstring) :
  map (fun t => join blankLine (batchAt 1 blocks t)) (seq 0 (List.length blocks))
  = blocks.
Proof.
  induction blocks as [|b blocks IH]; [reflexivity|].
  cbn [List.length seq map]. f_equal.
  rewrite <- seq_shift, map_map.
  rewrite <- IH at 2. apply map_ext. intros t.
  unfold batchAt, slice.
  replace (S t * 1) with (S (t * 1)) by lia.
  replace (S (t * 1) + 1 - S (t * 1)) with (t * 1 + 1 - t * 1) by lia.
  reflexivity.
Qed.

End GroupLoopFacts.

(** ** Trimming and splitting *)

Section TrimFacts.

Lemma truthyStr_rev (s : jsstring) : truthyStr (rev s) = truthyStr s.
Proof.
  destruct s as [|c s]; [reflexivity|]. cbn [rev truthyStr].
  destruct (rev s); reflexivity.
Qed.

Lemma truthyStr_trimStart (s : jsstring) :
  truthyStr (trimStart s) = existsb (fun c => negb (isWhiteSpace c)) s.
Proof.
  induction s as [|c s IH]; [reflexivity|]. cbn [trimStart existsb].
  destruct (isWhiteSpace c); [exact IH | reflexivity].
Qed.

Lemma existsb_trimStart (f : codeUnit -> bool) (s : jsstring) :
  (forall c, isWhiteSpace c = true -> f c = false) ->
  existsb f (trimStart s) = existsb f s.
Proof.
  intros Hf. induction s as [|c s IH]; [reflexivity|]. cbn [trimStart].
  destruct (isWhiteSpace c) eqn:E; [|reflexivity].
  cbn [existsb]. rewrite (Hf c E). exact IH.
Qed.

Lemma existsb_rev (f : codeUnit -> bool) (s : jsstring) :
  existsb f (rev s) = existsb f s.
Proof.
  induction s as [|c s IH]; [reflexivity|]. cbn [rev existsb].
  rewrite existsb_app, IH. cbn [existsb]. rewrite orb_false_r. apply orb_comm.
Qed.

(** A string is blank for the filter exactly when all of it is white
    space. *)
Lemma nonBlank_existsb (s : jsstring) :
  nonBlank s = existsb (fun c => negb (isWhiteSpace c)) s.
Proof.
  unfold nonBlank, trim, trimEnd.
  rewrite truthyStr_rev, truthyStr_trimStart, existsb_rev.
  apply existsb_trimStart. intros c E. rewrite E. reflexivity.
Qed.

Lemma nonBlank_cons (c : codeUnit) (s : jsstring) :
  isWhiteSpace c = false -> nonBlank (c :: s) = true.
Proof.
  intros E. rewrite nonBlank_existsb. cbn [existsb]. rewrite E. reflexivity.
Qed.

End TrimFacts.

Section SplitFacts.
Variable test : jsstring -> bool.

Lemma splitLoop_concat (s cur : jsstring) :
  concat (splitLoop test cur s) = cur ++ s.
Proof.
  revert cur. induction s as [|c s IH]; intros cur; cbn [splitLoop].
  - cbn. rewrite !app_nil_r. reflexivity.
  - destruct (test (c :: s)).
    + cbn [concat]. rewrite IH. reflexivity.
    + rewrite IH, <- app_assoc. reflexivity.
Qed.

(** The pieces of [split] laid end to end are the text. *)
Lemma split_concat (s : jsstring) : concat (split test s) = s.
Proof.
  destruct s as [|c s]; cbn [split].
  - destruct (test []); reflexivity.
  - apply splitLoop_concat.
Qed.

Lemma splitLoop_no_marker (s cur : jsstring) :
  markerCount test s = 0 -> splitLoop test cur s = [cur ++ s].
Proof.
  unfold markerCount. revert cur.
  induction s as [|c s IH]; intros cur H; cbn [splitLoop].
  - rewrite app_nil_r. reflexivity.
  - cbn [suffixes filter] in H. destruct (test (c :: s)); [discriminate|].
    rewrite IH by exact H. rewrite <- app_assoc. reflexivity.
Qed.

(** Without a marker, [split] leaves the text in one piece. *)
Lemma split_no_marker (s : jsstring) :
  test [] = false -> markerCount test s = 0 -> split test s = [s].
Proof.
  intros H0 H. destruct s as [|c s]; cbn [split].
  - rewrite H0. reflexivity.
  - unfold markerCount in H. cbn [suffixes filter] in H.
    destruct (test (c :: s)); [discriminate|].
    apply (splitLoop_no_marker s [c]). exact H.
Qed.

(** A marker starts with a character that is not white space. *)
Hypothesis marker_head :
  forall s, test s = true -> exists c s', s = c :: s' /\ isWhiteSpace c = false.

Lemma marker_not_empty : test [] = false.
Proof.
  destruct (test []) eqn:E; [|reflexivity].
  destruct (marker_head [] E) as [c [s' [H _]]]. discriminate.
Qed.

Lemma splitLoop_count (s cur : jsstring) :
  List.length (filter nonBlank (splitLoop test cur s))
  = (if nonBlank (cur ++ preamble test s) then 1 else 0) + markerCount test s.
Proof.
  unfold markerCount. revert cur.
  induction s as [|c s IH]; intros cur; cbn [splitLoop preamble suffixes filter].
  - rewrite app_nil_r. destruct (nonBlank cur); reflexivity.
  - destruct (test (c :: s)) eqn:E.
    + cbn [filter]. rewrite app_nil_r.
      destruct (marker_head _ E) as [c' [s' [Heq Hc]]].
      injection Heq as -> ->.
      assert (List.length (filter nonBlank (splitLoop test [c'] s'))
              = S (List.length (filter test (suffixes s')))) as Hrest.
      { rewrite IH. cbn [app]. rewrite (nonBlank_cons _ _ Hc). reflexivity. }
      destruct (nonBlank cur); cbn [List.length]; rewrite Hrest; lia.
    + rewrite IH, <- app_assoc. reflexivity.
Qed.

(** The blocks that pass the filter: one for each marker, and one more
    for a preamble that is not blank. *)
Lemma split_count (s : jsstring) :
  List.length (filter nonBlank (split test s))
  = markerCount test s + preambleCount test s.
Proof.
  unfold preambleCount.
  destruct s as [|c s]; cbn [split].
  - rewrite marker_not_empty. reflexivity.
  - rewrite splitLoop_count. unfold markerCount.
    cbn [preamble suffixes filter app].
    destruct (test (c :: s)) eqn:E.
    + destruct (marker_head _ E) as [c' [s' [Heq Hc]]].
      injection Heq as -> ->.
      rewrite (nonBlank_cons _ _ Hc). cbn. lia.
    + destruct (nonBlank (c :: preamble test s)); lia.
Qed.

End SplitFacts.

(** ** The markers *)

(** A literal matches where the input starts with it. *)
Lemma matchRe_Str {A} (p s : jsstring) (cap : option jsstring)
    (k : jsstring -> option jsstring -> option A) :
  matchRe (Str p) s cap k
  = if startsWith s p then k (skipn (List.length p) s) cap else None.
Proof.
  revert s. induction p as [|c p IH]; intros s; [reflexivity|].
  cbn [Str matchRe Chr startsWith List.length].
  destruct s as [|x s]; [reflexivity|]. cbn [skipn].
  destruct (N.eqb c x); [apply IH | reflexivity].
Qed.

Section MarkerFacts.
Local Open Scope N_scope.

Lemma lookahead_head (p : codeUnit -> bool) (r : regex) (s : jsstring) :
  lookahead (Seq (Cls p) r) s = true ->
  exists c s', s = c :: s' /\ p c = true.
Proof.
  unfold lookahead, matchHere. cbn [matchRe].
  destruct s as [|c s']; [discriminate|].
  destruct (p c) eqn:E; [|discriminate].
  intros _. exists c, s'. split; [reflexivity | exact E].
Qed.

Lemma canonicalize_punctuation (c k : codeUnit) :
  k < 65 \/ 122 < k -> N.eqb (canonicalize c) (canonicalize k) = true -> c = k.
Proof.
  intros Hk H. apply N.eqb_eq in H. revert H. unfold canonicalize.
  destruct (N.leb_spec 97 c), (N.leb_spec c 122),
           (N.leb_spec 97 k), (N.leb_spec k 122); cbn [andb]; lia.
Qed.

Lemma hash_head (r : regex) (s : jsstring) :
  lookahead (Seq (ChrI 35) r) s = true ->
  exists c s', s = c :: s' /\ isWhiteSpace c = false.
Proof.
  intros H. apply lookahead_head in H. destruct H as [c [s' [-> H]]].
  apply canonicalize_punctuation in H; [|lia]. subst c.
  exists 35, s'. split; reflexivity.
Qed.

Lemma bracket_head (r : regex) (s : jsstring) :
  lookahead (Seq (ChrI 91) r) s = true ->
  exists c s', s = c :: s' /\ isWhiteSpace c = false.
Proof.
  intros H. apply lookahead_head in H. destruct H as [c [s' [-> H]]].
  unfold canonicalize in H. apply N.eqb_eq in H.
  assert (c = 91) as ->.
  { revert H. destruct (N.leb_spec 97 c), (N.leb_spec c 122); cbn; lia. }
  exists 91, s'. split; reflexivity.
Qed.

(** Whatever the marker type, a marker of [chunkByMarker] starts with
    [#] or with an opening bracket. *)
Lemma markerRe_head (markerType s : jsstring) :
  lookahead (SHNLiteCanvas.markerRe markerType) s = true ->
  exists c s', s = c :: s' /\ isWhiteSpace c = false.
Proof.
  unfold SHNLiteCanvas.markerRe.
  destruct (str_eqb markerType (lit "day")).
  - apply bracket_head.
  - destruct (str_eqb markerType (lit "episode")).
    + apply bracket_head.
    + apply hash_head.
Qed.

Lemma turnMarker_head (s : jsstring) :
  lookahead (Str SHNCanvas.turnMarker) s = true ->
  exists c s', s = c :: s' /\ isWhiteSpace c = false.
Proof.
  intros H. apply lookahead_head in H. destruct H as [c [s' [-> H]]].
  apply N.eqb_eq in H. subst c.
  exists 35, s'. split; reflexivity.
Qed.

End MarkerFacts.

(** ** [chunkByMarker] and the chunking of [runExtraction] *)

Section ChunkFacts.

Lemma ceilDiv_of_one (n : nat) : 1 <= n -> ceilDiv 1 n = 1.
Proof.
  intros Hn. unfold ceilDiv. replace (1 + n - 1) with n by lia.
  apply Nat.div_same. lia.
Qed.

(** C3 as stated fails: the single chunk is the text as it came, white
    space around it included, not the trimmed text. *)
Lemma chunkByMarker_keeps_white_space :
  let text_ := lit " a " in
  markerCount (lookahead (SHNLiteCanvas.markerRe (lit "turn"))) text_ = 0
  /\ nonBlank text_ = true
  /\ SHNLiteCanvas.chunkByMarker text_ (lit "turn") 1 = Some [text_]
  /\ trim text_ = lit "a"
  /\ text_ <> trim text_.
Proof.
  repeat split; try reflexivity. discriminate.
Qed.

(** C3, amended: on a text without a marker of the chosen type that is
    not all white space, [chunkByMarker] answers one chunk, and the chunk
    is the text unchanged (trimming only decides whether a chunk is
    dropped). *)
Theorem chunkByMarker_without_marker (text_ markerType : jsstring) (n : nat) :
  markerCount (lookahead (SHNLiteCanvas.markerRe markerType)) text_ = 0 ->
  nonBlank text_ = true ->
  1 <= n ->
  SHNLiteCanvas.chunkByMarker text_ markerType n = Some [text_].
Proof.
  intros Hk Hb Hn. unfold SHNLiteCanvas.chunkByMarker.
  rewrite split_no_marker; [|apply marker_not_empty, markerRe_head | exact Hk].
  cbn [filter]. fold (nonBlank text_). rewrite Hb.
  rewrite groupLoop_total by exact Hn.
  cbn [List.length]. rewrite ceilDiv_of_one by exact Hn.
  cbn [seq map]. unfold batchAt, slice. cbn [Nat.mul Nat.add skipn].
  rewrite Nat.sub_0_r.
  destruct n as [|n]; [lia|]. cbn [firstn]. rewrite firstn_nil. reflexivity.
Qed.

Lemma chunkByMarker_without_marker_witness :
  SHNLiteCanvas.chunkByMarker (lit " a ") (lit "day") 1 = Some [lit " a "].
Proof.
  apply (chunkByMarker_without_marker (lit " a ") (lit "day") 1);
    [reflexivity | reflexivity | lia].
Defined.

Lemma batchAt_length (n : nat) (blocks : list jsstring) (j : nat) :
  1 <= n -> j < ceilDiv (List.length blocks) n ->
  1 <= List.length (batchAt n blocks j) <= n.
Proof.
  intros Hn Hj. apply ceilDiv_gt in Hj; [|exact Hn].
  unfold batchAt, slice. rewrite length_firstn, length_skipn. lia.
Qed.

(** The grouping loop on the blocks of a text whose markers start with a
    character that is not white space. *)
Lemma grouped_blocks (test : jsstring -> bool) (text_ : jsstring) (n : nat) :
  (forall s, test s = true -> exists c s', s = c :: s' /\ isWhiteSpace c = false) ->
  1 <= n ->
  let blocks := filter nonBlank (split test text_) in
  exists batches,
    groupLoop (S (List.length blocks)) blocks n 0 [] = Some batches
    /\ List.length batches
       = ceilDiv (markerCount test text_ + preambleCount test text_) n
    /\ batchesOf n blocks batches.
Proof.
  intros Hhead Hn blocks.
  eexists. split; [apply groupLoop_total; exact Hn|].
  split.
  - rewrite length_map, length_seq. unfold blocks.
    rewrite split_count by exact Hhead. reflexivity.
  - exists (map (batchAt n blocks) (seq 0 (ceilDiv (List.length blocks) n))).
    split; [rewrite map_map; reflexivity|].
    split; [apply batches_concat; exact Hn|].
    apply Forall_forall. intros g Hg. apply in_map_iff in Hg.
    destruct Hg as [j [<- Hj]]. apply in_seq in Hj.
    apply batchAt_length; [exact Hn | lia].
Qed.

Lemma startsWith_app (p y : jsstring) : startsWith (p ++ y) p = true.
Proof.
  induction p as [|c p IH]; [reflexivity|]. cbn [app startsWith].
  rewrite N.eqb_refl. exact IH.
Qed.

Lemma startsWith_weaken (a w p : jsstring) :
  startsWith a p = true -> startsWith (a ++ w) p = true.
Proof.
  revert a. induction p as [|c p IH]; intros a H; [reflexivity|].
  destruct a as [|x a]; [discriminate|]. cbn [app startsWith] in H |- *.
  apply andb_prop in H. destruct H as [Hc Hp]. rewrite Hc. exact (IH a Hp).
Qed.

Lemma trimStart_split (s : jsstring) :
  exists blank, s = blank ++ trimStart s /\ forallb isWhiteSpace blank = true.
Proof.
  induction s as [|c s [blank [Hs Hb]]]; [exists []; split; reflexivity|].
  cbn [trimStart]. destruct (isWhiteSpace c) eqn:E.
  - exists (c :: blank). cbn [app forallb]. rewrite E, Hb, <- Hs. split; reflexivity.
  - exists []. split; reflexivity.
Qed.

Lemma trimEnd_prefix (s : jsstring) : exists w, s = trimEnd s ++ w.
Proof.
  unfold trimEnd. destruct (trimStart_split (rev s)) as [blank [Hs _]].
  exists (rev blank). rewrite <- rev_app_distr, <- Hs, rev_involutive. reflexivity.
Qed.

(** White space in front of a marker is a blank preamble. *)
Lemma preamble_of_blank (test : jsstring -> bool) (blank v : jsstring) :
  forallb isWhiteSpace blank = true ->
  test v = true ->
  nonBlank (preamble test (blank ++ v)) = false.
Proof.
  intros Hb Hv. induction blank as [|x blank IH]; cbn [app].
  - destruct v as [|c v]; [reflexivity|]. cbn [preamble]. rewrite Hv. reflexivity.
  - cbn [forallb] in Hb. apply andb_prop in Hb. destruct Hb as [Hx Hb].
    cbn [preamble]. destruct (test (x :: blank ++ v)); [reflexivity|].
    rewrite nonBlank_existsb. cbn [existsb]. rewrite Hx. cbn [negb orb].
    rewrite <- nonBlank_existsb. exact (IH Hb).
Qed.

Lemma preamble_at_marker (test : jsstring -> bool) (v : jsstring) :
  test v = true -> nonBlank (preamble test v) = false.
Proof.
  apply (preamble_of_blank test [] v eq_refl).
Qed.

Lemma join_head (sep x : jsstring) (l : list jsstring) :
  exists rest, join sep (x :: l) = x ++ rest.
Proof.
  destruct l as [|y l]; cbn [join].
  - exists []. rewrite app_nil_r. reflexivity.
  - eexists. reflexivity.
Qed.

Lemma joined_preamble (test : jsstring -> bool) (f : SHNCanvas.turn -> jsstring)
    (sep : jsstring) (turns : list SHNCanvas.turn) :
  (forall t rest, nonBlank (preamble test (f t ++ rest)) = false) ->
  nonBlank (preamble test (join sep (map f turns))) = false.
Proof.
  intros Hf. destruct turns as [|t turns]; [reflexivity|].
  cbn [map]. destruct (join_head sep (f t) (map f turns)) as [rest ->].
  apply Hf.
Qed.

(** The text [runExtraction] assembles starts, after white space at most,
    with a marker: every turn is given one unless it brings its own. *)
Lemma allMarkdown_preamble (turns : list SHNCanvas.turn) :
  preambleCount (lookahead (Str SHNCanvas.turnMarker)) (SHNCanvas.allMarkdown turns) = 0.
Proof.
  unfold preambleCount, SHNCanvas.allMarkdown.
  rewrite joined_preamble; [reflexivity|].
  intros t rest. cbn beta zeta.
  destruct (startsWith (trim (orElse (SHNCanvas.turn_content t)
                                (orElse (SHNCanvas.turn_narrative t) [])))
              SHNCanvas.turnMarker) eqn:E.
  - destruct (trimStart_split (orElse (SHNCanvas.turn_content t)
                                 (orElse (SHNCanvas.turn_narrative t) [])))
      as [blank [Hs Hb]].
    destruct (trimEnd_prefix (trimStart (orElse (SHNCanvas.turn_content t)
                                           (orElse (SHNCanvas.turn_narrative t) []))))
      as [w Hw].
    rewrite Hs, <- app_assoc. apply preamble_of_blank; [exact Hb|].
    unfold lookahead, matchHere. rewrite matchRe_Str.
    rewrite startsWith_weaken; [reflexivity|].
    rewrite Hw. apply startsWith_weaken. exact E.
  - rewrite <- app_assoc. apply preamble_at_marker.
    unfold lookahead, matchHere. rewrite matchRe_Str, startsWith_app. reflexivity.
Qed.

(** C2 as stated fails: text before the first marker is a block of its
    own, so one marker and a batch size of 1 give two batches, not
    [ceil (1 / 1) = 1]. *)
Lemma chunking_counts_the_preamble :
  let first := lit "## [" ++ [cu_teon] ++ lit " 1] a" in
  let text_ := lit "intro " ++ first in
  markerCount (lookahead (SHNLiteCanvas.markerRe (lit "turn"))) text_ = 1
  /\ SHNLiteCanvas.chunkByMarker text_ (lit "turn") 1 = Some [lit "intro "; first]
  /\ markerCount (lookahead (Str SHNCanvas.turnMarker)) text_ = 1
  /\ SHNCanvas.chunksOf (SHNCanvas.turnBlocks text_) 1 = Some [lit "intro "; first]
  /\ ceilDiv 1 1 = 1.
Proof.
  repeat split; reflexivity.
Qed.

(** C2, amended: for a batch size [n] of at least 1, a text with [k]
    markers gives [ceil ((k + p) / n)] batches, where [p] is 1 when the
    text before the first marker is not blank and 0 otherwise; the
    batches are consecutive runs of at most [n] blocks in the order of
    the text, every block is in exactly one of them, and the pieces the
    blocks are taken from are the text end to end.  This holds of
    [chunkByMarker] with the turn marker and of the chunking steps of
    [runExtraction]; the text [runExtraction] assembles from the turns
    has no preamble that counts, so there the batches are
    [ceil (k / n)]. *)
Theorem chunking_batches (text_ : jsstring) (n : nat) (Hn : 1 <= n) :
  (let test := lookahead (SHNLiteCanvas.markerRe (lit "turn")) in
   let blocks := filter nonBlank (split test text_) in
   exists batches,
     SHNLiteCanvas.chunkByMarker text_ (lit "turn") n = Some batches
     /\ List.length batches
        = ceilDiv (markerCount test text_ + preambleCount test text_) n
     /\ batchesOf n blocks batches
     /\ concat (split test text_) = text_)
  /\ (let test := lookahead (Str SHNCanvas.turnMarker) in
      exists batches,
        SHNCanvas.chunksOf (SHNCanvas.turnBlocks text_) n = Some batches
        /\ List.length batches
           = ceilDiv (markerCount test text_ + preambleCount test text_) n
        /\ batchesOf n (SHNCanvas.turnBlocks text_) batches
        /\ concat (split test text_) = text_)
  /\ (forall turns : list SHNCanvas.turn,
        exists batches,
          SHNCanvas.chunksOf (SHNCanvas.turnBlocks (SHNCanvas.allMarkdown turns)) n
          = Some batches
          /\ List.length batches
             = ceilDiv (markerCount (lookahead (Str SHNCanvas.turnMarker))
                          (SHNCanvas.allMarkdown turns)) n).
Proof.
  split; [|split].
  - intros test blocks.
    destruct (grouped_blocks test text_ n (markerRe_head (lit "turn")) Hn)
      as [batches [H1 [H2 H3]]].
    exists batches. repeat split; try assumption. apply split_concat.
  - intros test.
    destruct (grouped_blocks test text_ n turnMarker_head Hn)
      as [batches [H1 [H2 H3]]].
    exists batches. repeat split; try assumption. apply split_concat.
  - intros turns.
    destruct (grouped_blocks (lookahead (Str SHNCanvas.turnMarker))
                (SHNCanvas.allMarkdown turns) n turnMarker_head Hn)
      as [batches [H1 [H2 _]]].
    exists batches. split; [exact H1|].
    rewrite H2, allMarkdown_preamble, Nat.add_0_r. reflexivity.
Qed.

Lemma chunking_batches_witness :
  exists batches,
    SHNLiteCanvas.chunkByMarker
      (lit "## [" ++ [cu_teon] ++ lit " 1] a" ++ lit "## [" ++ [cu_teon] ++ lit " 2] b"
         ++ lit "## [" ++ [cu_teon] ++ lit " 3] c")
      (lit "turn") 2
    = Some batches
    /\ List.length batches = 2.
Proof.
  destruct (proj1 (chunking_batches
                     (lit "## [" ++ [cu_teon] ++ lit " 1] a" ++ lit "## [" ++ [cu_teon]
                        ++ lit " 2] b" ++ lit "## [" ++ [cu_teon] ++ lit " 3] c")
                     2 (le_S 1 1 (le_n 1))))
    as [batches [H1 [H2 _]]].
  exists batches. split; [exact H1 | exact H2].
Defined.

End ChunkFacts.

(** ** Paced loops *)

Section PacingFacts.
Variable ms : Z.
Variable b : nat.
Variable called : nat -> list event.
Hypothesis called_no_delay : forall i, filter isDelay (called i) = [].

Lemma paced_delays (i : nat) :
  filter isDelay (paced ms b (called i) i)
  = if i <? b - 1 then [Delay ms] else [].
Proof.
  unfold paced. rewrite filter_app, called_no_delay.
  destruct (i <? b - 1); reflexivity.
Qed.

Lemma paced_delays_before_last (k : nat) :
  k <= b - 1 ->
  filter isDelay (flat_map (fun i => paced ms b (called i) i) (seq 0 k))
  = repeat (Delay ms) k.
Proof.
  induction k as [|k IH]; intros Hk; [reflexivity|].
  rewrite seq_S, flat_map_app, filter_app, IH by lia.
  cbn [Nat.add flat_map]. rewrite app_nil_r, paced_delays.
  destruct (Nat.ltb_spec k (b - 1)); [|lia].
  symmetry. apply repeat_cons.
Qed.

(** A loop of [b] paced steps pauses [b - 1] times. *)
Lemma paced_delays_count :
  filter isDelay (flat_map (fun i => paced ms b (called i) i) (seq 0 b))
  = repeat (Delay ms) (b - 1).
Proof.
  destruct b as [|b'] eqn:Eb; [reflexivity|]. rewrite <- Eb.
  replace (seq 0 b) with (seq 0 (b - 1) ++ [b - 1]).
  2:{ rewrite Eb. cbn [Nat.sub]. rewrite Nat.sub_0_r. symmetry. apply seq_S. }
  rewrite flat_map_app, filter_app, paced_delays_before_last by lia.
  cbn [flat_map]. rewrite app_nil_r, paced_delays, Nat.ltb_irrefl.
  apply app_nil_r.
Qed.

End PacingFacts.

(** ** [runExtraction] *)

Section RunExtractionFacts.
Import SHNCanvas.
Variable P : jsstring.
Variable w : world.
Hypothesis key_set : truthyStr (apiKey w) = true.
Variable chunks : list jsstring.

Local Abbreviation b := (List.length chunks).
Local Abbreviation step :=
  (fun j : nat => paced 2000 b [LLMCall (requestFor P chunks j)] j).

Lemma callLLM_split (i : nat) :
  callLLM (apiKey w) (fetch w i) (dataStart ++ nth i chunks [] ++ dataEnd) P
  = ([LLMCall (requestFor P chunks i)], answerFor P w chunks i).
Proof.
  unfold answerFor, callLLM. rewrite key_set. reflexivity.
Qed.

Lemma processChunks_step (k i : nat) (acc : list jsstring) (trace : list event) :
  processChunks P w chunks (S k) i acc trace
  = match answerFor P w chunks i with
    | Throw message => (trace ++ [LLMCall (requestFor P chunks i)], Throw message)
    | Ok r => processChunks P w chunks k (S i) (acc ++ [r]) (trace ++ step i)
    end.
Proof.
  cbn [processChunks]. rewrite callLLM_split.
  destruct (answerFor P w chunks i); reflexivity.
Qed.

(** While every call is answered the loop goes on. *)
Lemma processChunks_answered (k : nat) :
  forall i acc trace,
    (forall j, i <= j < i + k -> exists r, answerFor P w chunks j = Ok r) ->
    exists rs,
      processChunks P w chunks k i acc trace
      = (trace ++ flat_map step (seq i k), Ok (acc ++ rs)).
Proof.
  induction k as [|k IH]; intros i acc trace H.
  - exists []. cbn. rewrite !app_nil_r. reflexivity.
  - rewrite processChunks_step.
    destruct (H i) as [r Hr]; [lia|]. rewrite Hr.
    destruct (IH (S i) (acc ++ [r]) (trace ++ step i)) as [rs Hrs].
    { intros j Hj. apply H. lia. }
    exists (r :: rs). rewrite Hrs. cbn [seq flat_map].
    rewrite <- !app_assoc. reflexivity.
Qed.

(** The first call that throws ends the loop: no later chunk is sent. *)
Lemma processChunks_thrown (k : nat) :
  forall i acc trace f message,
    i <= f < i + k ->
    (forall j, i <= j < f -> exists r, answerFor P w chunks j = Ok r) ->
    answerFor P w chunks f = Throw message ->
    processChunks P w chunks k i acc trace
    = (trace ++ flat_map step (seq i (f - i)) ++ [LLMCall (requestFor P chunks f)],
       Throw message).
Proof.
  induction k as [|k IH]; intros i acc trace f message Hf Hbefore Hthrow; [lia|].
  rewrite processChunks_step.
  destruct (Nat.eq_dec i f) as [->|Hne].
  - rewrite Hthrow, Nat.sub_diag. reflexivity.
  - destruct (Hbefore i) as [r Hr]; [lia|]. rewrite Hr.
    rewrite (IH (S i) _ _ f message) by (try assumption; try lia;
                                           intros j Hj; apply Hbefore; lia).
    replace (f - i) with (S (f - S i)) by lia.
    cbn [seq flat_map]. rewrite <- !app_assoc. reflexivity.
Qed.

(** Every run of the loop is of one of the two kinds. *)
Lemma processChunks_cases (k : nat) :
  forall i,
    (forall j, i <= j < i + k -> exists r, answerFor P w chunks j = Ok r)
    \/ (exists f message,
          i <= f < i + k
          /\ (forall j, i <= j < f -> exists r, answerFor P w chunks j = Ok r)
          /\ answerFor P w chunks f = Throw message).
Proof.
  induction k as [|k IH]; intros i.
  - left. intros j Hj. lia.
  - destruct (answerFor P w chunks i) as [r|message] eqn:Hi.
    + destruct (IH (S i)) as [Hall|[f [message [Hf [Hbefore Hthrow]]]]].
      * left. intros j Hj. destruct (Nat.eq_dec j i) as [->|Hne]; [eauto|].
        apply Hall. lia.
      * right. exists f, message. split; [lia|]. split; [|exact Hthrow].
        intros j Hj. destruct (Nat.eq_dec j i) as [->|Hne]; [eauto|].
        apply Hbefore. lia.
    + right. exists i, message. split; [lia|]. split; [|exact Hi].
      intros j Hj. lia.
Qed.

Lemma step_calls (j : nat) : List.length (filter isLLMCall (step j)) = 1.
Proof.
  unfold paced. rewrite filter_app, length_app.
  destruct (j <? b - 1); reflexivity.
Qed.

Lemma steps_calls (i k : nat) :
  List.length (filter isLLMCall (flat_map step (seq i k))) = k.
Proof.
  revert i. induction k as [|k IH]; intros i; [reflexivity|].
  cbn [seq flat_map]. rewrite filter_app, length_app, step_calls, IH. reflexivity.
Qed.

Lemma steps_callsAndDelays (i k : nat) :
  callsAndDelays (flat_map step (seq i k)) = flat_map step (seq i k).
Proof.
  unfold callsAndDelays. apply forallb_filter_id. apply forallb_forall.
  intros e He. apply in_flat_map in He. destruct He as [j [_ He]].
  cbn beta in He. unfold paced in He. apply in_app_or in He.
  destruct He as [[<-|[]]|He]; [reflexivity|].
  destruct (j <? b - 1); [destruct He as [<-|[]]; reflexivity | destruct He].
Qed.

End RunExtractionFacts.

(** ** [batchExtract] *)

Section BatchExtractFacts.
Import SHNLiteCanvas.
Variable microPrompt : jsstring.
Variable mesoPrompt : jsstring -> jsstring.
Variable macroPrompt : jsstring.
Variable JSON_parse : jsstring -> result jsvalue.
Variable apiKey : jsstring.
Variable fetch : nat -> jsstring -> fetched llmResponse.

Local Abbreviation extractAt :=
  (extractAtLevel microPrompt mesoPrompt macroPrompt JSON_parse apiKey fetch).
Local Abbreviation chunkStep :=
  (extractChunk microPrompt mesoPrompt macroPrompt JSON_parse apiKey fetch).
Local Abbreviation run :=
  (batchExtract microPrompt mesoPrompt macroPrompt JSON_parse apiKey fetch).

(** One chunk at a time, the chunks are the blocks that are not blank. *)
Lemma chunkByMarker_one (text_ markerType : jsstring) :
  chunkByMarker text_ markerType 1
  = Some (filter nonBlank (split (lookahead (markerRe markerType)) text_)).
Proof.
  unfold chunkByMarker. rewrite groupLoop_total by lia.
  rewrite ceilDiv_one, batches_of_one. reflexivity.
Qed.

Lemma extractChunks_unfold (chunks : list jsstring) (markerType level : jsstring)
    (onProgress : bool) (k : nat) :
  forall i results trace,
    extractChunks microPrompt mesoPrompt macroPrompt JSON_parse apiKey fetch
      chunks markerType level onProgress k i results trace
    = (trace ++ flat_map (fun j => fst (chunkStep chunks markerType level onProgress j))
                  (seq i k),
       results ++ map (fun j => snd (chunkStep chunks markerType level onProgress j))
                    (seq i k)).
Proof.
  induction k as [|k IH]; intros i results trace.
  - cbn. rewrite !app_nil_r. reflexivity.
  - cbn [extractChunks].
    destruct (chunkStep chunks markerType level onProgress i) as [events e] eqn:E.
    rewrite IH. cbn [seq flat_map map]. rewrite E. cbn [fst snd].
    rewrite <- !app_assoc. reflexivity.
Qed.

Lemma chunkStep_entry (chunks : list jsstring) (markerType level : jsstring)
    (onProgress : bool) (i : nat) :
  snd (chunkStep chunks markerType level onProgress i)
  = match snd (extractAt level markerType i (nth i chunks [])) with
    | Ok data => Succeeded i data
    | Throw message => Failed i message
    end.
Proof.
  unfold extractChunk.
  destruct (extractAt level markerType i (nth i chunks [])); reflexivity.
Qed.

Lemma chunkStep_events (chunks : list jsstring) (markerType level : jsstring)
    (onProgress : bool) (i : nat) :
  fst (chunkStep chunks markerType level onProgress i)
  = paced 500 (List.length chunks)
      (fst (extractAt level markerType i (nth i chunks []))
         ++ (if onProgress then [Progress (i + 1) (List.length chunks)] else []))
      i.
Proof.
  unfold extractChunk, paced.
  destruct (extractAt level markerType i (nth i chunks [])).
  cbn [fst]. rewrite <- app_assoc. reflexivity.
Qed.

Lemma callLLM_no_delay (n : nat) (prompt content_ : jsstring) :
  filter isDelay
    (fst (callLLM JSON_parse apiKey fetch n prompt content_)) = [].
Proof.
  unfold callLLM. destruct (negb (truthyStr apiKey)); reflexivity.
Qed.

Lemma extractAt_no_delay (level markerType : jsstring) (n : nat) (chunk : jsstring) :
  filter isDelay (fst (extractAt level markerType n chunk)) = [].
Proof.
  unfold extractAtLevel, extractMeso, extractMacro, extractMicro.
  destruct (str_eqb level (lit "meso")); [apply callLLM_no_delay|].
  destruct (str_eqb level (lit "macro")); apply callLLM_no_delay.
Qed.

(** The run as a whole: it returns, with one step for each chunk. *)
Lemma batchExtract_unfold (fullText markerType level : jsstring) (onProgress : bool) :
  exists chunks,
    chunkByMarker fullText markerType 1 = Some chunks
    /\ run fullText markerType level onProgress
       = Some (flat_map (fun j => fst (chunkStep chunks markerType level onProgress j))
                 (seq 0 (List.length chunks)),
               map (fun j => snd (chunkStep chunks markerType level onProgress j))
                 (seq 0 (List.length chunks))).
Proof.
  eexists. split; [apply chunkByMarker_one|].
  unfold batchExtract. rewrite chunkByMarker_one, extractChunks_unfold.
  reflexivity.
Qed.

(** C10: [batchExtract] returns, and the array it returns has one entry
    for each chunk of [chunkByMarker], in the order of the chunks: the
    entry at position [i] has index [i] and is the success with the data
    or the failure with the message that the extraction of chunk [i]
    ended with, whichever chunks fail. *)
Theorem batchExtract_entries (fullText markerType extractionLevel : jsstring)
    (onProgress : bool) :
  exists chunks trace results,
    chunkByMarker fullText markerType 1 = Some chunks
    /\ run fullText markerType extractionLevel onProgress = Some (trace, results)
    /\ List.length results = List.length chunks
    /\ forall i, i < List.length chunks ->
         exists e,
           nth_error results i = Some e
           /\ index e = i
           /\ match snd (extractAt extractionLevel markerType i (nth i chunks [])) with
              | Ok data => e = Succeeded i data
              | Throw message => e = Failed i message
              end.
Proof.
  destruct (batchExtract_unfold fullText markerType extractionLevel onProgress)
    as [chunks [Hc Hr]].
  exists chunks. eexists. eexists.
  split; [exact Hc|]. split; [exact Hr|].
  split; [rewrite length_map, length_seq; reflexivity|].
  intros i Hi.
  exists (snd (chunkStep chunks markerType extractionLevel onProgress i)).
  split.
  - rewrite nth_error_map, nth_error_nth' with (d := 0) by (rewrite length_seq; exact Hi).
    rewrite seq_nth by exact Hi. reflexivity.
  - rewrite chunkStep_entry.
    destruct (snd (extractAt extractionLevel markerType i (nth i chunks [])));
      split; reflexivity.
Qed.

End BatchExtractFacts.

(** ** The two failure policies and the pacing *)

Section PolicyFacts.

Lemma filter_none (f : event -> bool) (l : list event) :
  (forall e, In e l -> f e = false) -> filter f l = [].
Proof.
  induction l as [|x l IH]; intros H; [reflexivity|]. cbn [filter].
  rewrite (H x (or_introl eq_refl)). apply IH. intros e He. apply H. right. exact He.
Qed.

Lemma hasProgress_elements (w : SHNCanvas.world) :
  hasProgress w = true ->
  SHNCanvas.progressEl (SHNCanvas.dom w) = true
  /\ SHNCanvas.progressBar (SHNCanvas.dom w) = true
  /\ SHNCanvas.progressText (SHNCanvas.dom w) = true.
Proof.
  unfold hasProgress. intros H.
  apply andb_prop in H. destruct H as [H H3].
  apply andb_prop in H. destruct H as [H1 H2]. auto.
Qed.

(** A run on a page with the progress elements. *)
Lemma runExtraction_started (P : jsstring) (w : SHNCanvas.world)
    (turns : list SHNCanvas.turn) (s : jsstring) (chunks : list jsstring) :
  truthyStr (SHNCanvas.apiKey w) = true ->
  SHNCanvas.promptAnswer w = Some s ->
  truthyStr s = true ->
  hasProgress w = true ->
  SHNCanvas.chunksOf (SHNCanvas.turnBlocks (SHNCanvas.allMarkdown turns))
    (Z.to_nat (SHNCanvas.chunkSizeOf s)) = Some chunks ->
  SHNCanvas.runExtraction P w turns
  = if List.length chunks =? 0 then Some ([], reported w SHNCanvas.msgNoTurns)
    else
      match SHNCanvas.processChunks P w chunks (List.length chunks) 0 [] [] with
      | (trace, Throw message) => Some (trace, reported w message)
      | (trace, Ok accumulatedResults) =>
          let finalResult :=
            join (lit "," ++ [newline])
              (filter (fun r => truthyStr (trim r)) accumulatedResults) in
          Some (trace
                  ++ (if SHNCanvas.storeReady w
                      then [StoreSet (Z.to_nat (SHNCanvas.chunkSizeOf s))
                              (List.length chunks) finalResult]
                      else [])
                  ++ (if SHNCanvas.statusEl (SHNCanvas.dom w)
                      then if SHNCanvas.confirmDownload w
                           then [Download (lit "[" ++ finalResult ++ lit "]")]
                           else []
                      else []),
                if SHNCanvas.statusEl (SHNCanvas.dom w)
                then SHNCanvas.Completed finalResult
                else SHNCanvas.Uncaught (lit "TypeError"))
      end.
Proof.
  intros Hkey Hprompt Hs Hprogress Hchunks.
  destruct (hasProgress_elements w Hprogress) as [H1 [H2 H3]].
  unfold SHNCanvas.runExtraction, SHNCanvas.catchBlock, reported.
  rewrite Hkey, Hprompt, Hs, H1, H2, H3, Hchunks. cbn [negb].
  destruct (List.length chunks =? 0).
  - destruct (SHNCanvas.statusEl (SHNCanvas.dom w)); reflexivity.
  - destruct (SHNCanvas.processChunks P w chunks (List.length chunks) 0 [] [])
      as [trace [results|message]];
      destruct (SHNCanvas.statusEl (SHNCanvas.dom w)); cbn [negb];
      rewrite ?app_nil_r; reflexivity.
Qed.

(** A run on a page that lacks one of them: the first write to it throws,
    before the [try]. *)
Lemma runExtraction_unstaged (P : jsstring) (w : SHNCanvas.world)
    (turns : list SHNCanvas.turn) (s : jsstring) :
  truthyStr (SHNCanvas.apiKey w) = true ->
  SHNCanvas.promptAnswer w = Some s ->
  truthyStr s = true ->
  hasProgress w = false ->
  SHNCanvas.runExtraction P w turns
  = Some ([], SHNCanvas.Uncaught (lit "TypeError")).
Proof.
  intros Hkey Hprompt Hs Hprogress.
  unfold SHNCanvas.runExtraction. rewrite Hkey, Hprompt, Hs. cbn [negb].
  unfold hasProgress in Hprogress.
  destruct (SHNCanvas.progressEl (SHNCanvas.dom w)); [|reflexivity].
  destruct (SHNCanvas.progressBar (SHNCanvas.dom w)); [|reflexivity].
  destruct (SHNCanvas.progressText (SHNCanvas.dom w)); [discriminate|reflexivity].
Qed.

(** The chunking of [runExtraction] always returns: the batch size is at
    least 1. *)
Lemma runExtraction_chunks (turns : list SHNCanvas.turn) (s : jsstring) :
  exists chunks,
    SHNCanvas.chunksOf (SHNCanvas.turnBlocks (SHNCanvas.allMarkdown turns))
      (Z.to_nat (SHNCanvas.chunkSizeOf s)) = Some chunks.
Proof.
  eexists. apply groupLoop_total.
  pose proof (chunkSizeOf_range s). lia.
Qed.

Lemma entries_nth (f : nat -> SHNLiteCanvas.entry) (n i : nat) :
  i < n -> nth_error (map f (seq 0 n)) i = Some (f i).
Proof.
  intros Hi.
  rewrite nth_error_map, nth_error_nth' with (d := 0) by (rewrite length_seq; exact Hi).
  rewrite seq_nth by exact Hi. reflexivity.
Qed.

(** The two policies, for the chunks a run works on. *)
Lemma policies_on_chunks :
  (forall (P : jsstring) (w : SHNCanvas.world) (turns : list SHNCanvas.turn)
          (s : jsstring) (chunks : list jsstring) (f : nat) (message : jsstring),
      truthyStr (SHNCanvas.apiKey w) = true ->
      SHNCanvas.promptAnswer w = Some s ->
      truthyStr s = true ->
      SHNCanvas.chunksOf (SHNCanvas.turnBlocks (SHNCanvas.allMarkdown turns))
        (Z.to_nat (SHNCanvas.chunkSizeOf s)) = Some chunks ->
      f < List.length chunks ->
      (forall j, j < f -> exists r, answerFor P w chunks j = Ok r) ->
      answerFor P w chunks f = Throw message ->
      exists trace ending,
        SHNCanvas.runExtraction P w turns = Some (trace, ending)
        /\ (hasProgress w = true ->
              ending = reported w message
              /\ trace
                 = flat_map (fun j => paced 2000 (List.length chunks)
                                        [LLMCall (requestFor P chunks j)] j) (seq 0 f)
                     ++ [LLMCall (requestFor P chunks f)]
              /\ List.length (filter isLLMCall trace) = f + 1)
        /\ (hasProgress w = false ->
              ending = SHNCanvas.Uncaught (lit "TypeError") /\ trace = [])
        /\ filter isStoreSet trace = []
        /\ filter (fun e => match e with Download _ => true | _ => false end) trace = [])
  /\ (forall (microPrompt : jsstring) (mesoPrompt : jsstring -> jsstring)
             (macroPrompt : jsstring) (JSON_parse : jsstring -> result jsvalue)
             (apiKey : jsstring) (fetch : nat -> jsstring -> fetched llmResponse)
             (fullText markerType extractionLevel : jsstring) (onProgress : bool)
             (chunks : list jsstring) (i : nat) (message : jsstring),
        let outcome j :=
          snd (SHNLiteCanvas.extractAtLevel microPrompt mesoPrompt macroPrompt
                 JSON_parse apiKey fetch extractionLevel markerType j (nth j chunks [])) in
        SHNLiteCanvas.chunkByMarker fullText markerType 1 = Some chunks ->
        i < List.length chunks ->
        outcome i = Throw message ->
        exists trace results,
          SHNLiteCanvas.batchExtract microPrompt mesoPrompt macroPrompt JSON_parse
            apiKey fetch fullText markerType extractionLevel onProgress
          = Some (trace, results)
          /\ nth_error results i = Some (SHNLiteCanvas.Failed i message)
          /\ List.length results = List.length chunks
          /\ (S i < List.length chunks ->
                nth_error results (S i)
                = Some (match outcome (S i) with
                        | Ok data => SHNLiteCanvas.Succeeded (S i) data
                        | Throw m => SHNLiteCanvas.Failed (S i) m
                        end))).
Proof.
  split.
  - intros P w turns s chunks f message Hkey Hprompt Hs Hchunks Hf Hbefore Hthrow.
    destruct (hasProgress w) eqn:Hprogress.
    2:{ exists [], (SHNCanvas.Uncaught (lit "TypeError")).
        split; [apply (runExtraction_unstaged P w turns s); assumption|].
        split; [discriminate|]. split; [intros _; split; reflexivity|].
        split; reflexivity. }
    exists (flat_map (fun j => paced 2000 (List.length chunks)
                                 [LLMCall (requestFor P chunks j)] j) (seq 0 f)
              ++ [LLMCall (requestFor P chunks f)]), (reported w message).
    split.
    + rewrite (runExtraction_started P w turns s chunks) by assumption.
      destruct (Nat.eqb_spec (List.length chunks) 0) as [E|_]; [lia|].
      rewrite (processChunks_thrown P w Hkey chunks (List.length chunks) 0 [] [] f message)
        by (try assumption; try lia; intros j Hj; apply Hbefore; lia).
      rewrite Nat.sub_0_r. reflexivity.
    + split; [|split; [discriminate|split]].
      * intros _. split; [reflexivity|]. split; [reflexivity|].
        rewrite filter_app, length_app, (steps_calls P chunks 0 f). reflexivity.
      * rewrite filter_app. cbn [filter isStoreSet app]. rewrite app_nil_r.
        apply filter_none. intros e He.
        apply in_flat_map in He. destruct He as [j [_ He]].
        unfold paced in He. apply in_app_or in He.
        destruct He as [[<-|[]]|He]; [reflexivity|].
        destruct (j <? List.length chunks - 1);
          [destruct He as [<-|[]]; reflexivity | destruct He].
      * rewrite filter_app. cbn [filter app]. rewrite app_nil_r.
        apply filter_none. intros e He.
        apply in_flat_map in He. destruct He as [j [_ He]].
        unfold paced in He. apply in_app_or in He.
        destruct He as [[<-|[]]|He]; [reflexivity|].
        destruct (j <? List.length chunks - 1);
          [destruct He as [<-|[]]; reflexivity | destruct He].
  - intros microPrompt mesoPrompt macroPrompt JSON_parse apiKey fetch fullText
           markerType extractionLevel onProgress chunks i message outcome
           Hchunks Hi Hthrow.
    destruct (batchExtract_unfold microPrompt mesoPrompt macroPrompt JSON_parse apiKey
                fetch fullText markerType extractionLevel onProgress)
      as [chunks' [Hc Hr]].
    rewrite Hchunks in Hc. injection Hc as <-.
    eexists. eexists. split; [exact Hr|].
    split; [|split].
    + rewrite entries_nth by exact Hi. rewrite chunkStep_entry.
      fold (outcome i). rewrite Hthrow. reflexivity.
    + rewrite length_map, length_seq. reflexivity.
    + intros Hi'. rewrite entries_nth by exact Hi'. rewrite chunkStep_entry.
      reflexivity.
Qed.

(** C6: in [runExtraction], when the call for batch [f] is the first to
    throw, the run ends after the calls for the batches [0..f] and nothing
    else: no call for a later batch, nothing stored, nothing downloaded.
    It ends as the failure with that message that the [catch] block
    reports; on a page without the status element the block itself throws
    when it writes the report, and on a page without one of the progress
    elements the run throws before any call.  In [batchExtract], when the
    extraction of chunk [i] throws, the entry at [i] is the failure with
    index [i] and the message, there is an entry for every chunk, and the
    entry at [i + 1] is what the extraction of chunk [i + 1] ended with. *)
Theorem failure_policies :
  (forall (P : jsstring) (w : SHNCanvas.world) (turns : list SHNCanvas.turn)
          (s : jsstring),
      truthyStr (SHNCanvas.apiKey w) = true ->
      SHNCanvas.promptAnswer w = Some s ->
      truthyStr s = true ->
      exists chunks,
        SHNCanvas.chunksOf (SHNCanvas.turnBlocks (SHNCanvas.allMarkdown turns))
          (Z.to_nat (SHNCanvas.chunkSizeOf s)) = Some chunks
        /\ forall f message,
             f < List.length chunks ->
             (forall j, j < f -> exists r, answerFor P w chunks j = Ok r) ->
             answerFor P w chunks f = Throw message ->
             exists trace ending,
               SHNCanvas.runExtraction P w turns = Some (trace, ending)
               /\ (hasProgress w = true ->
                     ending
                     = (if SHNCanvas.statusEl (SHNCanvas.dom w)
                        then SHNCanvas.Failed message
                        else SHNCanvas.Uncaught (lit "TypeError"))
                     /\ trace
                        = flat_map (fun j => paced 2000 (List.length chunks)
                                               [LLMCall (requestFor P chunks j)] j)
                            (seq 0 f)
                            ++ [LLMCall (requestFor P chunks f)]
                     /\ List.length (filter isLLMCall trace) = f + 1)
               /\ (hasProgress w = false ->
                     ending = SHNCanvas.Uncaught (lit "TypeError") /\ trace = [])
               /\ filter isStoreSet trace = []
               /\ filter (fun e => match e with Download _ => true | _ => false end)
                    trace = [])
  /\ (forall (microPrompt : jsstring) (mesoPrompt : jsstring -> jsstring)
             (macroPrompt : jsstring) (JSON_parse : jsstring -> result jsvalue)
             (apiKey : jsstring) (fetch : nat -> jsstring -> fetched llmResponse)
             (fullText markerType extractionLevel : jsstring) (onProgress : bool),
        exists chunks trace results,
          SHNLiteCanvas.chunkByMarker fullText markerType 1 = Some chunks
          /\ SHNLiteCanvas.batchExtract microPrompt mesoPrompt macroPrompt JSON_parse
               apiKey fetch fullText markerType extractionLevel onProgress
             = Some (trace, results)
          /\ List.length results = List.length chunks
          /\ let outcome j :=
               snd (SHNLiteCanvas.extractAtLevel microPrompt mesoPrompt macroPrompt
                      JSON_parse apiKey fetch extractionLevel markerType j
                      (nth j chunks [])) in
             forall i message,
               i < List.length chunks ->
               outcome i = Throw message ->
               nth_error results i = Some (SHNLiteCanvas.Failed i message)
               /\ (S i < List.length chunks ->
                     nth_error results (S i)
                     = Some (match outcome (S i) with
                             | Ok data => SHNLiteCanvas.Succeeded (S i) data
                             | Throw m => SHNLiteCanvas.Failed (S i) m
                             end))).
Proof.
  split.
  - intros P w turns s Hkey Hprompt Hs.
    destruct (runExtraction_chunks turns s) as [chunks Hchunks].
    exists chunks. split; [exact Hchunks|].
    intros f message Hf Hbefore Hthrow.
    exact (proj1 policies_on_chunks P w turns s chunks f message
             Hkey Hprompt Hs Hchunks Hf Hbefore Hthrow).
  - intros microPrompt mesoPrompt macroPrompt JSON_parse apiKey fetch fullText
           markerType extractionLevel onProgress.
    destruct (batchExtract_unfold microPrompt mesoPrompt macroPrompt JSON_parse apiKey
                fetch fullText markerType extractionLevel onProgress)
      as [chunks [Hchunks Hrun]].
    exists chunks. eexists. eexists.
    split; [exact Hchunks|]. split; [exact Hrun|].
    split; [rewrite length_map, length_seq; reflexivity|].
    intros outcome i message Hi Hthrow.
    destruct (proj2 policies_on_chunks microPrompt mesoPrompt macroPrompt JSON_parse
                apiKey fetch fullText markerType extractionLevel onProgress chunks i
                message Hchunks Hi Hthrow)
      as [trace [results [Hrun' [Hat [_ Hnext]]]]].
    rewrite Hrun in Hrun'. injection Hrun' as _ <-.
    split; [exact Hat | exact Hnext].
Qed.

Lemma failure_policies_witness :
  exists trace,
    SHNCanvas.runExtraction (lit "Refine.") sampleWorld sampleTurns
    = Some (trace, SHNCanvas.Failed (lit "offline"))
    /\ List.length (filter isLLMCall trace) = 2
    /\ filter isStoreSet trace = [].
Proof.
  destruct (proj1 failure_policies (lit "Refine.") sampleWorld sampleTurns (lit "1")
              eq_refl eq_refl eq_refl)
    as [chunks [Hchunks Hpolicy]].
  assert (chunks = match SHNCanvas.chunksOf (SHNCanvas.turnBlocks sampleText) 1 with
                   | Some found => found
                   | None => []
                   end) as Echunks.
  { change (SHNCanvas.allMarkdown sampleTurns) with sampleText in Hchunks.
    change (Z.to_nat (SHNCanvas.chunkSizeOf (lit "1"))) with 1 in Hchunks.
    rewrite Hchunks. reflexivity. }
  destruct (Hpolicy 1 (lit "offline"))
    as [trace [ending [Hrun [Hstaged [_ [Hstore _]]]]]].
  - rewrite Echunks. vm_compute. lia.
  - intros j Hj. assert (j = 0) as -> by lia. rewrite Echunks.
    eexists. vm_compute. reflexivity.
  - rewrite Echunks. vm_compute. reflexivity.
  - destruct (Hstaged eq_refl) as [Hending [_ Hcalls]].
    exists trace. rewrite Hrun, Hending.
    split; [reflexivity|]. split; [exact Hcalls | exact Hstore].
Defined.

Lemma flat_map_seq_ext (f g : nat -> list event) (k : nat) :
  forall i,
    (forall j, i <= j < i + k -> f j = g j) ->
    flat_map f (seq i k) = flat_map g (seq i k).
Proof.
  induction k as [|k IH]; intros i H; [reflexivity|].
  cbn [seq flat_map]. rewrite (H i) by lia. f_equal.
  apply IH. intros j Hj. apply H. lia.
Qed.

Lemma callsAndDelays_app (l1 l2 : list event) :
  callsAndDelays (l1 ++ l2) = callsAndDelays l1 ++ callsAndDelays l2.
Proof.
  apply filter_app.
Qed.

Lemma closing_events_quiet (saved downloaded : list event) :
  (forall e, In e saved -> isStoreSet e = true) ->
  (forall e, In e downloaded -> exists blob, e = Download blob) ->
  callsAndDelays (saved ++ downloaded) = []
  /\ filter isDelay (saved ++ downloaded) = [].
Proof.
  intros Hs Hd.
  split; apply filter_none; intros e He; apply in_app_or in He;
    (destruct He as [He|He];
     [apply Hs in He; destruct e; try discriminate; reflexivity
     |apply Hd in He; destruct He as [blob ->]; reflexivity]).
Qed.

(** The pacing of a run, for the chunks and the trace it has. *)
Lemma pacing_of_run :
  (forall (P : jsstring) (w : SHNCanvas.world) (turns : list SHNCanvas.turn)
          (s : jsstring) (chunks : list jsstring) (trace : list event)
          (ending : SHNCanvas.ending),
      truthyStr (SHNCanvas.apiKey w) = true ->
      SHNCanvas.promptAnswer w = Some s ->
      truthyStr s = true ->
      SHNCanvas.chunksOf (SHNCanvas.turnBlocks (SHNCanvas.allMarkdown turns))
        (Z.to_nat (SHNCanvas.chunkSizeOf s)) = Some chunks ->
      SHNCanvas.runExtraction P w turns = Some (trace, ending) ->
      let c := List.length (filter isLLMCall trace) in
      callsAndDelays trace
      = flat_map (fun i => paced 2000 c [LLMCall (requestFor P chunks i)] i) (seq 0 c)
      /\ filter isDelay trace = repeat (Delay 2000) (c - 1)
      /\ c <= List.length chunks
      /\ (hasProgress w = false -> c = 0)
      /\ (hasProgress w = true ->
            ((forall j, j + 1 < List.length chunks ->
                exists r, answerFor P w chunks j = Ok r) ->
             c = List.length chunks)
            /\ (forall f message,
                  f < List.length chunks ->
                  (forall j, j < f -> exists r, answerFor P w chunks j = Ok r) ->
                  answerFor P w chunks f = Throw message ->
                  c = f + 1)))
  /\ (forall (microPrompt : jsstring) (mesoPrompt : jsstring -> jsstring)
             (macroPrompt : jsstring) (JSON_parse : jsstring -> result jsvalue)
             (apiKey : jsstring) (fetch : nat -> jsstring -> fetched llmResponse)
             (fullText markerType extractionLevel : jsstring) (onProgress : bool)
             (chunks : list jsstring) (trace : list event)
             (results : list SHNLiteCanvas.entry),
        SHNLiteCanvas.chunkByMarker fullText markerType 1 = Some chunks ->
        SHNLiteCanvas.batchExtract microPrompt mesoPrompt macroPrompt JSON_parse
          apiKey fetch fullText markerType extractionLevel onProgress
        = Some (trace, results) ->
        trace
        = flat_map
            (fun i =>
               paced 500 (List.length chunks)
                 (fst (SHNLiteCanvas.extractAtLevel microPrompt mesoPrompt macroPrompt
                         JSON_parse apiKey fetch extractionLevel markerType i
                         (nth i chunks []))
                    ++ (if onProgress then [Progress (i + 1) (List.length chunks)]
                        else []))
                 i)
            (seq 0 (List.length chunks))
        /\ filter isDelay trace = repeat (Delay 500) (List.length chunks - 1)).
Proof.
  split.
  - intros P w turns s chunks trace ending Hkey Hprompt Hs Hchunks Hrun c.
    subst c.
    destruct (hasProgress w) eqn:Hprogress.
    2:{ rewrite (runExtraction_unstaged P w turns s) in Hrun by assumption.
        injection Hrun as <- _. cbn.
        repeat split; try lia; discriminate. }
    rewrite (runExtraction_started P w turns s chunks) in Hrun by assumption.
    destruct (Nat.eqb_spec (List.length chunks) 0) as [E|E].
    { injection Hrun as <- _. cbn.
      repeat split; try lia; try discriminate; intros; lia. }
    destruct (processChunks_cases P w chunks (List.length chunks) 0)
      as [Hall|[f [message [Hf [Hbefore Hthrow]]]]].
    + destruct (processChunks_answered P w Hkey chunks (List.length chunks) 0 [] [] Hall)
        as [rs Hrs].
      rewrite Hrs in Hrun. cbn zeta in Hrun. injection Hrun as <- _.
      cbn [app].
      match goal with
      | |- context [flat_map ?st _ ++ ?sv ++ ?dl] =>
          destruct (closing_events_quiet sv dl) as [Hq1 Hq2];
          [ | | assert (filter isLLMCall (sv ++ dl) = []) as Hq3 ]
      end.
      { intros e He. destruct (SHNCanvas.storeReady w); [|destruct He].
        destruct He as [<-|[]]. reflexivity. }
      { intros e He.
        destruct (SHNCanvas.statusEl (SHNCanvas.dom w)); [|destruct He].
        destruct (SHNCanvas.confirmDownload w); [|destruct He].
        destruct He as [<-|[]]. eexists. reflexivity. }
      { apply filter_none. intros e He. apply in_app_or in He.
        destruct He as [He|He].
        - destruct (SHNCanvas.storeReady w); [|destruct He].
          destruct He as [<-|[]]. reflexivity.
        - destruct (SHNCanvas.statusEl (SHNCanvas.dom w)); [|destruct He].
          destruct (SHNCanvas.confirmDownload w); [|destruct He].
          destruct He as [<-|[]]. reflexivity. }
      match goal with
      | |- context [List.length (filter isLLMCall ?t)] =>
          assert (List.length (filter isLLMCall t) = List.length chunks) as Ec
      end.
      { rewrite filter_app, length_app, Hq3, (steps_calls P chunks 0).
        cbn. lia. }
      rewrite Ec. split; [|split; [|split; [|split]]].
      * rewrite callsAndDelays_app, Hq1, app_nil_r.
        apply (steps_callsAndDelays P chunks).
      * rewrite filter_app, Hq2, app_nil_r.
        apply (paced_delays_count 2000 (List.length chunks)
                 (fun i => [LLMCall (requestFor P chunks i)])).
        intros i. reflexivity.
      * lia.
      * discriminate.
      * intros _. split; [reflexivity|].
        intros f message Hf _ Hthrow.
        destruct (Hall f) as [r Hr]; [lia|]. rewrite Hr in Hthrow. discriminate.
    + rewrite (processChunks_thrown P w Hkey chunks (List.length chunks) 0 [] [] f message)
        in Hrun by assumption.
      rewrite Nat.sub_0_r in Hrun. cbn [app] in Hrun. injection Hrun as <- _.
      match goal with
      | |- context [List.length (filter isLLMCall ?t)] =>
          assert (List.length (filter isLLMCall t) = S f) as Ec
      end.
      { rewrite filter_app, length_app, (steps_calls P chunks 0 f).
        cbn. lia. }
      rewrite Ec. replace (S f - 1) with f by lia.
      assert (flat_map (fun j => paced 2000 (List.length chunks)
                                   [LLMCall (requestFor P chunks j)] j) (seq 0 f)
              = flat_map (fun j => paced 2000 (S f)
                                     [LLMCall (requestFor P chunks j)] j) (seq 0 f))
        as Esteps.
      { apply flat_map_seq_ext. intros j Hj. unfold paced.
        destruct (Nat.ltb_spec j (List.length chunks - 1)); [|lia].
        destruct (Nat.ltb_spec j (S f - 1)); [reflexivity | lia]. }
      rewrite Esteps.
      split; [|split; [|split; [|split]]].
      * rewrite callsAndDelays_app.
        rewrite seq_S, flat_map_app. cbn [Nat.add flat_map].
        f_equal.
        -- pose proof (steps_callsAndDelays P chunks 0 f) as Hid.
           rewrite Esteps in Hid. exact Hid.
        -- unfold paced. replace (S f - 1) with f by lia.
           rewrite Nat.ltb_irrefl. reflexivity.
      * rewrite filter_app. cbn [filter isDelay]. rewrite app_nil_r.
        apply (paced_delays_before_last 2000 (S f)
                 (fun i => [LLMCall (requestFor P chunks i)])
                 (fun i => eq_refl) f).
        lia.
      * lia.
      * discriminate.
      * intros _. split.
        -- intros Hlast.
           destruct (Nat.lt_ge_cases (f + 1) (List.length chunks)) as [Hlt|Hge]; [|lia].
           destruct (Hlast f Hlt) as [r Hr]. rewrite Hr in Hthrow. discriminate.
        -- intros f' message' Hf' Hbefore' Hthrow'.
           destruct (Nat.lt_trichotomy f f') as [Hlt|[Heq|Hgt]]; [|lia|].
           ++ destruct (Hbefore' f Hlt) as [r Hr]. rewrite Hr in Hthrow. discriminate.
           ++ destruct (Hbefore f') as [r Hr]; [lia|].
              rewrite Hr in Hthrow'. discriminate.
  - intros microPrompt mesoPrompt macroPrompt JSON_parse apiKey fetch fullText
           markerType extractionLevel onProgress chunks trace results Hchunks Hrun.
    destruct (batchExtract_unfold microPrompt mesoPrompt macroPrompt JSON_parse apiKey
                fetch fullText markerType extractionLevel onProgress)
      as [chunks' [Hc Hr]].
    rewrite Hchunks in Hc. injection Hc as <-.
    rewrite Hrun in Hr. injection Hr as -> _.
    assert (forall l,
              flat_map (fun j => fst (SHNLiteCanvas.extractChunk microPrompt mesoPrompt
                                        macroPrompt JSON_parse apiKey fetch chunks
                                        markerType extractionLevel onProgress j)) l
              = flat_map
                  (fun i =>
                     paced 500 (List.length chunks)
                       (fst (SHNLiteCanvas.extractAtLevel microPrompt mesoPrompt
                               macroPrompt JSON_parse apiKey fetch extractionLevel
                               markerType i (nth i chunks []))
                          ++ (if onProgress
                              then [Progress (i + 1) (List.length chunks)] else []))
                       i) l) as Hsteps.
    { intros l. induction l as [|j l IH]; [reflexivity|].
      cbn [flat_map]. rewrite IH, chunkStep_events. reflexivity. }
    rewrite Hsteps. split; [reflexivity|].
    apply (paced_delays_count 500 (List.length chunks)
             (fun i =>
                fst (SHNLiteCanvas.extractAtLevel microPrompt mesoPrompt macroPrompt
                       JSON_parse apiKey fetch extractionLevel markerType i
                       (nth i chunks []))
                  ++ (if onProgress then [Progress (i + 1) (List.length chunks)]
                      else []))).
    intros i. rewrite filter_app, extractAt_no_delay.
    destruct onProgress; reflexivity.
Qed.

(** With a key and an answer to the prompt [runExtraction] ends. *)
Lemma runExtraction_returns (P : jsstring) (w : SHNCanvas.world)
    (turns : list SHNCanvas.turn) (s : jsstring) :
  truthyStr (SHNCanvas.apiKey w) = true ->
  SHNCanvas.promptAnswer w = Some s ->
  truthyStr s = true ->
  exists trace ending, SHNCanvas.runExtraction P w turns = Some (trace, ending).
Proof.
  intros Hkey Hprompt Hs.
  destruct (hasProgress w) eqn:Hprogress.
  2:{ rewrite (runExtraction_unstaged P w turns s) by assumption.
      eexists. eexists. reflexivity. }
  destruct (runExtraction_chunks turns s) as [chunks Hchunks].
  rewrite (runExtraction_started P w turns s chunks) by assumption.
  destruct (List.length chunks =? 0); [eexists; eexists; reflexivity|].
  destruct (SHNCanvas.processChunks P w chunks (List.length chunks) 0 [] [])
    as [trace [results|message]]; eexists; eexists; reflexivity.
Qed.

(** C8 as stated fails: a run of [runExtraction] over three batches whose
    first call finds the endpoint unreachable ends with that call, so it
    pauses not twice but never. *)
Lemma pacing_stops_with_the_failure :
  exists chunks trace,
    SHNCanvas.chunksOf (SHNCanvas.turnBlocks (SHNCanvas.allMarkdown threeTurns))
      (Z.to_nat (SHNCanvas.chunkSizeOf (lit "1"))) = Some chunks
    /\ List.length chunks = 3
    /\ SHNCanvas.runExtraction (lit "Refine.") offlineWorld threeTurns
       = Some (trace, SHNCanvas.Failed (lit "offline"))
    /\ trace = [LLMCall (requestFor (lit "Refine.") chunks 0)]
    /\ filter isDelay trace = []
    /\ filter isDelay trace <> repeat (Delay 2000) (3 - 1).
Proof.
  eexists. eexists.
  split; [vm_compute; reflexivity|].
  split; [reflexivity|].
  split; [vm_compute; reflexivity|].
  split; [vm_compute; reflexivity|].
  split; [reflexivity | discriminate].
Qed.

(** C8, amended: in every run of [runExtraction] each call of the LLM but
    the last one made is followed by one pause of 2000 ms and the last
    one made by none, so a run that makes [c] calls pauses [c - 1]
    times.  On a page with the three progress elements [c] is the number
    [b] of batches when no call before the last one throws, and [f + 1]
    when the call for batch [f] is the first to throw; on a page without
    one of them there is no call and no pause.  In every run of
    [batchExtract] over [b] chunks each step but the last ends with one
    pause of 500 ms and the last with none: [b - 1] pauses. *)
Theorem pacing_delays :
  (forall (P : jsstring) (w : SHNCanvas.world) (turns : list SHNCanvas.turn)
          (s : jsstring),
      truthyStr (SHNCanvas.apiKey w) = true ->
      SHNCanvas.promptAnswer w = Some s ->
      truthyStr s = true ->
      exists chunks trace ending,
        SHNCanvas.chunksOf (SHNCanvas.turnBlocks (SHNCanvas.allMarkdown turns))
          (Z.to_nat (SHNCanvas.chunkSizeOf s)) = Some chunks
        /\ SHNCanvas.runExtraction P w turns = Some (trace, ending)
        /\ let c := List.length (filter isLLMCall trace) in
           callsAndDelays trace
           = flat_map (fun i => paced 2000 c [LLMCall (requestFor P chunks i)] i)
               (seq 0 c)
           /\ filter isDelay trace = repeat (Delay 2000) (c - 1)
           /\ c <= List.length chunks
           /\ (hasProgress w = false -> c = 0)
           /\ (hasProgress w = true ->
                 ((forall j, j + 1 < List.length chunks ->
                     exists r, answerFor P w chunks j = Ok r) ->
                  c = List.length chunks)
                 /\ (forall f message,
                       f < List.length chunks ->
                       (forall j, j < f -> exists r, answerFor P w chunks j = Ok r) ->
                       answerFor P w chunks f = Throw message ->
                       c = f + 1)))
  /\ (forall (microPrompt : jsstring) (mesoPrompt : jsstring -> jsstring)
             (macroPrompt : jsstring) (JSON_parse : jsstring -> result jsvalue)
             (apiKey : jsstring) (fetch : nat -> jsstring -> fetched llmResponse)
             (fullText markerType extractionLevel : jsstring) (onProgress : bool),
        exists chunks trace results,
          SHNLiteCanvas.chunkByMarker fullText markerType 1 = Some chunks
          /\ SHNLiteCanvas.batchExtract microPrompt mesoPrompt macroPrompt JSON_parse
               apiKey fetch fullText markerType extractionLevel onProgress
             = Some (trace, results)
          /\ trace
             = flat_map
                 (fun i =>
                    paced 500 (List.length chunks)
                      (fst (SHNLiteCanvas.extractAtLevel microPrompt mesoPrompt
                              macroPrompt JSON_parse apiKey fetch extractionLevel
                              markerType i (nth i chunks []))
                         ++ (if onProgress
                             then [Progress (i + 1) (List.length chunks)] else []))
                      i)
                 (seq 0 (List.length chunks))
          /\ filter isDelay trace = repeat (Delay 500) (List.length chunks - 1)).
Proof.
  split.
  - intros P w turns s Hkey Hprompt Hs.
    destruct (runExtraction_chunks turns s) as [chunks Hchunks].
    destruct (runExtraction_returns P w turns s Hkey Hprompt Hs)
      as [trace [ending Hrun]].
    exists chunks, trace, ending.
    split; [exact Hchunks|]. split; [exact Hrun|].
    exact (proj1 pacing_of_run P w turns s chunks trace ending
             Hkey Hprompt Hs Hchunks Hrun).
  - intros microPrompt mesoPrompt macroPrompt JSON_parse apiKey fetch fullText
           markerType extractionLevel onProgress.
    destruct (batchExtract_unfold microPrompt mesoPrompt macroPrompt JSON_parse apiKey
                fetch fullText markerType extractionLevel onProgress)
      as [chunks [Hchunks Hrun]].
    exists chunks. eexists. eexists.
    split; [exact Hchunks|]. split; [exact Hrun|].
    exact (proj2 pacing_of_run microPrompt mesoPrompt macroPrompt JSON_parse apiKey
             fetch fullText markerType extractionLevel onProgress chunks _ _
             Hchunks Hrun).
Qed.

Lemma pacing_delays_witness :
  exists trace ending,
    SHNCanvas.runExtraction (lit "Refine.") sampleWorld sampleTurns
    = Some (trace, ending)
    /\ filter isDelay trace = [Delay 2000].
Proof.
  destruct (proj1 pacing_delays (lit "Refine.") sampleWorld sampleTurns (lit "1")
              eq_refl eq_refl eq_refl)
    as [chunks [trace [ending [_ [Hrun [_ [Hdelays _]]]]]]].
  exists trace, ending. split; [exact Hrun|].
  rewrite Hdelays.
  assert (Some (trace, ending)
          = SHNCanvas.runExtraction (lit "Refine.") sampleWorld sampleTurns) as E
    by (symmetry; exact Hrun).
  vm_compute in E. injection E as -> _. reflexivity.
Defined.

End PolicyFacts.

(** ** Decimal digits *)

Section DecimalFacts.
Local Open Scope N_scope.

Lemma digitsFuel_value (fuel : nat) :
  forall n acc,
    n < 2 ^ N.of_nat fuel ->
    digitsValue 0 (digitsFuel fuel n acc) = digitsValue n acc.
Proof.
  induction fuel as [|fuel IH]; intros n acc Hn.
  - change (N.of_nat 0) with 0 in Hn. rewrite N.pow_0_r in Hn.
    assert (n = 0) as -> by lia. reflexivity.
  - cbn [digitsFuel].
    assert (digitValue (48 + n mod 10) = n mod 10) as Hd
      by (unfold digitValue; generalize (n mod 10); intros; lia).
    destruct (N.eqb_spec (n / 10) 0) as [E|E].
    + cbn [digitsValue]. rewrite Hd.
      rewrite (N.div_mod n 10) at 2 by lia. rewrite E.
      f_equal.
    + rewrite IH.
      * cbn [digitsValue]. rewrite Hd. f_equal.
        rewrite (N.div_mod n 10) at 3 by lia. reflexivity.
      * rewrite Nat2N.inj_succ, N.pow_succ_r' in Hn.
        apply N.Div0.div_lt_upper_bound. lia.
Qed.

Lemma decimal_value (n : N) : digitsValue 0 (decimal n) = n.
Proof.
  unfold decimal. rewrite digitsFuel_value; [reflexivity|].
  rewrite Nat2N.inj_succ, N2Nat.id.
  destruct (N.eq_dec n 0) as [->|Hn]; [reflexivity|].
  apply N.log2_spec. lia.
Qed.

Lemma digitsFuel_digits (fuel : nat) :
  forall n acc,
    forallb isDigit acc = true -> forallb isDigit (digitsFuel fuel n acc) = true.
Proof.
  induction fuel as [|fuel IH]; intros n acc Hacc; [exact Hacc|].
  cbn [digitsFuel].
  assert (forallb isDigit ((48 + n mod 10) :: acc) = true) as H.
  { cbn [forallb]. rewrite Hacc, andb_true_r. unfold isDigit.
    assert (n mod 10 < 10) as Hm by (apply N.mod_upper_bound; lia).
    revert Hm. generalize (n mod 10). intros m Hm.
    apply andb_true_intro. split; apply N.leb_le; lia. }
  destruct (n / 10 =? 0); [exact H | apply IH; exact H].
Qed.

Lemma digitsFuel_acc_not_empty (fuel : nat) :
  forall n c acc, digitsFuel fuel n (c :: acc) <> [].
Proof.
  induction fuel as [|fuel IH]; intros n c acc; [discriminate|].
  cbn [digitsFuel]. destruct (n / 10 =? 0); [discriminate | apply IH].
Qed.

Lemma digitsFuel_not_empty (fuel : nat) (n : N) (acc : jsstring) :
  digitsFuel (S fuel) n acc <> [].
Proof.
  cbn [digitsFuel].
  destruct (n / 10 =? 0); [discriminate | apply digitsFuel_acc_not_empty].
Qed.

(** The digits of a number: a digit first, digits throughout. *)
Lemma decimal_shape (n : N) :
  exists d ds, decimal n = d :: ds /\ isDigit d = true /\ forallb isDigit ds = true.
Proof.
  pose proof (digitsFuel_digits (S (N.to_nat (N.log2 n))) n [] eq_refl) as H.
  pose proof (digitsFuel_not_empty (N.to_nat (N.log2 n)) n []) as Hne.
  fold (decimal n) in H, Hne.
  destruct (decimal n) as [|d ds]; [contradiction|].
  cbn [forallb] in H. apply andb_prop in H.
  exists d, ds. tauto.
Qed.

Lemma takeDigits_all (ds : jsstring) :
  forallb isDigit ds = true -> takeDigits ds = ds.
Proof.
  induction ds as [|d ds IH]; [reflexivity|]. cbn [forallb takeDigits].
  intros H. apply andb_prop in H. destruct H as [Hd Hds].
  rewrite Hd, IH by exact Hds. reflexivity.
Qed.

Lemma digit_plain (d : codeUnit) :
  isDigit d = true ->
  isWhiteSpace d = false /\ (d =? 45) = false /\ (d =? 43) = false.
Proof.
  unfold isDigit. intros H. apply andb_prop in H.
  destruct H as [H1 H2]. apply N.leb_le in H1, H2.
  assert (d = 48 \/ d = 49 \/ d = 50 \/ d = 51 \/ d = 52 \/ d = 53 \/ d = 54
          \/ d = 55 \/ d = 56 \/ d = 57) as Hd by lia.
  repeat (destruct Hd as [->|Hd]; [repeat split; reflexivity|]).
  subst d. repeat split; reflexivity.
Qed.

End DecimalFacts.

(** [parseInt] reads back what [String] prints for an integer below
    10^21 in size. *)
Lemma parseInt_Number_toString (z : Z) :
  (Z.abs z < 10 ^ 21)%Z -> parseInt (Number_toString z) = Some z.
Proof.
  intros Hz. unfold Number_toString.
  destruct (Z.ltb_spec (Z.abs z) (10 ^ 21)) as [_|H]; [|lia].
  destruct (decimal_shape (Z.abs_N z)) as [d [ds [Hdec [Hd Hds]]]].
  destruct (digit_plain d Hd) as [Hws [Hminus Hplus]].
  pose proof (decimal_value (Z.abs_N z)) as Hval.
  assert (takeDigits (d :: ds) = d :: ds) as Htake.
  { apply takeDigits_all. cbn [forallb]. rewrite Hd, Hds. reflexivity. }
  destruct (Z.ltb_spec z 0) as [Hneg|Hpos]; unfold parseInt; rewrite Hdec.
  - cbn [trimStart]. change (isWhiteSpace 45%N) with false. cbn iota.
    rewrite N.eqb_refl. cbn [snd fst]. rewrite Htake.
    rewrite <- Hdec, Hval. f_equal. lia.
  - cbn [trimStart]. rewrite Hws, Hminus, Hplus. cbn [snd fst]. rewrite Htake.
    rewrite <- Hdec, Hval. f_equal. lia.
Qed.

(** ** The conversion to the store's format and back *)

Section JsvalueInduction.
Variable P : jsvalue -> Prop.
Hypothesis P_null : P JNull.
Hypothesis P_undefined : P JUndefined.
Hypothesis P_string : forall s, P (JString s).
Hypothesis P_number : forall n, P (JNumber n).
Hypothesis P_boolean : forall b, P (JBoolean b).
Hypothesis P_array : forall elements, Forall P elements -> P (JArray elements).
Hypothesis P_date : forall iso, P (JDate iso).
Hypothesis P_object :
  forall entries, Forall (fun kv => P (snd kv)) entries -> P (JObject entries).

(** Induction on a value, with the hypothesis for every element of an
    array and every entry of an object. *)
Fixpoint jsvalue_induction (v : jsvalue) : P v :=
  match v with
  | JNull => P_null
  | JUndefined => P_undefined
  | JString s => P_string s
  | JNumber n => P_number n
  | JBoolean b => P_boolean b
  | JArray elements =>
      P_array elements
        ((fix all (l : list jsvalue) : Forall P l :=
            match l with
            | [] => Forall_nil P
            | x :: l' => Forall_cons x (jsvalue_induction x) (all l')
            end) elements)
  | JDate iso => P_date iso
  | JObject entries =>
      P_object entries
        ((fix all (l : list (jsstring * jsvalue)) : Forall (fun kv => P (snd kv)) l :=
            match l with
            | [] => Forall_nil _
            | kv :: l' =>
                Forall_cons kv (jsvalue_induction (snd kv)) (all l')
            end) entries)
  end.

End JsvalueInduction.

Section PropertyFacts.

Lemma str_eqb_sym (a b : jsstring) : str_eqb a b = str_eqb b a.
Proof.
  revert b. induction a as [|x a IH]; intros [|y b]; try reflexivity.
  cbn [str_eqb]. rewrite IH, N.eqb_sym. reflexivity.
Qed.

Context {V : Type}.

(** Assigning a key the object does not have appends the entry. *)
Lemma assign_fresh (entries : list (jsstring * V)) (key : jsstring) (v : V) :
  existsb (str_eqb key) (map fst entries) = false ->
  assign entries key v = entries ++ [(key, v)].
Proof.
  induction entries as [|[k old] rest IH]; [reflexivity|].
  cbn [map fst existsb assign app]. intros H.
  apply orb_false_elim in H. destruct H as [Hk Hrest].
  rewrite str_eqb_sym, Hk, IH by exact Hrest. reflexivity.
Qed.

(** Filling an object entry by entry, as both converters do, from
    entries with distinct keys none of which is [__proto__]. *)
Lemma fill_entries {U : Type} (g : U -> V) (source : list (jsstring * U)) :
  forall target : list (jsstring * V),
    distinct (map fst source) = true ->
    existsb (str_eqb (lit "__proto__")) (map fst source) = false ->
    (forall k, In k (map fst source) ->
               existsb (str_eqb k) (map fst target) = false) ->
    fold_left (fun fields kv => setProp fields (fst kv) (g (snd kv))) source target
    = target ++ map (fun kv => (fst kv, g (snd kv))) source.
Proof.
  induction source as [|[k u] source IH]; intros target Hd Hp Hfresh.
  - cbn. rewrite app_nil_r. reflexivity.
  - cbn [map fst distinct existsb] in Hd, Hp.
    apply andb_prop in Hd. destruct Hd as [Hk Hd].
    apply negb_true_iff in Hk.
    apply orb_false_elim in Hp. destruct Hp as [Hpk Hp].
    cbn [fold_left fst snd]. unfold setProp at 2.
    rewrite str_eqb_sym, Hpk.
    rewrite assign_fresh by (apply Hfresh; left; reflexivity).
    rewrite IH; [cbn [map fst snd]; rewrite <- app_assoc; reflexivity
                | exact Hd | exact Hp |].
    intros k' Hk'. rewrite map_app, existsb_app. cbn [map fst existsb].
    rewrite (Hfresh k') by (right; exact Hk').
    rewrite orb_false_r. cbn [orb].
    destruct (str_eqb k' k) eqn:E; [|reflexivity].
    rewrite <- Hk. symmetry. apply existsb_exists.
    exists k'. split; [exact Hk' | rewrite str_eqb_sym; exact E].
Qed.

Lemma fill_empty {U : Type} (g : U -> V) (source : list (jsstring * U)) :
  distinct (map fst source) = true ->
  existsb (str_eqb (lit "__proto__")) (map fst source) = false ->
  fold_left (fun fields kv => setProp fields (fst kv) (g (snd kv))) source []
  = map (fun kv => (fst kv, g (snd kv))) source.
Proof.
  intros Hd Hp. apply (fill_entries g source [] Hd Hp). reflexivity.
Qed.

End PropertyFacts.

Section RoundTrip.
Import SHNLiteCanvas.

Lemma safe_below_exponent (z : Z) :
  isSafeInteger z = true -> (Z.abs z < 10 ^ 21)%Z.
Proof.
  unfold isSafeInteger. intros H. apply andb_prop in H.
  destruct H as [H1 H2]. apply Z.leb_le in H1, H2.
  assert (2 ^ 53 - 1 < 10 ^ 21)%Z by reflexivity. lia.
Qed.

(** C1 as stated fails: an object whose [_serverTimestamp] entry is
    truthy is a map of booleans, and it comes back as a date. *)
Lemma sentinel_comes_back_as_date :
  let now := lit "2026-01-01T00:00:00.000Z" in
  let v := JObject [(lit "_serverTimestamp", JBoolean true)] in
  plain (JBoolean true) = true
  /\ convertFromFirestoreValue (convertToFirestoreValue now v) = JDate now
  /\ JDate now <> v.
Proof.
  repeat split. discriminate.
Qed.

(** C1, amended: for every native value built from strings, safe
    integers, numbers that are not integers, booleans, [null], arrays and
    objects of such values, in which no object holds a truthy
    [_serverTimestamp] entry (that is the timestamp sentinel, converted
    to a date on purpose) or the key [__proto__], converting to the
    store's format and back gives the value again.  Both converters
    return on every value. *)
Theorem firestore_roundtrip (now : jsstring) (v : jsvalue) :
  plain v = true ->
  convertFromFirestoreValue (convertToFirestoreValue now v) = v.
Proof.
  induction v as [| |s|n|b|elements IH|iso|entries IH] using jsvalue_induction;
    intros Hv; try reflexivity; try discriminate.
  - destruct n as [z| | |]; try reflexivity.
    cbn [plain] in Hv. cbn [convertToFirestoreValue convertFromFirestoreValue].
    rewrite parseInt_Number_toString by (apply safe_below_exponent; exact Hv).
    reflexivity.
  - cbn [convertToFirestoreValue convertFromFirestoreValue]. f_equal.
    cbn [plain] in Hv. rewrite map_map.
    induction IH as [|x l Hx _ IHl]; [reflexivity|].
    cbn [forallb] in Hv. apply andb_prop in Hv. destruct Hv as [Hvx Hvl].
    cbn [map]. rewrite (Hx Hvx), (IHl Hvl). reflexivity.
  - cbn [plain] in Hv.
    apply andb_prop in Hv. destruct Hv as [Hv Hall].
    apply andb_prop in Hv. destruct Hv as [Hv Hts].
    apply andb_prop in Hv. destruct Hv as [Hd Hp].
    apply negb_true_iff in Hts, Hp.
    cbn [convertToFirestoreValue]. rewrite Hts.
    rewrite (fill_empty (convertToFirestoreValue now) entries Hd Hp).
    cbn [convertFromFirestoreValue].
    rewrite fill_empty; rewrite ?map_map; cbn [fst]; [|exact Hd | exact Hp].
    f_equal. cbn [snd]. clear Hd Hp Hts.
    induction IH as [|[k x] l Hx _ IHl]; [reflexivity|].
    cbn [forallb snd] in Hall. apply andb_prop in Hall.
    destruct Hall as [Hvx Hvl]. cbn [snd] in Hx.
    cbn [map fst snd]. rewrite (Hx Hvx), (IHl Hvl). reflexivity.
Qed.

Lemma firestore_roundtrip_witness :
  let v := JObject [(lit "title", JString (lit "a"));
                    (lit "turns", JArray [JNumber (NumInt 3); JNull;
                                          JNumber (NumFrac 3 1)]);
                    (lit "meta", JObject [(lit "done", JBoolean false)])] in
  convertFromFirestoreValue (convertToFirestoreValue (lit "now") v) = v.
Proof.
  apply firestore_roundtrip. reflexivity.
Defined.

End RoundTrip.

(** ** More on trimming *)

Section TrimAlgebra.

Lemma trimStart_idempotent (s : jsstring) : trimStart (trimStart s) = trimStart s.
Proof.
  induction s as [|c s IH]; [reflexivity|]. cbn [trimStart].
  destruct (isWhiteSpace c) eqn:E; [exact IH|]. cbn [trimStart]. rewrite E.
  reflexivity.
Qed.

Lemma trimStart_snoc (a : jsstring) (c : codeUnit) :
  trimStart (a ++ [c])
  = match trimStart a with
    | [] => if isWhiteSpace c then [] else [c]
    | t => t ++ [c]
    end.
Proof.
  induction a as [|x a IH]; [reflexivity|]. cbn [app trimStart].
  destruct (isWhiteSpace x); [exact IH | reflexivity].
Qed.

Lemma trimEnd_cons_drop (c : codeUnit) (x : jsstring) :
  trimEnd x = [] -> isWhiteSpace c = true -> trimEnd (c :: x) = [].
Proof.
  unfold trimEnd. intros Hx Hc. cbn [rev]. rewrite trimStart_snoc.
  destruct (trimStart (rev x)) as [|y t].
  - rewrite Hc. reflexivity.
  - cbn [rev] in Hx. destruct (rev t); discriminate.
Qed.

Lemma trimEnd_cons_keep (c : codeUnit) (x : jsstring) :
  trimEnd x <> [] \/ isWhiteSpace c = false -> trimEnd (c :: x) = c :: trimEnd x.
Proof.
  unfold trimEnd. intros H. cbn [rev]. rewrite trimStart_snoc.
  destruct (trimStart (rev x)) as [|y t].
  - destruct H as [H|H]; [contradiction H; reflexivity|]. rewrite H. reflexivity.
  - rewrite rev_app_distr. reflexivity.
Qed.

Lemma trimEnd_cons_cases (c : codeUnit) (x : jsstring) :
  (trimEnd (c :: x) = [] /\ trimEnd x = [] /\ isWhiteSpace c = true)
  \/ trimEnd (c :: x) = c :: trimEnd x.
Proof.
  destruct (trimEnd x) as [|y t] eqn:Ex.
  - destruct (isWhiteSpace c) eqn:Ec.
    + left. split; [apply trimEnd_cons_drop; assumption | tauto].
    + right. rewrite trimEnd_cons_keep by (right; exact Ec). rewrite Ex. reflexivity.
  - right. rewrite trimEnd_cons_keep by (left; rewrite Ex; discriminate).
    rewrite Ex. reflexivity.
Qed.

Lemma trimEnd_idempotent (s : jsstring) : trimEnd (trimEnd s) = trimEnd s.
Proof.
  unfold trimEnd. rewrite rev_involutive, trimStart_idempotent. reflexivity.
Qed.

(** The end of a string whose head is not white space is trimmed behind
    the head. *)
Lemma trimStart_trimEnd (s : jsstring) :
  trimStart s = s -> trimStart (trimEnd s) = trimEnd s.
Proof.
  destruct s as [|c s]; [reflexivity|]. cbn [trimStart].
  destruct (isWhiteSpace c) eqn:Ec.
  - intros H. exfalso.
    assert (List.length (trimStart s) <= List.length s) as Hle.
    { clear. induction s as [|x s IH]; [apply le_n|]. cbn [trimStart].
      destruct (isWhiteSpace x); cbn [List.length]; lia. }
    rewrite H in Hle. cbn [List.length] in Hle. lia.
  - intros _. rewrite trimEnd_cons_keep by (right; exact Ec).
    cbn [trimStart]. rewrite Ec. reflexivity.
Qed.

Lemma trim_idempotent (s : jsstring) : trim (trim s) = trim s.
Proof.
  unfold trim.
  rewrite (trimStart_trimEnd (trimStart s)) by apply trimStart_idempotent.
  apply trimEnd_idempotent.
Qed.

End TrimAlgebra.

(** ** The pattern of [callLLM] *)

Section FenceFacts.
Import SHNCanvas.

Lemma starGreedy_ext {A} (p : codeUnit -> bool) (k1 k2 : jsstring -> option A) :
  (forall s, k1 s = k2 s) -> forall s, starGreedy p s k1 = starGreedy p s k2.
Proof.
  intros H. induction s as [|c s IH]; cbn [starGreedy]; [apply H|].
  rewrite IH, H. reflexivity.
Qed.

Lemma starLazy_ext {A} (p : codeUnit -> bool) (k1 k2 : jsstring -> option A) :
  (forall s, k1 s = k2 s) -> forall s, starLazy p s k1 = starLazy p s k2.
Proof.
  intros H. induction s as [|c s IH]; cbn [starLazy]; rewrite H; [reflexivity|].
  rewrite IH. reflexivity.
Qed.

Lemma white_space_no_fence (x : codeUnit) (s : jsstring) :
  isWhiteSpace x = true -> startsWith (x :: s) fence = false.
Proof.
  intros H. cbn [fence startsWith].
  destruct (N.eqb_spec backtick x) as [<-|_]; [discriminate H | reflexivity].
Qed.

Lemma fence_no_white_space (x : codeUnit) (s : jsstring) :
  startsWith (x :: s) fence = true -> isWhiteSpace x = false.
Proof.
  intros H. destruct (isWhiteSpace x) eqn:E; [|reflexivity].
  rewrite white_space_no_fence in H by exact E. discriminate.
Qed.

(** [\s*```] at the end of the pattern: the fence has to follow the white
    space at the head of the input. *)
Lemma closing_fence (s : jsstring) (cap : option jsstring) :
  starGreedy isWhiteSpace s
    (fun s2 => matchRe (Seq (Str fence) Eps) s2 cap (fun _ c => Some c))
  = if startsWith (trimStart s) fence then Some cap else None.
Proof.
  induction s as [|x s IH]; [reflexivity|].
  cbn [starGreedy trimStart].
  destruct (isWhiteSpace x) eqn:E.
  - rewrite IH. cbn [matchRe]. rewrite matchRe_Str.
    rewrite white_space_no_fence by exact E.
    destruct (startsWith (trimStart s) fence); reflexivity.
  - cbn [matchRe]. rewrite matchRe_Str.
    destruct (startsWith (x :: s) fence); reflexivity.
Qed.

(** [([\s\S]*?)] before it: the lazy group stops at the first place
    where the rest of the pattern matches. *)
Lemma lazy_group (s1 : jsstring) :
  forall whole done,
    whole = done ++ s1 ->
    starLazy (fun _ => true) s1
      (fun s2 =>
         if startsWith (trimStart s2) fence
         then Some (Some (firstn (List.length whole - List.length s2) whole))
         else None)
    = option_map (fun g => Some (done ++ g)) (closeAt s1).
Proof.
  induction s1 as [|c s1 IH]; intros whole done ->; cbn [starLazy closeAt].
  - cbn [trimStart startsWith fence]. reflexivity.
  - destruct (startsWith (trimStart (c :: s1)) fence).
    + cbn [option_map]. rewrite length_app, Nat.add_sub, firstn_app, Nat.sub_diag.
      rewrite firstn_all, app_nil_r. cbn [firstn]. rewrite app_nil_r. reflexivity.
    + rewrite (IH (done ++ c :: s1) (done ++ [c]))
        by (rewrite <- app_assoc; reflexivity).
      destruct (closeAt s1); cbn [option_map]; [|reflexivity].
      rewrite <- app_assoc. reflexivity.
Qed.

Lemma closeAt_unfold (s : jsstring) :
  closeAt s
  = if startsWith (trimStart s) fence then Some []
    else match s with
         | [] => None
         | c :: s' => option_map (cons c) (closeAt s')
         end.
Proof.
  destruct s; reflexivity.
Qed.

Lemma closeAt_trimStart_none (s : jsstring) :
  closeAt (trimStart s) = None -> closeAt s = None.
Proof.
  induction s as [|x s IH]; [tauto|]. cbn [trimStart].
  destruct (isWhiteSpace x) eqn:E; [|tauto].
  intros H. cbn [closeAt trimStart]. rewrite E.
  destruct (startsWith (trimStart s) fence) eqn:Es.
  - rewrite closeAt_unfold, trimStart_idempotent, Es in H. discriminate.
  - rewrite IH by exact H. reflexivity.
Qed.

(** [\s*] in front of the group takes all the white space there is. *)
Lemma leading_white_space (s : jsstring) :
  starGreedy isWhiteSpace s (fun s' => option_map Some (closeAt s'))
  = option_map Some (closeAt (trimStart s)).
Proof.
  induction s as [|x s IH]; [reflexivity|].
  cbn [starGreedy trimStart].
  destruct (isWhiteSpace x) eqn:E; [|reflexivity].
  rewrite IH.
  destruct (closeAt (trimStart s)) eqn:Ec; [reflexivity|].
  cbn [option_map].
  rewrite (closeAt_trimStart_none (x :: s))
    by (cbn [trimStart]; rewrite E; exact Ec).
  reflexivity.
Qed.

Lemma tailRe_match (s : jsstring) (cap : option jsstring) :
  matchRe tailRe s cap (fun _ c => Some c)
  = option_map Some (closeAt (trimStart s)).
Proof.
  unfold tailRe. cbn [Seqs matchRe].
  rewrite <- (leading_white_space s).
  apply starGreedy_ext. intros s'.
  rewrite (starLazy_ext _ _
             (fun s2 =>
                if startsWith (trimStart s2) fence
                then Some (Some (firstn (List.length s' - List.length s2) s'))
                else None))
    by (intros s2; apply closing_fence).
  rewrite (lazy_group s' s' [] eq_refl).
  destruct (closeAt s'); reflexivity.
Qed.

Lemma cut_unfold (pat s : jsstring) :
  cut pat s
  = if startsWith s pat then Some ([], skipn (List.length pat) s)
    else match s with
         | [] => None
         | c :: s' =>
             match cut pat s' with
             | Some (before, after) => Some (c :: before, after)
             | None => None
             end
         end.
Proof.
  destruct s; reflexivity.
Qed.

Lemma startsWith_split (s p : jsstring) :
  startsWith s p = true -> s = p ++ skipn (List.length p) s.
Proof.
  revert s. induction p as [|c p IH]; intros s H; [reflexivity|].
  destruct s as [|x s]; [discriminate|]. cbn [startsWith] in H.
  apply andb_prop in H. destruct H as [Hc Hp]. apply N.eqb_eq in Hc. subst x.
  cbn [List.length skipn app]. f_equal. apply IH. exact Hp.
Qed.

(** What [cut] answers is a split of the text at an occurrence of the
    pattern. *)
Lemma cut_split (pat s before after : jsstring) :
  cut pat s = Some (before, after) -> s = before ++ pat ++ after.
Proof.
  revert before after. induction s as [|c s IH]; intros before after;
    rewrite cut_unfold.
  - destruct (startsWith [] pat) eqn:E; [|discriminate].
    intros H. injection H as <- <-. apply (startsWith_split [] pat E).
  - destruct (startsWith (c :: s) pat) eqn:E.
    + intros H. injection H as <- <-. apply (startsWith_split (c :: s) pat E).
    + destruct (cut pat s) as [[b a]|]; [|discriminate].
      intros H. injection H as <- <-. cbn [app]. f_equal. apply IH. reflexivity.
Qed.

(** And the occurrence is the first: the pattern starts nowhere inside
    what stands before it. *)
Lemma cut_first (pat s before after : jsstring) :
  cut pat s = Some (before, after) ->
  forall b1 c b2, before = b1 ++ c :: b2 ->
    startsWith (c :: b2 ++ pat ++ after) pat = false.
Proof.
  revert before after. induction s as [|x s IH]; intros before after;
    rewrite cut_unfold.
  - destruct (startsWith [] pat); [|discriminate].
    intros H. injection H as <- <-. intros [|y b1] c b2 Hb; discriminate.
  - destruct (startsWith (x :: s) pat) eqn:E.
    + intros H. injection H as <- <-. intros [|y b1] c b2 Hb; discriminate.
    + destruct (cut pat s) as [[b a]|] eqn:Ec; [|discriminate].
      intros H. injection H as <- <-. intros b1 c b2 Hb.
      destruct b1 as [|y b1]; cbn [app] in Hb; injection Hb as -> ->.
      * rewrite <- (cut_split pat s _ _ Ec). exact E.
      * apply (IH _ _ eq_refl b1 c b2 eq_refl).
Qed.

Lemma cut_none_skipn (pat : jsstring) (n : nat) :
  pat <> [] -> forall s, cut pat s = None -> cut pat (skipn n s) = None.
Proof.
  intros Hp. induction n as [|n IH]; intros s H; [exact H|].
  destruct s as [|c s]; [exact H|]. cbn [skipn]. apply IH.
  rewrite cut_unfold in H.
  destruct (startsWith (c :: s) pat); [discriminate|].
  destruct (cut pat s) as [[b a]|]; [discriminate | reflexivity].
Qed.

(** White space in front of a fence, seen from [cut]. *)
Lemma fence_after_blank (s : jsstring) :
  startsWith (trimStart s) fence
  = match cut fence s with
    | Some (inner, _) => negb (truthyStr (trimEnd inner))
    | None => false
    end.
Proof.
  induction s as [|x s IH]; [reflexivity|].
  rewrite cut_unfold.
  destruct (startsWith (x :: s) fence) eqn:E.
  - cbn [trimStart]. rewrite (fence_no_white_space x s E). exact E.
  - cbn [trimStart]. destruct (isWhiteSpace x) eqn:Ex.
    + rewrite IH. destruct (cut fence s) as [[inner after]|]; [|reflexivity].
      destruct (trimEnd_cons_cases x inner) as [[H1 [H2 _]]|H1]; rewrite H1.
      * rewrite H2. reflexivity.
      * destruct (trimEnd inner) eqn:Ei; [|reflexivity].
        rewrite (trimEnd_cons_drop x inner Ei Ex) in H1. discriminate.
    + rewrite E. destruct (cut fence s) as [[inner after]|]; [|reflexivity].
      rewrite trimEnd_cons_keep by (right; exact Ex). reflexivity.
Qed.

(** The lazy group ends where the text before the next fence ends, its
    trailing white space taken off. *)
Lemma closeAt_cut (s : jsstring) :
  closeAt s = option_map (fun p => trimEnd (fst p)) (cut fence s).
Proof.
  induction s as [|x s IH]; [reflexivity|].
  rewrite closeAt_unfold, fence_after_blank, cut_unfold.
  destruct (startsWith (x :: s) fence) eqn:E; [reflexivity|].
  rewrite IH.
  destruct (cut fence s) as [[inner after]|]; [|reflexivity].
  cbn [option_map fst].
  destruct (trimEnd_cons_cases x inner) as [[H1 _]|H1]; rewrite H1; reflexivity.
Qed.

Lemma cut_trimStart (s : jsstring) :
  cut fence (trimStart s)
  = option_map (fun p => (trimStart (fst p), snd p)) (cut fence s).
Proof.
  induction s as [|x s IH]; [reflexivity|].
  cbn [trimStart]. destruct (isWhiteSpace x) eqn:Ex.
  - rewrite IH, (cut_unfold fence (x :: s)).
    rewrite white_space_no_fence by exact Ex.
    destruct (cut fence s) as [[inner after]|]; [|reflexivity].
    cbn [option_map fst snd trimStart]. rewrite Ex. reflexivity.
  - rewrite (cut_unfold fence (x :: s)).
    destruct (startsWith (x :: s) fence); [reflexivity|].
    destruct (cut fence s) as [[inner after]|]; [|reflexivity].
    cbn [option_map fst snd trimStart]. rewrite Ex. reflexivity.
Qed.

(** The capture after the opening fence: the text up to the next fence,
    trimmed. *)
Lemma tail_capture (s : jsstring) :
  closeAt (trimStart s) = option_map (fun p => trim (fst p)) (cut fence s).
Proof.
  rewrite closeAt_cut, cut_trimStart.
  destruct (cut fence s) as [[inner after]|]; reflexivity.
Qed.

Lemma cut_after_json (s : jsstring) :
  cut fence (lit "json" ++ s)
  = option_map (fun p => (lit "json" ++ fst p, snd p)) (cut fence s).
Proof.
  change (lit "json") with [106; 115; 111; 110]%N. cbn [app].
  rewrite 4 cut_unfold. cbn [startsWith fence backtick N.eqb Pos.eqb andb].
  destruct (cut fence s) as [[inner after]|]; reflexivity.
Qed.

Lemma cut_withoutJson_none (s : jsstring) :
  cut fence (withoutJson s) = None <-> cut fence s = None.
Proof.
  unfold withoutJson. destruct (startsWith s (lit "json")) eqn:E; [|tauto].
  split.
  - intros H. rewrite (startsWith_split s (lit "json") E), cut_after_json.
    change (List.length (lit "json")) with 4. rewrite H. reflexivity.
  - apply cut_none_skipn. discriminate.
Qed.

Lemma capture_none (s : jsstring) : capture s = None <-> cut fence s = None.
Proof.
  unfold capture. rewrite <- cut_withoutJson_none.
  destruct (cut fence (withoutJson s)); cbn [option_map]; split; congruence.
Qed.

(** The pattern behind the opening fence: the optional tag, then the
    tail. *)
Lemma after_fence (s : jsstring) :
  matchRe (Seq (Opt (Str (lit "json"))) tailRe) s None (fun _ c => Some c)
  = option_map Some (capture s).
Proof.
  unfold Opt. cbn [matchRe]. rewrite matchRe_Str, !tailRe_match, !tail_capture.
  unfold capture, withoutJson.
  destruct (startsWith s (lit "json")) eqn:E; [|reflexivity].
  change (List.length (lit "json")) with 4.
  destruct (cut fence (skipn 4 s)) as [p|] eqn:Ec; [reflexivity|].
  cbn [option_map].
  rewrite (startsWith_split s (lit "json") E), cut_after_json.
  change (List.length (lit "json")) with 4. rewrite Ec. reflexivity.
Qed.

(** The whole pattern, anchored. *)
Lemma codeBlock_here (s : jsstring) :
  matchHere codeBlockRe s
  = if startsWith s fence then option_map Some (capture (skipn 3 s)) else None.
Proof.
  unfold matchHere, codeBlockRe.
  change (Seqs [Str fence; Opt (Str (lit "json")); Star isWhiteSpace;
                Group (LazyStar (fun _ => true)); Star isWhiteSpace; Str fence])
    with (Seq (Str fence) (Seq (Opt (Str (lit "json"))) tailRe)).
  cbn [matchRe]. rewrite matchRe_Str.
  destruct (startsWith s fence); [|reflexivity].
  apply after_fence.
Qed.

(** The leftmost match starts at the first fence of the text. *)
Lemma codeBlock_first (s : jsstring) :
  matchFirst codeBlockRe s
  = match cut fence s with
    | Some (_, opened) => option_map Some (capture opened)
    | None => None
    end.
Proof.
  induction s as [|c s IH].
  - reflexivity.
  - cbn [matchFirst]. rewrite codeBlock_here, (cut_unfold fence (c :: s)).
    destruct (startsWith (c :: s) fence) eqn:E.
    + change (List.length fence) with 3.
      destruct (capture (skipn 3 (c :: s))) as [g|] eqn:Ecap; [reflexivity|].
      cbn [option_map]. rewrite IH.
      destruct (cut fence s) as [[before opened]|] eqn:Ecut; [|reflexivity].
      apply capture_none in Ecap.
      assert (capture opened = None) as ->; [|reflexivity].
      apply capture_none.
      assert (opened = skipn (List.length before + 1) (skipn 3 (c :: s))) as ->.
      { change (skipn 3 (c :: s)) with (skipn 2 s). rewrite skipn_skipn.
        rewrite (cut_split fence s before opened Ecut).
        replace (List.length before + 1 + 2) with (List.length before + 3) by lia.
        rewrite skipn_app, skipn_all2 by lia.
        replace (List.length before + 3 - List.length before) with 3 by lia.
        reflexivity. }
      apply cut_none_skipn; [discriminate | exact Ecap].
    + rewrite IH. destruct (cut fence s) as [[before opened]|]; reflexivity.
Qed.

Lemma startsWith_app_true (a b p : jsstring) :
  startsWith a p = true -> startsWith (a ++ b) p = true.
Proof.
  revert a. induction p as [|c p IH]; intros a H; [destruct (a ++ b); reflexivity|].
  destruct a as [|x a]; [discriminate|]. cbn [app startsWith] in *.
  apply andb_prop in H. destruct H as [Hc Hp]. rewrite Hc, (IH a Hp). reflexivity.
Qed.

(** The next fence of a text is its next fence behind a leading [json]. *)
Lemma cut_withoutJson (s : jsstring) :
  cut fence (withoutJson s)
  = option_map (fun p => (withoutJson (fst p), snd p)) (cut fence s).
Proof.
  unfold withoutJson at 1. destruct (startsWith s (lit "json")) eqn:E.
  - rewrite (startsWith_split s (lit "json") E) at 2. rewrite cut_after_json.
    change (List.length (lit "json")) with 4.
    destruct (cut fence (skipn 4 s)) as [[inner after]|]; reflexivity.
  - destruct (cut fence s) as [[inner after]|] eqn:Ec; [|reflexivity].
    cbn [option_map fst snd]. unfold withoutJson.
    destruct (startsWith inner (lit "json")) eqn:Ei; [|reflexivity].
    rewrite (cut_split fence s inner after Ec) in E.
    rewrite (startsWith_app_true inner (fence ++ after) (lit "json") Ei) in E.
    discriminate.
Qed.

(** The end of [callLLM] by the interior of the first fenced block. *)
Lemma stripCodeBlock_fenced (resultText : jsstring) :
  stripCodeBlock resultText
  = Ok (trim (match fenceInterior resultText with
              | Some interior => withoutJson interior
              | None => resultText
              end)).
Proof.
  unfold stripCodeBlock, fenceInterior. rewrite codeBlock_first.
  destruct (cut fence resultText) as [[before opened]|]; [|reflexivity].
  unfold capture. rewrite cut_withoutJson.
  destruct (cut fence opened) as [[interior after]|]; [|reflexivity].
  cbn [option_map fst]. rewrite trim_idempotent. reflexivity.
Qed.

(** What [fenceInterior] answers is the text between two fences: the
    first fence of the text and the first fence behind it. *)
Lemma fenceInterior_split (s interior : jsstring) :
  fenceInterior s = Some interior ->
  exists before after,
    s = before ++ fence ++ interior ++ fence ++ after
    /\ cut fence s = Some (before, interior ++ fence ++ after)
    /\ cut fence (interior ++ fence ++ after) = Some (interior, after).
Proof.
  unfold fenceInterior.
  destruct (cut fence s) as [[before opened]|] eqn:E1; [|discriminate].
  destruct (cut fence opened) as [[interior' after]|] eqn:E2; [|discriminate].
  intros H. injection H as ->.
  pose proof (cut_split _ _ _ _ E1) as H1.
  pose proof (cut_split _ _ _ _ E2) as H2.
  exists before, after. rewrite <- H2. repeat split; assumption.
Qed.

(** C4 as stated fails: for a response whose text is a block fenced with
    the tag [json5], [callLLM] returns neither the interior of the fence,
    trimmed, nor the lines behind the tag: the pattern takes the four
    letters [json] off the interior and leaves the [5]. *)
Lemma callLLM_keeps_the_rest_of_the_tag :
  let returned :=
    snd (callLLM (lit "key") (fun _ => Responded (answerWith json5Block))
           (lit "data") (lit "Refine.")) in
  fenceInterior json5Block
  = Some (lit "json5" ++ [newline] ++ lit "{a:1}" ++ [newline])
  /\ returned = Ok (lit "5" ++ [newline] ++ lit "{a:1}")
  /\ returned <> Ok (trim (lit "json5" ++ [newline] ++ lit "{a:1}" ++ [newline]))
  /\ returned <> Ok (lit "{a:1}").
Proof.
  repeat split; try reflexivity; discriminate.
Qed.

(** C4, amended: for every successful response, when the response text
    holds a fence and a later fence behind it, the text-mode [callLLM]
    returns the text between the first fence and the next one, without
    the four letters [json] when it begins with them (whatever follows
    them), trimmed; when the text holds no such pair of fences, it
    returns the whole text, trimmed. *)
Theorem callLLM_returns_fenced_interior
    (key : jsstring) (respond : jsstring -> fetched llmResponse)
    (userMessage systemPrompt : jsstring)
    (response : llmResponse) (data : generation) (c : content)
    (others : list candidate) :
  truthyStr key = true ->
  respond (fullPrompt systemPrompt userMessage) = Responded response ->
  ok (llm_status response) = true ->
  llm_json response = Some data ->
  candidates data = Some ({| candidate_content := Some c |} :: others) ->
  let resultText :=
    concat (map (fun p => orElse (text p) [])
                (match parts c with Some ps => ps | None => [] end)) in
  snd (callLLM key respond userMessage systemPrompt)
  = Ok (trim (match fenceInterior resultText with
              | Some interior => withoutJson interior
              | None => resultText
              end)).
Proof.
  intros Hkey Hfetch Hok Hjson Hcand resultText.
  unfold callLLM. rewrite Hkey. cbn [negb snd].
  rewrite Hfetch, Hok, Hjson, Hcand. cbn [negb].
  apply stripCodeBlock_fenced.
Qed.

Lemma callLLM_returns_fenced_interior_witness :
  snd (callLLM (lit "key") (sampleFetch 0) (lit "data") (lit "Refine."))
  = Ok (lit "{}").
Proof.
  exact (callLLM_returns_fenced_interior (lit "key") (sampleFetch 0) (lit "data")
           (lit "Refine.") sampleAnswer
           {| candidates :=
                Some [{| candidate_content :=
                           Some {| parts :=
                                     Some [{| text := Some (fence ++ lit "json"
                                                              ++ [newline] ++ lit "{}"
                                                              ++ [newline] ++ fence) |}] |} |}] |}
           {| parts := Some [{| text := Some (fence ++ lit "json" ++ [newline]
                                                ++ lit "{}" ++ [newline] ++ fence) |}] |}
           [] eq_refl eq_refl eq_refl eq_refl eq_refl).
Defined.

End FenceFacts.

(* ================================================================== *)
(** * Part III: further properties of the two bundles                  *)
(* ================================================================== *)

(** ** [sanitizeFilename] *)

Section SanitizeFacts.
Import SHNCanvas.
Variable String_ : jsvalue -> jsstring.

Lemma replaceClass_units (p : codeUnit -> bool) (by_ s : jsstring) (c : codeUnit) :
  In c (replaceClass p by_ s) -> In c by_ \/ (In c s /\ p c = false).
Proof.
  unfold replaceClass. intros H. apply in_flat_map in H.
  destruct H as [x [Hx Hc]]. destruct (p x) eqn:Hp.
  - left. exact Hc.
  - right. destruct Hc as [<- | []]. split; assumption.
Qed.

Lemma replaceRuns_units (p : codeUnit -> bool) (by_ s : jsstring) (c : codeUnit) :
  forall inRun,
    In c (replaceRuns p by_ inRun s) -> In c by_ \/ (In c s /\ p c = false).
Proof.
  induction s as [|x s IH]; intros inRun H; cbn in H.
  - contradiction.
  - destruct (p x) eqn:Hp.
    + apply in_app_or in H. destruct H as [H | H].
      * destruct inRun; [contradiction | left; exact H].
      * destruct (IH _ H) as [Hb | [Hs Hc]]; [left; exact Hb | right; split; [right; exact Hs | exact Hc]].
    + destruct H as [<- | H].
      * right. split; [left; reflexivity | exact Hp].
      * destruct (IH _ H) as [Hb | [Hs Hc]]; [left; exact Hb | right; split; [right; exact Hs | exact Hc]].
Qed.

Lemma replaceClass_clean (p : codeUnit -> bool) (by_ s : jsstring) :
  (forall c, In c s -> p c = false) -> replaceClass p by_ s = s.
Proof.
  unfold replaceClass. induction s as [|x s IH]; intros H; cbn.
  - reflexivity.
  - rewrite (H x (or_introl eq_refl)). cbn. f_equal. apply IH.
    intros c Hc. apply H. right. exact Hc.
Qed.

Lemma replaceRuns_clean (p : codeUnit -> bool) (by_ s : jsstring) :
  (forall c, In c s -> p c = false) ->
  forall inRun, replaceRuns p by_ inRun s = s.
Proof.
  induction s as [|x s IH]; intros H inRun; cbn.
  - reflexivity.
  - rewrite (H x (or_introl eq_refl)). f_equal. apply IH.
    intros c Hc. apply H. right. exact Hc.
Qed.

Lemma firstn_units (n : nat) (s : jsstring) (c : codeUnit) :
  In c (firstn n s) -> In c s.
Proof.
  intros H. rewrite <- (firstn_skipn n s). apply in_or_app. left. exact H.
Qed.

(** The code units of a file name [sanitizeFilename] made. *)
Lemma sanitized_units (name : jsvalue) (c : codeUnit) :
  In c (sanitizeFilename String_ name) ->
  isReservedChar c = false /\ isWhiteSpace c = false.
Proof.
  unfold sanitizeFilename. intros H. apply firstn_units in H.
  apply replaceRuns_units in H. destruct H as [H | [H Hw]].
  - destruct H as [<- | []]. split; reflexivity.
  - split; [|exact Hw]. apply replaceClass_units in H.
    destruct H as [H | [_ H]]; [|exact H].
    destruct H as [<- | []]. reflexivity.
Qed.

Lemma sanitizeFilename_clean (s : jsstring) :
  List.length s <= 50 ->
  (forall c, In c s -> isReservedChar c = false /\ isWhiteSpace c = false) ->
  sanitizeFilename String_ (JString s) = s.
Proof.
  intros Hlen Hclean. unfold sanitizeFilename.
  rewrite replaceClass_clean by (intros c Hc; apply (Hclean c Hc)).
  rewrite replaceRuns_clean by (intros c Hc; apply (Hclean c Hc)).
  apply firstn_all2. exact Hlen.
Qed.

(** X1: a file name [sanitizeFilename] made has at most 50 code units,
    and none of them is one of the nine reserved characters or white
    space, whatever the name given was. *)
Theorem sanitizeFilename_safe (name : jsvalue) :
  let out := sanitizeFilename String_ name in
  List.length out <= 50
  /\ forall c, In c out -> isReservedChar c = false /\ isWhiteSpace c = false.
Proof.
  cbn zeta. split.
  - unfold sanitizeFilename. apply firstn_le_length.
  - intros c. apply sanitized_units.
Qed.

(** X2: [sanitizeFilename] is idempotent: a name it made is given back
    unchanged, so is every name of at most 50 code units without a
    reserved character and without white space. *)
Theorem sanitizeFilename_idempotent :
  (forall name : jsvalue,
      sanitizeFilename String_ (JString (sanitizeFilename String_ name))
      = sanitizeFilename String_ name)
  /\ (forall s : jsstring,
        List.length s <= 50 ->
        (forall c, In c s -> isReservedChar c = false /\ isWhiteSpace c = false) ->
        sanitizeFilename String_ (JString s) = s).
Proof.
  split.
  - intros name. apply sanitizeFilename_clean.
    + unfold sanitizeFilename. apply firstn_le_length.
    + intros c. apply sanitized_units.
  - exact sanitizeFilename_clean.
Qed.

End SanitizeFacts.

(** ** [escapeHtml] loses nothing *)

Section EscapeHtmlLossless.
Local Open Scope N_scope.

Lemma readEntities_unit (c : codeUnit) (rest : jsstring) :
  readEntities 0 (escapeUnit c ++ rest) = c :: readEntities 0 rest.
Proof.
  unfold escapeUnit.
  destruct (N.eqb_spec c 38) as [-> | H38]; [reflexivity|].
  destruct (N.eqb_spec c 60) as [-> | H60]; [reflexivity|].
  destruct (N.eqb_spec c 62) as [-> | H62]; [reflexivity|].
  destruct (N.eqb_spec c 34) as [-> | H34]; [reflexivity|].
  cbn [app readEntities].
  assert (forall p, startsWith (c :: rest) (38 :: p) = false) as Hno.
  { intros p. cbn [startsWith]. destruct (N.eqb_spec 38 c) as [E | _]; [|reflexivity].
    exfalso. apply H38. symmetry. exact E. }
  change (lit "&amp;") with (38 :: lit "amp;").
  change (lit "&lt;") with (38 :: lit "lt;").
  change (lit "&gt;") with (38 :: lit "gt;").
  change (lit "&quot;") with (38 :: lit "quot;").
  rewrite !Hno. reflexivity.
Qed.

Lemma readEntities_escaped (s : jsstring) :
  readEntities 0 (flat_map escapeUnit s) = s.
Proof.
  induction s as [|c s IH]; [reflexivity|].
  cbn [flat_map]. rewrite readEntities_unit, IH. reflexivity.
Qed.

Lemma escapeHtml_string (String_ : jsvalue -> jsstring) (s : jsstring) :
  SHNCanvas.escapeHtml String_ (JString s) = flat_map escapeUnit s.
Proof.
  unfold SHNCanvas.escapeHtml. destruct s as [|c s]; [reflexivity|].
  cbn [truthy truthyStr negb]. apply escape_chain.
Qed.

(** X3: [escapeHtml] loses nothing of a string: two strings with the same
    escaped text are the same string, and a string without ampersand,
    angle bracket and double quote (an apostrophe is not among them) is
    returned as it is. *)
Theorem escapeHtml_lossless (String_ : jsvalue -> jsstring) :
  (forall a b : jsstring,
      SHNCanvas.escapeHtml String_ (JString a) = SHNCanvas.escapeHtml String_ (JString b) ->
      a = b)
  /\ (forall s : jsstring,
        (forall c, In c s -> c <> 38 /\ c <> 60 /\ c <> 62 /\ c <> 34) ->
        SHNCanvas.escapeHtml String_ (JString s) = s).
Proof.
  split.
  - intros a b H. rewrite !escapeHtml_string in H.
    rewrite <- (readEntities_escaped a), <- (readEntities_escaped b), H.
    reflexivity.
  - intros s Hclean. rewrite escapeHtml_string.
    induction s as [|c s IH]; [reflexivity|].
    cbn [flat_map]. rewrite IH by (intros x Hx; apply Hclean; right; exact Hx).
    destruct (Hclean c (or_introl eq_refl)) as [H38 [H60 [H62 H34]]].
    unfold escapeUnit.
    destruct (N.eqb_spec c 38); [contradiction|].
    destruct (N.eqb_spec c 60); [contradiction|].
    destruct (N.eqb_spec c 62); [contradiction|].
    destruct (N.eqb_spec c 34); [contradiction|]. reflexivity.
Qed.

End EscapeHtmlLossless.

(** ** Documents of the store *)

Section EntryFacts.

Lemma str_eqb_refl (a : jsstring) : str_eqb a a = true.
Proof.
  induction a as [|x a IH]; [reflexivity|].
  cbn [str_eqb]. rewrite N.eqb_refl, IH. reflexivity.
Qed.

Lemma str_eqb_eq (a b : jsstring) : str_eqb a b = true -> a = b.
Proof.
  revert b. induction a as [|x a IH]; intros [|y b] H; try discriminate.
  - reflexivity.
  - cbn [str_eqb] in H. apply andb_prop in H. destruct H as [Hx Ha].
    apply N.eqb_eq in Hx. rewrite Hx, (IH b Ha). reflexivity.
Qed.

Context {V : Type}.

Lemma getProp_assign_same (entries : list (jsstring * V)) (key : jsstring) (v : V) :
  getProp (assign entries key v) key = Some v.
Proof.
  induction entries as [|[e old] rest IH]; cbn [assign getProp].
  - rewrite str_eqb_refl. reflexivity.
  - destruct (str_eqb e key) eqn:E; cbn [getProp]; rewrite E; [reflexivity | exact IH].
Qed.

Lemma getProp_assign_other (entries : list (jsstring * V)) (key k : jsstring) (v : V) :
  str_eqb k key = false ->
  getProp (assign entries key v) k = getProp entries k.
Proof.
  intros Hk. induction entries as [|[e old] rest IH]; cbn [assign getProp].
  - rewrite str_eqb_sym, Hk. reflexivity.
  - destruct (str_eqb e key) eqn:E; cbn [getProp].
    + apply str_eqb_eq in E. subst e. rewrite str_eqb_sym, Hk. reflexivity.
    + destruct (str_eqb e k); [reflexivity | exact IH].
Qed.

Lemma getProp_absent (entries : list (jsstring * V)) (key : jsstring) :
  getProp entries key = None -> existsb (str_eqb key) (map fst entries) = false.
Proof.
  induction entries as [|[e old] rest IH]; [reflexivity|].
  cbn [getProp map fst existsb]. rewrite (str_eqb_sym key e).
  destruct (str_eqb e key); [discriminate|]. exact IH.
Qed.

Lemma getProp_map {U : Type} (g : U -> V) (entries : list (jsstring * U))
    (key : jsstring) :
  getProp (map (fun kv => (fst kv, g (snd kv))) entries) key
  = option_map g (getProp entries key).
Proof.
  induction entries as [|[e u] rest IH]; [reflexivity|].
  cbn [map getProp fst snd]. destruct (str_eqb e key); [reflexivity | exact IH].
Qed.

End EntryFacts.

Section DocumentFacts.
Import SHNLiteCanvas.

Lemma lastSegment_no_slash (s : jsstring) :
  forall cur, ~ In 47%N cur -> ~ In 47%N (lastSegment cur s).
Proof.
  induction s as [|c s IH]; intros cur Hcur; cbn [lastSegment].
  - exact Hcur.
  - destruct (N.eqb_spec c 47) as [-> | Hc].
    + apply IH. intros [].
    + apply IH. intros H. apply in_app_or in H.
      destruct H as [H | [H | []]]; [exact (Hcur H) | exact (Hc H)].
Qed.

Lemma lastSegment_suffix (s : jsstring) :
  forall cur,
    exists before,
      cur ++ s = before ++ lastSegment cur s
      /\ (before = [] \/ exists b, before = b ++ [47%N]).
Proof.
  induction s as [|c s IH]; intros cur; cbn [lastSegment].
  - exists []. split; [apply app_nil_r | left; reflexivity].
  - destruct (N.eqb_spec c 47) as [-> | Hc].
    + destruct (IH []) as [before [E Hb]]. cbn [app] in E.
      exists (cur ++ 47%N :: before). split.
      * rewrite <- app_assoc. cbn [app]. rewrite <- E. reflexivity.
      * right. destruct Hb as [-> | [b ->]].
        -- exists cur. reflexivity.
        -- exists (cur ++ 47%N :: b). rewrite <- app_assoc. reflexivity.
    + destruct (IH (cur ++ [c])) as [before [E Hb]].
      exists before. split; [|exact Hb].
      rewrite <- E, <- app_assoc. reflexivity.
Qed.

(** X4: the object [convertFromFirestoreDoc] makes of a document with a
    name has the entry [_id], whatever the fields are (a field [_id] is
    overwritten): it is what follows the last slash of the name, so it
    holds no slash, and the name is a path ending in a slash followed by
    it, or it is the whole name.  Every other entry is as in the object
    made of the same fields without a name. *)
Theorem convertFromFirestoreDoc_id (name : jsstring)
    (fields : list (jsstring * fsvalue)) :
  truthyStr name = true ->
  exists entries bare,
    convertFromFirestoreDoc (Some {| doc_name := Some name; doc_fields := Some fields |})
    = JObject entries
    /\ convertFromFirestoreDoc (Some {| doc_name := None; doc_fields := Some fields |})
       = JObject bare
    /\ getProp entries (lit "_id") = Some (JString (lastSegment [] name))
    /\ (forall k, str_eqb k (lit "_id") = false -> getProp entries k = getProp bare k)
    /\ ~ In 47%N (lastSegment [] name)
    /\ exists before,
         name = before ++ lastSegment [] name
         /\ (before = [] \/ exists b, before = b ++ [47%N]).
Proof.
  intros Hname. unfold convertFromFirestoreDoc. cbn [doc_fields doc_name].
  rewrite Hname. eexists. eexists.
  split; [reflexivity|]. split; [reflexivity|].
  split; [|split; [|split]].
  - unfold setProp. cbn [str_eqb lit list_ascii_of_string map N_of_ascii].
    change (str_eqb (lit "_id") (lit "__proto__")) with false. cbn iota.
    apply getProp_assign_same.
  - intros k Hk. unfold setProp.
    change (str_eqb (lit "_id") (lit "__proto__")) with false. cbn iota.
    apply getProp_assign_other. exact Hk.
  - apply lastSegment_no_slash. intros [].
  - exact (lastSegment_suffix name []).
Qed.

Lemma convertFromFirestoreDoc_id_witness :
  exists entries,
    convertFromFirestoreDoc
      (Some {| doc_name := Some (lit "projects/p/databases/(default)/documents/shn-sessions/s1");
               doc_fields := Some [(lit "_id", stringValue (lit "old"))] |})
    = JObject entries
    /\ getProp entries (lit "_id") = Some (JString (lit "s1")).
Proof.
  destruct (convertFromFirestoreDoc_id
              (lit "projects/p/databases/(default)/documents/shn-sessions/s1")
              [(lit "_id", stringValue (lit "old"))] eq_refl)
    as [entries [bare [E [_ [Hid _]]]]].
  exists entries. split; [exact E | exact Hid].
Defined.

End DocumentFacts.

(** ** The store client: [firestoreList], [firestoreSet] and the round trip *)

Section StoreFacts.
Import SHNLiteCanvas.

(** X5: with a project configured [firestoreList] asks one URL; on every
    status that is not a success, 404 included, it throws (where
    [firestoreGet] answers [null] on 404); on a success without
    [documents] it returns the empty list; otherwise it returns one
    converted entry per document, in order. *)
Theorem firestoreList_outcomes (projectId apiKey : jsstring)
    (fetch_ : jsstring -> fetched listResponse) (collectionPath : jsstring)
    (orderByField : option jsstring) (limitCount : option Z)
    (Hcfg : truthyStr projectId = true) :
  let out := firestoreList (Some projectId) apiKey fetch_ collectionPath
               orderByField limitCount in
  exists url,
    fst out = Some url
    /\ forall r, fetch_ url = Responded r ->
         (ok (list_status r) = false -> exists message, snd out = Throw message)
         /\ (ok (list_status r) = true -> list_body r = Documents None -> snd out = Ok [])
         /\ (ok (list_status r) = true ->
             forall documents, list_body r = Documents (Some documents) ->
               snd out = Ok (map convertFromFirestoreDoc documents)
               /\ forall i d, nth_error documents i = Some (Some d) ->
                    doc_fields d = None ->
                    nth_error (map convertFromFirestoreDoc documents) i = Some JNull)
         /\ (forall l, snd out = Ok l -> ok (list_status r) = true).
Proof.
  cbn zeta. unfold firestoreList, getFirestoreUrl.
  cbn [orElse]. rewrite Hcfg. cbn iota. rewrite Hcfg. cbn [negb truthyStr fst snd].
  match goal with |- context [fetch_ ?u] => exists u end.
  split; [reflexivity|].
  intros r Hr. rewrite Hr.
  split; [|split; [|split]].
  - intros Hok. rewrite Hok. cbn [negb].
    destruct (list_body r) as [| |[m|]|docs]; eexists; reflexivity.
  - intros Hok Hb. rewrite Hok, Hb. reflexivity.
  - intros Hok documents Hb. rewrite Hok, Hb. split; [reflexivity|].
    intros i d Hi Hd. rewrite nth_error_map, Hi. cbn [option_map].
    unfold convertFromFirestoreDoc. rewrite Hd. reflexivity.
  - intros l. destruct (ok (list_status r)); [reflexivity|]. cbn [negb].
    destruct (list_body r) as [| |[m|]|docs]; discriminate.
Qed.

Lemma firestoreList_outcomes_witness :
  snd (firestoreList (Some (lit "p")) (lit "k")
         (fun _ => Responded {| list_status := 404; list_statusText := lit "Not Found";
                                list_body := ListError (Some (lit "missing")) |})
         (lit "shn-sessions") None None)
  = Throw (msgListFailed ++ lit "missing").
Proof.
  destruct (firestoreList_outcomes (lit "p") (lit "k")
              (fun _ => Responded {| list_status := 404; list_statusText := lit "Not Found";
                                     list_body := ListError (Some (lit "missing")) |})
              (lit "shn-sessions") None None eq_refl)
    as [url [_ H]].
  destruct (H _ eq_refl) as [Hthrow _].
  destruct (Hthrow eq_refl) as [message E].
  rewrite E. vm_compute in E. injection E as <-. reflexivity.
Defined.

(** A settled value comes back from the store format as it went. *)
Lemma roundtrip_settled (now : jsstring) (v : jsvalue) :
  settled v = true ->
  convertFromFirestoreValue (convertToFirestoreValue now v) = v.
Proof.
  induction v as [| |s|n|b|elements IH|iso|entries IH] using jsvalue_induction;
    intros Hv; try reflexivity; try discriminate.
  - destruct n as [z| | |]; try reflexivity.
    cbn [settled] in Hv. cbn [convertToFirestoreValue convertFromFirestoreValue].
    rewrite parseInt_Number_toString by (apply safe_below_exponent; exact Hv).
    reflexivity.
  - cbn [convertToFirestoreValue convertFromFirestoreValue]. f_equal.
    cbn [settled] in Hv. rewrite map_map.
    rewrite <- (map_id elements) at 2. apply map_ext_in.
    intros x Hx. rewrite Forall_forall in IH. apply (IH x Hx).
    rewrite forallb_forall in Hv. apply Hv. exact Hx.
  - cbn [settled] in Hv.
    apply andb_prop in Hv. destruct Hv as [Hv Hall].
    apply andb_prop in Hv. destruct Hv as [Hv Hts].
    apply andb_prop in Hv. destruct Hv as [Hd Hp].
    apply negb_true_iff in Hts, Hp.
    cbn [convertToFirestoreValue]. rewrite Hts.
    rewrite (fill_empty (convertToFirestoreValue now) entries Hd Hp).
    cbn [convertFromFirestoreValue].
    rewrite fill_empty; rewrite ?map_map; cbn [fst]; [|exact Hd | exact Hp].
    f_equal. cbn [snd]. rewrite <- (map_id entries) at 2. apply map_ext_in.
    intros [k x] Hx. cbn [fst snd]. f_equal.
    rewrite Forall_forall in IH. apply (IH (k, x) Hx).
    rewrite forallb_forall in Hall. apply (Hall (k, x) Hx).
Qed.

Lemma plain_settled (v : jsvalue) : plain v = true -> settled v = true.
Proof.
  induction v as [| |s|n|b|elements IH|iso|entries IH] using jsvalue_induction;
    intros Hv; try reflexivity; try discriminate.
  - exact Hv.
  - cbn [plain] in Hv. cbn [settled]. rewrite forallb_forall in *.
    intros x Hx. rewrite Forall_forall in IH. apply (IH x Hx), (Hv x Hx).
  - cbn [plain] in Hv. cbn [settled].
    apply andb_prop in Hv. destruct Hv as [Hv Hall]. rewrite Hv. cbn [andb].
    rewrite forallb_forall in *.
    intros kv Hkv. rewrite Forall_forall in IH. apply (IH kv Hkv), (Hall kv Hkv).
Qed.

(** X6: what [firestoreSet] sends reads back.  When [data] is an object
    of plain values without the key [_id], the request carries one field
    per entry, and a later [firestoreGet] that is answered with a document
    of those fields returns [data] with the entry [_id] appended, the last
    segment of the document name. *)
Theorem stored_document_reads_back (projectId apiKey now : jsstring)
    (fetch_ : patchRequest -> fetched storeResponse)
    (collectionPath : jsstring) (docId : option jsstring)
    (data : list (jsstring * jsvalue)) :
  truthyStr projectId = true ->
  plain (JObject data) = true ->
  getProp data (lit "_id") = None ->
  exists request,
    fst (firestoreSet (Some projectId) apiKey now fetch_ collectionPath docId data)
    = Some request
    /\ map fst (patch_fields request) = map fst data
    /\ forall (r : storeResponse) (name : jsstring),
         ok (status r) = true ->
         truthyStr name = true ->
         body r = DocumentBody {| doc_name := Some name;
                                  doc_fields := Some (patch_fields request) |} ->
         firestoreGet (Some projectId) (Responded r)
         = Ok (JObject (data ++ [(lit "_id", JString (lastSegment [] name))])).
Proof.
  intros Hcfg Hplain Hid.
  cbn [plain] in Hplain.
  apply andb_prop in Hplain. destruct Hplain as [Hv Hall].
  apply andb_prop in Hv. destruct Hv as [Hv _].
  apply andb_prop in Hv. destruct Hv as [Hd Hp].
  apply negb_true_iff in Hp.
  unfold firestoreSet, getFirestoreUrl. cbn [orElse]. rewrite Hcfg. cbn iota.
  rewrite Hcfg. cbn [negb fst].
  eexists. split; [reflexivity|]. cbn [patch_fields].
  unfold fieldsOf. rewrite (fill_empty (convertToFirestoreValue now) data Hd Hp).
  split; [rewrite map_map; reflexivity|].
  intros r name Hok Hname Hbody.
  unfold firestoreGet. cbn [orElse]. rewrite Hcfg. cbn iota. rewrite Hcfg. cbn [negb].
  assert ((status r =? 404)%Z = false) as H404.
  { unfold ok in Hok. apply andb_prop in Hok. destruct Hok as [_ Hle].
    apply Z.leb_le in Hle. apply Z.eqb_neq. lia. }
  rewrite H404, Hok, Hbody. cbn [negb]. f_equal.
  unfold convertFromFirestoreDoc. cbn [doc_fields doc_name]. rewrite Hname.
  rewrite fill_empty; rewrite ?map_map; cbn [fst]; [|exact Hd | exact Hp].
  f_equal. unfold setProp.
  change (str_eqb (lit "_id") (lit "__proto__")) with false. cbn iota.
  rewrite assign_fresh.
  - f_equal. cbn [snd]. rewrite <- (map_id data) at 2. apply map_ext_in.
    intros [k x] Hx. cbn [fst snd]. f_equal.
    apply roundtrip_settled. apply plain_settled.
    rewrite forallb_forall in Hall. apply (Hall (k, x) Hx).
  - rewrite map_map. cbn [fst]. apply getProp_absent. exact Hid.
Qed.

Lemma stored_document_reads_back_witness :
  firestoreGet (Some (lit "p"))
    (Responded {| status := 200; statusText := lit "OK";
                  body := DocumentBody
                            {| doc_name := Some (lit "projects/p/documents/canvas/c1");
                               doc_fields :=
                                 Some [(lit "title", stringValue (lit "a"));
                                       (lit "turnCount", integerValue (lit "3"))] |} |})
  = Ok (JObject [(lit "title", JString (lit "a"));
                 (lit "turnCount", JNumber (NumInt 3));
                 (lit "_id", JString (lit "c1"))]).
Proof.
  destruct (stored_document_reads_back (lit "p") (lit "k") (lit "now")
              (fun _ => Rejected []) (lit "canvas") (Some (lit "c1"))
              [(lit "title", JString (lit "a"));
               (lit "turnCount", JNumber (NumInt 3))]
              eq_refl eq_refl eq_refl)
    as [request [Hsent [_ Hback]]].
  vm_compute in Hsent. injection Hsent as <-.
  exact (Hback {| status := 200; statusText := lit "OK";
                  body := DocumentBody
                            {| doc_name := Some (lit "projects/p/documents/canvas/c1");
                               doc_fields :=
                                 Some [(lit "title", stringValue (lit "a"));
                                       (lit "turnCount", integerValue (lit "3"))] |} |}
               (lit "projects/p/documents/canvas/c1") eq_refl eq_refl eq_refl).
Defined.

End StoreFacts.

(** ** One round trip settles a value *)

Section SettleFacts.
Import SHNLiteCanvas.

Lemma keys_of_converted {U V : Type} (g : U -> V) (l : list (jsstring * U)) :
  map fst (map (fun kv => (fst kv, g (snd kv))) l) = map fst l.
Proof.
  rewrite map_map. apply map_ext. reflexivity.
Qed.

(** Assigning the key [__proto__] makes no entry, so filling an object
    passes over such entries. *)
Lemma fill_passes_proto {U V : Type} (g : U -> V) (source : list (jsstring * U)) :
  forall target : list (jsstring * V),
    fold_left (fun fields kv => setProp fields (fst kv) (g (snd kv))) source target
    = fold_left (fun fields kv => setProp fields (fst kv) (g (snd kv)))
        (filter notProto source) target.
Proof.
  induction source as [|[k u] source IH]; intros target; [reflexivity|].
  cbn [fold_left filter]. unfold notProto at 1. cbn [fst snd].
  destruct (str_eqb k (lit "__proto__")) eqn:E; cbn [negb].
  - unfold setProp at 2. rewrite E. apply IH.
  - cbn [fold_left fst snd]. apply IH.
Qed.

Lemma existsb_filtered {V : Type} (f : jsstring -> bool) (p : jsstring * V -> bool)
    (l : list (jsstring * V)) :
  existsb f (map fst l) = false -> existsb f (map fst (filter p l)) = false.
Proof.
  induction l as [|kv l IH]; [reflexivity|].
  cbn [map existsb filter]. intros H. apply orb_false_elim in H.
  destruct H as [Hk Hl]. destruct (p kv); [|exact (IH Hl)].
  cbn [map existsb]. rewrite Hk. exact (IH Hl).
Qed.

Lemma distinct_filtered {V : Type} (p : jsstring * V -> bool) (l : list (jsstring * V)) :
  distinct (map fst l) = true -> distinct (map fst (filter p l)) = true.
Proof.
  induction l as [|kv l IH]; [reflexivity|].
  cbn [map distinct filter]. intros H. apply andb_prop in H.
  destruct H as [Hk Hl]. destruct (p kv); [|exact (IH Hl)].
  cbn [map distinct]. rewrite (IH Hl), andb_true_r.
  apply negb_true_iff in Hk. apply negb_true_iff.
  apply existsb_filtered. exact Hk.
Qed.

Lemma no_proto_filtered {V : Type} (l : list (jsstring * V)) :
  existsb (str_eqb (lit "__proto__")) (map fst (filter notProto l)) = false.
Proof.
  induction l as [|[k v] l IH]; [reflexivity|].
  cbn [filter]. unfold notProto at 1. cbn [fst].
  destruct (str_eqb k (lit "__proto__")) eqn:E; cbn [negb]; [exact IH|].
  cbn [map fst existsb]. rewrite str_eqb_sym, E. exact IH.
Qed.

Lemma getProp_filtered {V : Type} (l : list (jsstring * V)) (key : jsstring) :
  str_eqb key (lit "__proto__") = false ->
  getProp (filter notProto l) key = getProp l key.
Proof.
  intros Hkey. induction l as [|[k v] l IH]; [reflexivity|].
  cbn [filter getProp]. unfold notProto at 1. cbn [fst].
  destruct (str_eqb k (lit "__proto__")) eqn:E; cbn [negb].
  - apply str_eqb_eq in E. subst k. rewrite str_eqb_sym, Hkey. exact IH.
  - cbn [getProp]. destruct (str_eqb k key); [reflexivity | exact IH].
Qed.

(** The object both converters fill from entries with distinct keys. *)
Lemma fill_distinct {U V : Type} (g : U -> V) (source : list (jsstring * U)) :
  distinct (map fst source) = true ->
  fold_left (fun fields kv => setProp fields (fst kv) (g (snd kv))) source []
  = map (fun kv => (fst kv, g (snd kv))) (filter notProto source).
Proof.
  intros Hd. rewrite fill_passes_proto. apply fill_empty.
  - apply distinct_filtered. exact Hd.
  - apply no_proto_filtered.
Qed.

(** A falsy value is falsy when it comes back. *)
Lemma falsy_comes_back_falsy (now : jsstring) (x : jsvalue) :
  truthy x = false ->
  truthy (convertFromFirestoreValue (convertToFirestoreValue now x)) = false.
Proof.
  destruct x as [| |s|n|b|elements|iso|entries]; cbn [truthy]; intros H;
    try reflexivity; try discriminate; try exact H.
  destruct n as [z| | |]; try discriminate; try reflexivity.
  apply negb_false_iff, Z.eqb_eq in H. subst z. reflexivity.
Qed.

Lemma settledAt_settled (now : jsstring) (v : jsvalue) :
  settledAt now v = true -> settled v = true.
Proof.
  induction v as [| |s|n|b|elements IH|iso|entries IH] using jsvalue_induction;
    intros Hv; try reflexivity; try exact Hv.
  - cbn [settledAt] in Hv. cbn [settled].
    rewrite forallb_forall in *. intros x Hx.
    rewrite Forall_forall in IH. apply (IH x Hx), (Hv x Hx).
  - cbn [settledAt] in Hv. cbn [settled].
    apply andb_prop in Hv. destruct Hv as [Hkeys Hall]. rewrite Hkeys. cbn [andb].
    rewrite forallb_forall in *. intros x Hx.
    rewrite Forall_forall in IH. apply (IH x Hx), (Hall x Hx).
Qed.

Lemma settles (now : jsstring) (v : jsvalue) :
  storable v = true ->
  settledAt now (convertFromFirestoreValue (convertToFirestoreValue now v)) = true.
Proof.
  induction v as [| |s|n|b|elements IH|iso|entries IH] using jsvalue_induction;
    intros Hv; try reflexivity; try discriminate Hv.
  - destruct n as [z| | |]; try reflexivity.
    cbn [storable] in Hv. cbn [convertToFirestoreValue convertFromFirestoreValue].
    rewrite parseInt_Number_toString by (apply safe_below_exponent; exact Hv).
    exact Hv.
  - cbn [storable] in Hv.
    cbn [convertToFirestoreValue convertFromFirestoreValue settledAt].
    rewrite map_map. rewrite forallb_forall in *. intros y Hy.
    apply in_map_iff in Hy. destruct Hy as [x [<- Hx]].
    rewrite Forall_forall in IH. apply (IH x Hx), (Hv x Hx).
  - cbn [storable] in Hv. apply andb_prop in Hv. destruct Hv as [Hd Hall].
    cbn [convertToFirestoreValue].
    destruct (isTruthyProp entries (lit "_serverTimestamp")) eqn:Hts;
      [apply str_eqb_refl|].
    rewrite (fill_distinct (convertToFirestoreValue now) entries Hd).
    cbn [convertFromFirestoreValue].
    rewrite fill_empty; rewrite ?keys_of_converted;
      [|apply distinct_filtered; exact Hd | apply no_proto_filtered].
    rewrite map_map. cbn [fst snd].
    cbn [settledAt].
    rewrite (keys_of_converted
               (fun x => convertFromFirestoreValue (convertToFirestoreValue now x))).
    rewrite (distinct_filtered notProto entries Hd), no_proto_filtered.
    cbn [negb andb].
    apply andb_true_intro. split.
    + apply negb_true_iff. unfold isTruthyProp.
      rewrite (getProp_map
                 (fun x => convertFromFirestoreValue (convertToFirestoreValue now x))
                 (filter notProto entries) (lit "_serverTimestamp")).
      rewrite getProp_filtered by reflexivity.
      unfold isTruthyProp in Hts.
      destruct (getProp entries (lit "_serverTimestamp")) as [x|]; [|reflexivity].
      cbn [option_map]. apply falsy_comes_back_falsy. exact Hts.
    + rewrite forallb_forall. intros y Hy.
      apply in_map_iff in Hy. destruct Hy as [[k x] [<- Hx]]. cbn [fst snd].
      apply filter_In in Hx. destruct Hx as [Hx _].
      rewrite Forall_forall in IH. apply (IH (k, x) Hx).
      rewrite forallb_forall in Hall. apply (Hall (k, x) Hx).
Qed.

(** X7: one trip to the store format and back settles a value that holds
    no Date.  For every native value without Dates whose integers are
    safe (with [undefined], the [serverTimestamp()] sentinel and the key
    [__proto__] allowed), converted at a time [now] that [toISOString()]
    wrote, what comes back holds no [undefined] and no sentinel, every
    Date in it is the time [now], and taking it through the store format
    again, at any later time, changes nothing. *)
Theorem roundtrip_settles (now : jsstring) (v : jsvalue) :
  isTimestamp now = true ->
  storable v = true ->
  let back := convertFromFirestoreValue (convertToFirestoreValue now v) in
  settledAt now back = true
  /\ forall later,
       convertFromFirestoreValue (convertToFirestoreValue later back) = back.
Proof.
  intros _ Hv back.
  assert (settledAt now back = true) as Hback by (apply settles; exact Hv).
  split; [exact Hback|].
  intros later. apply roundtrip_settled. apply (settledAt_settled now). exact Hback.
Qed.

Lemma roundtrip_settles_witness :
  let now := lit "2026-01-01T00:00:00.000Z" in
  let v := JObject [(lit "savedAt", serverTimestamp); (lit "note", JUndefined);
                    (lit "__proto__", JNull)] in
  let back := JObject [(lit "savedAt", JDate now); (lit "note", JNull)] in
  convertFromFirestoreValue (convertToFirestoreValue now v) = back
  /\ convertFromFirestoreValue
       (convertToFirestoreValue (lit "2026-01-02T00:00:00.000Z") back) = back.
Proof.
  cbn zeta. split; [reflexivity|].
  exact (proj2 (roundtrip_settles (lit "2026-01-01T00:00:00.000Z")
                  (JObject [(lit "savedAt", serverTimestamp); (lit "note", JUndefined);
                            (lit "__proto__", JNull)])
                  eq_refl eq_refl) (lit "2026-01-02T00:00:00.000Z")).
Defined.

End SettleFacts.

(** ** [chunkByMarker]: the chunk size, and what the chunks keep of the text *)

Section ChunkSizeFacts.

(** With a chunk size of 0 the loop variable never moves. *)
Lemma groupLoop_stuck (blocks : list jsstring) (fuel : nat) :
  blocks <> [] -> forall grouped, groupLoop fuel blocks 0 0 grouped = None.
Proof.
  intros Hb. induction fuel as [|fuel IH]; intros grouped; [reflexivity|].
  cbn [groupLoop]. destruct blocks as [|x blocks]; [contradiction|].
  cbn [List.length Nat.ltb Nat.leb Nat.add]. apply IH.
Qed.

(** X8: [chunkByMarker] returns for every chunk size from 1 on.  With
    the chunk size 0 it returns (the empty list) only when the text has no
    block that is not blank; otherwise the grouping loop never ends: it
    runs out of every amount of fuel. *)
Theorem chunkByMarker_chunk_size (text_ markerType : jsstring) :
  let blocks :=
    filter nonBlank (split (lookahead (SHNLiteCanvas.markerRe markerType)) text_) in
  (forall n, 1 <= n ->
     exists chunks, SHNLiteCanvas.chunkByMarker text_ markerType n = Some chunks)
  /\ (blocks = [] -> SHNLiteCanvas.chunkByMarker text_ markerType 0 = Some [])
  /\ (blocks <> [] ->
        SHNLiteCanvas.chunkByMarker text_ markerType 0 = None
        /\ forall fuel grouped, groupLoop fuel blocks 0 0 grouped = None).
Proof.
  intros blocks. split; [|split].
  - intros n Hn. unfold SHNLiteCanvas.chunkByMarker.
    change (filter (fun c => truthyStr (trim c))
              (split (lookahead (SHNLiteCanvas.markerRe markerType)) text_))
      with blocks.
    rewrite (groupLoop_total blocks n Hn). eexists. reflexivity.
  - intros Hb. unfold SHNLiteCanvas.chunkByMarker.
    change (filter (fun c => truthyStr (trim c))
              (split (lookahead (SHNLiteCanvas.markerRe markerType)) text_))
      with blocks.
    rewrite Hb. reflexivity.
  - intros Hb. split.
    + unfold SHNLiteCanvas.chunkByMarker.
      change (filter (fun c => truthyStr (trim c))
                (split (lookahead (SHNLiteCanvas.markerRe markerType)) text_))
        with blocks.
      apply groupLoop_stuck. exact Hb.
    + intros fuel grouped. apply groupLoop_stuck. exact Hb.
Qed.

End ChunkSizeFacts.

Section PieceFacts.
Variable test : jsstring -> bool.
Hypothesis marker_head :
  forall s, test s = true -> exists c s', s = c :: s' /\ isWhiteSpace c = false.

Lemma preamble_prefix (s : jsstring) :
  preamble test s ++ skipn (List.length (preamble test s)) s = s.
Proof.
  induction s as [|c s IH]; [reflexivity|].
  cbn [preamble]. destruct (test (c :: s)); [reflexivity|].
  cbn [List.length skipn app]. rewrite IH. reflexivity.
Qed.

(** The pieces of a split: what stands before the first marker, then
    pieces that each start at a marker. *)
Lemma splitLoop_pieces (s : jsstring) :
  forall cur,
    exists later,
      splitLoop test cur s = (cur ++ preamble test s) :: later
      /\ Forall (fun p => nonBlank p = true) later
      /\ concat later = skipn (List.length (preamble test s)) s.
Proof.
  induction s as [|c s IH]; intros cur.
  - exists []. cbn. rewrite app_nil_r. repeat split. constructor.
  - cbn [splitLoop preamble]. destruct (test (c :: s)) eqn:Ht.
    + destruct (IH [c]) as [later [E [Hall Hcat]]].
      exists (([c] ++ preamble test s) :: later).
      rewrite app_nil_r, E. split; [reflexivity|]. split.
      * constructor; [|exact Hall].
        destruct (marker_head _ Ht) as [c0 [s0 [E0 Hc0]]].
        injection E0 as <- _. apply nonBlank_cons. exact Hc0.
      * cbn [concat List.length skipn app]. rewrite Hcat.
        rewrite preamble_prefix. reflexivity.
    + destruct (IH (cur ++ [c])) as [later [E [Hall Hcat]]].
      exists later. rewrite E, <- app_assoc. split; [reflexivity|].
      split; [exact Hall | exact Hcat].
Qed.

Lemma filter_all (l : list jsstring) :
  Forall (fun p => nonBlank p = true) l -> filter nonBlank l = l.
Proof.
  induction 1 as [|p l Hp _ IH]; [reflexivity|].
  cbn [filter]. rewrite Hp, IH. reflexivity.
Qed.

Lemma blocks_of_split (s : jsstring) :
  let blocks := filter nonBlank (split test s) in
  concat blocks
  = (if nonBlank (preamble test s) then s
     else skipn (List.length (preamble test s)) s)
  /\ Forall (fun p => nonBlank p = true) blocks.
Proof.
  cbn zeta. split.
  2:{ apply Forall_forall. intros p Hp. apply filter_In in Hp. apply Hp. }
  destruct s as [|c s].
  - cbn [split]. destruct (test []) eqn:Ht; [reflexivity|]. reflexivity.
  - cbn [split preamble].
    destruct (splitLoop_pieces s [c]) as [later [E [Hall Hcat]]].
    rewrite E. cbn [filter].
    destruct (test (c :: s)) eqn:Ht.
    + destruct (marker_head _ Ht) as [c0 [s0 [E0 Hc0]]].
      injection E0 as <- _.
      change ([c] ++ preamble test s) with (c :: preamble test s).
      rewrite (nonBlank_cons c _ Hc0), (filter_all later Hall).
      change (nonBlank []) with false. cbn iota. cbn [concat List.length skipn].
      rewrite Hcat. cbn [app]. rewrite preamble_prefix. reflexivity.
    + change ([c] ++ preamble test s) with (c :: preamble test s).
      rewrite (filter_all later Hall).
      destruct (nonBlank (c :: preamble test s)).
      * cbn [concat]. rewrite Hcat. cbn [app]. rewrite preamble_prefix. reflexivity.
      * cbn [List.length skipn]. exact Hcat.
Qed.

End PieceFacts.

(** X9: with the default chunk size of 1 [chunkByMarker] loses nothing but a
    blank preamble.  The chunks, none of them blank, laid end to end are
    the text when what stands before the first marker is not blank, and
    the text without it when it is only white space. *)
Theorem chunkByMarker_keeps_text (text_ markerType : jsstring) :
  let before := preamble (lookahead (SHNLiteCanvas.markerRe markerType)) text_ in
  exists chunks,
    SHNLiteCanvas.chunkByMarker text_ markerType 1 = Some chunks
    /\ concat chunks
       = (if nonBlank before then text_ else skipn (List.length before) text_)
    /\ text_ = before ++ skipn (List.length before) text_
    /\ Forall (fun c => nonBlank c = true) chunks.
Proof.
  cbn zeta. rewrite chunkByMarker_one. eexists. split; [reflexivity|].
  destruct (blocks_of_split (lookahead (SHNLiteCanvas.markerRe markerType))
              (markerRe_head markerType) text_) as [Hcat Hall].
  split; [exact Hcat|]. split; [|exact Hall].
  symmetry. apply preamble_prefix.
Qed.

(** ** [runExtraction]: what a run needs, and how it completes *)

Section RunFacts.
Import SHNCanvas.

Lemma existsb_concat (f : codeUnit -> bool) (l : list jsstring) :
  existsb f (concat l) = existsb (existsb f) l.
Proof.
  induction l as [|x l IH]; [reflexivity|].
  cbn [concat existsb]. rewrite existsb_app, IH. reflexivity.
Qed.

(** A text that is not blank has a block that is not blank. *)
Lemma blocks_of_text (test : jsstring -> bool) (s : jsstring) :
  nonBlank s = true -> filter nonBlank (split test s) <> [].
Proof.
  intros Hs Hnone.
  rewrite <- (split_concat test s), nonBlank_existsb, existsb_concat in Hs.
  apply existsb_exists in Hs. destruct Hs as [p [Hp Hnb]].
  rewrite <- nonBlank_existsb in Hnb.
  assert (In p (filter nonBlank (split test s))) as Hin
    by (apply filter_In; split; assumption).
  rewrite Hnone in Hin. exact Hin.
Qed.

Lemma nonBlank_app (a b : jsstring) : nonBlank a = true -> nonBlank (a ++ b) = true.
Proof.
  rewrite !nonBlank_existsb, existsb_app. intros ->. reflexivity.
Qed.

(** Every turn is written as text that is not blank. *)
Lemma allMarkdown_not_blank (t : turn) (turns : list turn) :
  nonBlank (allMarkdown (t :: turns)) = true.
Proof.
  unfold allMarkdown. cbn [map].
  match goal with
  | |- nonBlank (join ?sep (?x :: ?l)) = true =>
      destruct (join_head sep x l) as [rest ->]; apply nonBlank_app
  end.
  destruct (startsWith (trim (orElse (turn_content t) (orElse (turn_narrative t) [])))
              turnMarker) eqn:E.
  - unfold nonBlank.
    destruct (trim (orElse (turn_content t) (orElse (turn_narrative t) [])));
      [discriminate | reflexivity].
  - apply nonBlank_app. reflexivity.
Qed.

Lemma ceilDiv_positive (len n : nat) : 1 <= n -> 1 <= len -> 1 <= ceilDiv len n.
Proof.
  intros Hn Hlen. apply (ceilDiv_gt len n 0 Hn). lia.
Qed.

(** A run over at least one turn has at least one chunk. *)
Lemma chunks_of_turns (t : turn) (turns : list turn) (s : jsstring) :
  exists chunks,
    chunksOf (turnBlocks (allMarkdown (t :: turns))) (Z.to_nat (chunkSizeOf s))
    = Some chunks
    /\ 1 <= List.length chunks.
Proof.
  unfold chunksOf.
  assert (1 <= Z.to_nat (chunkSizeOf s)) as Hn
    by (pose proof (chunkSizeOf_range s); lia).
  rewrite (groupLoop_total _ _ Hn). eexists. split; [reflexivity|].
  rewrite length_map, length_seq. apply ceilDiv_positive; [exact Hn|].
  destruct (turnBlocks (allMarkdown (t :: turns))) as [|x l] eqn:E.
  - exfalso. revert E. apply blocks_of_text. apply allMarkdown_not_blank.
  - cbn [List.length]. lia.
Qed.

Lemma processChunks_trace (P : jsstring) (w : world) (chunks : list jsstring) (k : nat) :
  forall i acc trace,
    exists more, fst (processChunks P w chunks k i acc trace) = trace ++ more.
Proof.
  induction k as [|k IH]; intros i acc trace.
  - exists []. cbn. rewrite app_nil_r. reflexivity.
  - cbn [processChunks].
    destruct (callLLM (apiKey w) (fetch w i) (dataStart ++ nth i chunks [] ++ dataEnd) P)
      as [called [r | message]].
    + destruct (IH (S i) (acc ++ [r])
                  (trace ++ called
                     ++ (if i <? List.length chunks - 1 then [Delay 2000] else [])))
        as [more E].
      rewrite E. eexists. rewrite <- app_assoc. reflexivity.
    + eexists. reflexivity.
Qed.

Lemma processChunks_results (P : jsstring) (w : world)
    (key_set : truthyStr (apiKey w) = true) (chunks : list jsstring)
    (r : nat -> jsstring) (k : nat) :
  forall i acc trace,
    (forall j, i <= j < i + k -> answerFor P w chunks j = Ok (r j)) ->
    processChunks P w chunks k i acc trace
    = (trace ++ flat_map (fun j => paced 2000 (List.length chunks)
                                     [LLMCall (requestFor P chunks j)] j) (seq i k),
       Ok (acc ++ map r (seq i k))).
Proof.
  induction k as [|k IH]; intros i acc trace Hall.
  - cbn. rewrite !app_nil_r. reflexivity.
  - rewrite (processChunks_step P w key_set chunks k i acc trace).
    rewrite (Hall i) by lia.
    rewrite IH by (intros j Hj; apply Hall; lia).
    cbn [seq flat_map map]. rewrite <- !app_assoc. reflexivity.
Qed.

(** X10: what a run that has a key and a batch size needs.  On a page
    without one of the three progress elements it throws a TypeError
    before anything is sent, whatever the turns.  On a page with them:
    without a turn it calls nothing and ends in the [catch] block with the
    message that there is nothing to process (the block throws a
    TypeError in turn when the page has no status element); with at least
    one turn it has at least one chunk and its first event is the request
    for the first chunk. *)
Theorem runExtraction_needs_turns (P : jsstring) (w : world) (s : jsstring) :
  truthyStr (apiKey w) = true ->
  promptAnswer w = Some s ->
  truthyStr s = true ->
  (hasProgress w = false ->
     forall turns, runExtraction P w turns = Some ([], Uncaught (lit "TypeError")))
  /\ (hasProgress w = true ->
        runExtraction P w []
        = Some ([], if statusEl (dom w) then Failed msgNoTurns
                    else Uncaught (lit "TypeError"))
        /\ forall t turns,
             exists chunks rest ending,
               chunksOf (turnBlocks (allMarkdown (t :: turns)))
                 (Z.to_nat (chunkSizeOf s))
               = Some chunks
               /\ 1 <= List.length chunks
               /\ runExtraction P w (t :: turns)
                  = Some (LLMCall (requestFor P chunks 0) :: rest, ending)).
Proof.
  intros Hkey Hprompt Hs. split.
  - intros Hprogress turns. apply (runExtraction_unstaged P w turns s); assumption.
  - intros Hprogress. split.
    + rewrite (runExtraction_started P w [] s [] Hkey Hprompt Hs Hprogress eq_refl).
      reflexivity.
    + intros t turns.
      destruct (chunks_of_turns t turns s) as [chunks [Hchunks Hlen]].
      exists chunks.
      assert (exists rest ending,
                runExtraction P w (t :: turns)
                = Some (LLMCall (requestFor P chunks 0) :: rest, ending)) as Hrun.
      { rewrite (runExtraction_started P w (t :: turns) s chunks
                   Hkey Hprompt Hs Hprogress Hchunks).
        destruct (List.length chunks) as [|k] eqn:Hb; [lia|]. cbn [Nat.eqb].
        rewrite (processChunks_step P w Hkey chunks k 0 [] []).
        destruct (answerFor P w chunks 0) as [r | message].
        - destruct (processChunks_trace P w chunks k 1 ([] ++ [r])
                      ([] ++ paced 2000 (List.length chunks)
                               [LLMCall (requestFor P chunks 0)] 0))
            as [more E].
          destruct (processChunks P w chunks k 1 ([] ++ [r])
                      ([] ++ paced 2000 (List.length chunks)
                               [LLMCall (requestFor P chunks 0)] 0))
            as [trace [results | message]]; cbn [fst] in E; subst trace;
            eexists; eexists; cbn [app paced]; reflexivity.
        - eexists. eexists. reflexivity. }
      destruct Hrun as [rest [ending Hrun]].
      exists rest, ending. split; [exact Hchunks|]. split; [exact Hlen | exact Hrun].
Qed.

Lemma runExtraction_needs_turns_witness :
  runExtraction (lit "Refine.") sampleWorld [] = Some ([], Failed msgNoTurns).
Proof.
  exact (proj1 (proj2 (runExtraction_needs_turns (lit "Refine.") sampleWorld (lit "1")
                         eq_refl eq_refl eq_refl) eq_refl)).
Defined.

End RunFacts.

Section CompletionFacts.
Import SHNCanvas.

Lemma map_nth_seq (l : list jsstring) :
  map (fun j => nth j l []) (seq 0 (List.length l)) = l.
Proof.
  induction l as [|x l IH]; [reflexivity|].
  cbn [List.length seq map nth]. rewrite <- seq_shift, map_map.
  cbn [nth]. rewrite IH. reflexivity.
Qed.

(** X11: on a page with the three progress elements, a run over at least
    one turn in which every call is answered reaches the end of the
    loop.  Its events are the calls, one per chunk in order with a pause
    of 2000 ms after each but the last, then the store write if a store
    and a session are at hand.  On a page with the status element the run
    completes: the download follows if it is confirmed.  On a page
    without it the write of the status throws, the [catch] block throws
    in turn, and there is no download.  The merged result is the answers
    that are not blank joined by a comma and a line break; it is what is
    stored, and between brackets what is downloaded. *)
Theorem runExtraction_completes (P : jsstring) (w : world) (t : turn)
    (turns : list turn) (s : jsstring) :
  truthyStr (apiKey w) = true ->
  promptAnswer w = Some s ->
  truthyStr s = true ->
  hasProgress w = true ->
  exists chunks,
    chunksOf (turnBlocks (allMarkdown (t :: turns))) (Z.to_nat (chunkSizeOf s))
    = Some chunks
    /\ forall results : list jsstring,
         List.length results = List.length chunks ->
         (forall j, j < List.length chunks ->
                    answerFor P w chunks j = Ok (nth j results [])) ->
         let finalResult := join (lit "," ++ [newline]) (filter nonBlank results) in
         let calls :=
           flat_map (fun j => paced 2000 (List.length chunks)
                                [LLMCall (requestFor P chunks j)] j)
             (seq 0 (List.length chunks)) in
         let saved :=
           if storeReady w
           then [StoreSet (Z.to_nat (chunkSizeOf s)) (List.length chunks) finalResult]
           else [] in
         let downloaded :=
           if confirmDownload w
           then [Download (lit "[" ++ finalResult ++ lit "]")]
           else [] in
         runExtraction P w (t :: turns)
         = if statusEl (dom w)
           then Some (calls ++ saved ++ downloaded, Completed finalResult)
           else Some (calls ++ saved, Uncaught (lit "TypeError")).
Proof.
  intros Hkey Hprompt Hs Hprogress.
  destruct (chunks_of_turns t turns s) as [chunks [Hchunks Hlen]].
  exists chunks. split; [exact Hchunks|].
  intros results Hresults Hanswers finalResult calls saved downloaded.
  rewrite (runExtraction_started P w (t :: turns) s chunks
             Hkey Hprompt Hs Hprogress Hchunks).
  destruct (Nat.eqb_spec (List.length chunks) 0) as [E | _]; [lia|].
  rewrite (processChunks_results P w Hkey chunks (fun j => nth j results [])
             (List.length chunks) 0 [] [])
    by (intros j Hj; apply Hanswers; lia).
  assert (map (fun j => nth j results []) (seq 0 (List.length chunks)) = results)
    as Hmap by (rewrite <- Hresults; apply map_nth_seq).
  cbn [app]. rewrite Hmap.
  destruct (statusEl (dom w)); [reflexivity|].
  rewrite app_nil_r. reflexivity.
Qed.

Lemma runExtraction_completes_witness :
  runExtraction (lit "Refine.") steadyWorld sampleTurns
  = Some ([LLMCall (requestFor (lit "Refine.")
                      [lit "## [" ++ [cu_teon] ++ lit " 1]" ++ [newline; newline]
                         ++ lit "a" ++ [newline; newline];
                       lit "## [" ++ [cu_teon] ++ lit " 2]" ++ [newline; newline]
                         ++ lit "b"] 0);
           Delay 2000;
           LLMCall (requestFor (lit "Refine.")
                      [lit "## [" ++ [cu_teon] ++ lit " 1]" ++ [newline; newline]
                         ++ lit "a" ++ [newline; newline];
                       lit "## [" ++ [cu_teon] ++ lit " 2]" ++ [newline; newline]
                         ++ lit "b"] 1);
           StoreSet 1 2 (lit "{}," ++ [newline] ++ lit "{}");
           Download (lit "[{}," ++ [newline] ++ lit "{}]")],
          Completed (lit "{}," ++ [newline] ++ lit "{}")).
Proof.
  destruct (runExtraction_completes (lit "Refine.") steadyWorld
              {| turn_content := Some (lit "a"); turn_narrative := None;
                 turnNumber := 1 |}
              [{| turn_content := None; turn_narrative := Some (lit "b");
                  turnNumber := 2 |}]
              (lit "1") eq_refl eq_refl eq_refl eq_refl)
    as [chunks [Hchunks Hrun]].
  vm_compute in Hchunks. injection Hchunks as <-.
  refine (eq_trans (Hrun [lit "{}"; lit "{}"] eq_refl _) _).
  - intros [|[|j]] Hj; [vm_compute; reflexivity | vm_compute; reflexivity|].
    cbn [List.length] in Hj. lia.
  - vm_compute. reflexivity.
Defined.

End CompletionFacts.

(** ** What [callLLM] returns, and the requests of [batchExtract] *)

Section CallFacts.

(** X12: whatever text [callLLM] returns is trimmed, fenced or not, and
    it returns one only with a key set and after exactly one request, the
    system prompt and the message. *)
Theorem callLLM_result_trimmed (key : jsstring)
    (respond : jsstring -> fetched llmResponse)
    (userMessage systemPrompt r : jsstring) :
  snd (SHNCanvas.callLLM key respond userMessage systemPrompt) = Ok r ->
  trim r = r
  /\ truthyStr key = true
  /\ fst (SHNCanvas.callLLM key respond userMessage systemPrompt)
     = [LLMCall (SHNCanvas.fullPrompt systemPrompt userMessage)].
Proof.
  unfold SHNCanvas.callLLM. destruct (truthyStr key); cbn [negb fst snd];
    [|discriminate].
  intros H. split; [|split; reflexivity].
  destruct (respond (SHNCanvas.fullPrompt systemPrompt userMessage))
    as [reason | response]; [discriminate|].
  destruct (negb (ok (llm_status response))); [discriminate|].
  destruct (llm_json response) as [data|]; [|discriminate].
  destruct (candidates data) as [[|[[c|]] others]|]; try discriminate.
  rewrite stripCodeBlock_fenced in H. injection H as <-.
  apply trim_idempotent.
Qed.

Lemma callLLM_result_trimmed_witness :
  snd (SHNCanvas.callLLM (lit "key") (sampleFetch 0) (lit "data") (lit "Refine."))
  = Ok (lit "{}")
  /\ trim (lit "{}") = lit "{}".
Proof.
  split; [reflexivity|].
  exact (proj1 (callLLM_result_trimmed (lit "key") (sampleFetch 0) (lit "data")
                  (lit "Refine.") (lit "{}") eq_refl)).
Defined.

End CallFacts.

Section BatchRequestFacts.
Import SHNLiteCanvas.
Variable microPrompt : jsstring.
Variable mesoPrompt : jsstring -> jsstring.
Variable macroPrompt : jsstring.
Variable JSON_parse : jsstring -> result jsvalue.
Variable apiKey : jsstring.
Variable fetch : nat -> jsstring -> fetched llmResponse.

Lemma filter_flat_map (f : event -> bool) (g : nat -> list event) (l : list nat) :
  filter f (flat_map g l) = flat_map (fun i => filter f (g i)) l.
Proof.
  induction l as [|i l IH]; [reflexivity|].
  cbn [flat_map]. rewrite filter_app, IH. reflexivity.
Qed.

Lemma flat_map_singletons (g : nat -> event) (l : list nat) :
  flat_map (fun i => [g i]) l = map g l.
Proof.
  induction l as [|i l IH]; [reflexivity|]. cbn [flat_map map app]. rewrite IH.
  reflexivity.
Qed.

Lemma flat_map_empty (l : list nat) : flat_map (fun _ => @nil event) l = [].
Proof.
  induction l as [|i l IH]; [reflexivity | exact IH].
Qed.

(** The calls among the events of one step are those of the extraction. *)
Lemma step_calls_only (chunks : list jsstring) (markerType level : jsstring)
    (onProgress : bool) (i : nat) :
  filter isLLMCall
    (fst (extractChunk microPrompt mesoPrompt macroPrompt JSON_parse apiKey fetch
            chunks markerType level onProgress i))
  = filter isLLMCall
      (fst (extractAtLevel microPrompt mesoPrompt macroPrompt JSON_parse apiKey fetch
              level markerType i (nth i chunks []))).
Proof.
  rewrite chunkStep_events. unfold paced. rewrite !filter_app.
  destruct onProgress; destruct (i <? List.length chunks - 1);
    cbn [filter isLLMCall]; rewrite ?app_nil_r; reflexivity.
Qed.

Lemma extractAtLevel_callLLM (level markerType : jsstring) (n : nat) (chunk : jsstring) :
  extractAtLevel microPrompt mesoPrompt macroPrompt JSON_parse apiKey fetch
    level markerType n chunk
  = callLLM JSON_parse apiKey fetch n
      (promptFor microPrompt mesoPrompt macroPrompt level markerType) chunk.
Proof.
  unfold extractAtLevel, promptFor, extractMeso, extractMacro, extractMicro.
  destruct (str_eqb level (lit "meso")); [reflexivity|].
  destruct (str_eqb level (lit "macro")); reflexivity.
Qed.

(** X13: without an API key [batchExtract] sends nothing: it makes no
    request, and its result holds for every chunk the failure entry with the
    message that the LLM settings are needed. *)
Theorem batchExtract_without_key (fullText markerType extractionLevel : jsstring)
    (onProgress : bool) :
  truthyStr apiKey = false ->
  exists chunks trace results,
    chunkByMarker fullText markerType 1 = Some chunks
    /\ batchExtract microPrompt mesoPrompt macroPrompt JSON_parse apiKey fetch
         fullText markerType extractionLevel onProgress
       = Some (trace, results)
    /\ filter isLLMCall trace = []
    /\ results = map (fun i => Failed i msgNeedsLLM) (seq 0 (List.length chunks)).
Proof.
  intros Hkey.
  destruct (batchExtract_unfold microPrompt mesoPrompt macroPrompt JSON_parse apiKey
              fetch fullText markerType extractionLevel onProgress)
    as [chunks [Hchunks Hrun]].
  exists chunks. eexists. eexists.
  split; [exact Hchunks|]. split; [exact Hrun|]. split.
  - rewrite filter_flat_map.
    rewrite (flat_map_ext _ (fun _ => @nil event)); [apply flat_map_empty|].
    intros i. rewrite step_calls_only, extractAtLevel_callLLM.
    unfold callLLM. rewrite Hkey. reflexivity.
  - apply map_ext. intros i. rewrite chunkStep_entry, extractAtLevel_callLLM.
    unfold callLLM. rewrite Hkey. reflexivity.
Qed.

(** X14: with an API key [batchExtract] sends every chunk exactly once,
    in order: the requests of a run are, chunk by chunk, the prompt of the
    level, the separator and the chunk.  A level that is neither [meso] nor
    [macro] is taken as [micro], and the [meso] prompt names the marker
    type. *)
Theorem batchExtract_requests (fullText markerType extractionLevel : jsstring)
    (onProgress : bool) :
  truthyStr apiKey = true ->
  exists chunks trace results,
    chunkByMarker fullText markerType 1 = Some chunks
    /\ batchExtract microPrompt mesoPrompt macroPrompt JSON_parse apiKey fetch
         fullText markerType extractionLevel onProgress
       = Some (trace, results)
    /\ filter isLLMCall trace
       = map (fun i =>
                LLMCall (promptFor microPrompt mesoPrompt macroPrompt
                           extractionLevel markerType
                           ++ [newline; newline] ++ lit "---" ++ [newline; newline]
                           ++ nth i chunks []))
           (seq 0 (List.length chunks)).
Proof.
  intros Hkey.
  destruct (batchExtract_unfold microPrompt mesoPrompt macroPrompt JSON_parse apiKey
              fetch fullText markerType extractionLevel onProgress)
    as [chunks [Hchunks Hrun]].
  exists chunks. eexists. eexists.
  split; [exact Hchunks|]. split; [exact Hrun|].
  rewrite filter_flat_map, <- flat_map_singletons.
  apply flat_map_ext. intros i.
  rewrite step_calls_only, extractAtLevel_callLLM.
  unfold callLLM. rewrite Hkey. reflexivity.
Qed.

End BatchRequestFacts.

Lemma batchExtract_without_key_witness :
  SHNLiteCanvas.batchExtract (lit "micro") (fun _ => lit "meso") (lit "macro")
    (fun _ => Ok JNull) [] sampleFetch
    (lit "## [" ++ [cu_teon] ++ lit " 1] a" ++ lit "## [" ++ [cu_teon] ++ lit " 2] b")
    (lit "turn") (lit "micro") false
  = Some ([Delay 500],
          [SHNLiteCanvas.Failed 0 SHNLiteCanvas.msgNeedsLLM;
           SHNLiteCanvas.Failed 1 SHNLiteCanvas.msgNeedsLLM]).
Proof.
  destruct (batchExtract_without_key (lit "micro") (fun _ => lit "meso") (lit "macro")
              (fun _ => Ok JNull) [] sampleFetch
              (lit "## [" ++ [cu_teon] ++ lit " 1] a" ++ lit "## [" ++ [cu_teon] ++ lit " 2] b")
              (lit "turn") (lit "micro") false eq_refl)
    as [chunks [trace [results [_ [Hrun _]]]]].
  rewrite Hrun. vm_compute in Hrun. injection Hrun as <- <-. reflexivity.
Defined.

Lemma batchExtract_requests_witness :
  exists trace results,
    SHNLiteCanvas.batchExtract (lit "micro") (fun _ => lit "meso") (lit "macro")
      (fun _ => Ok JNull) (lit "key") sampleFetch
      (lit "## [" ++ [cu_teon] ++ lit " 1] a" ++ lit "## [" ++ [cu_teon] ++ lit " 2] b")
      (lit "turn") (lit "macro") false
    = Some (trace, results)
    /\ filter isLLMCall trace
       = [LLMCall (lit "macro" ++ [newline; newline] ++ lit "---" ++ [newline; newline]
                     ++ lit "## [" ++ [cu_teon] ++ lit " 1] a");
          LLMCall (lit "macro" ++ [newline; newline] ++ lit "---" ++ [newline; newline]
                     ++ lit "## [" ++ [cu_teon] ++ lit " 2] b")].
Proof.
  destruct (batchExtract_requests (lit "micro") (fun _ => lit "meso") (lit "macro")
              (fun _ => Ok JNull) (lit "key") sampleFetch
              (lit "## [" ++ [cu_teon] ++ lit " 1] a" ++ lit "## [" ++ [cu_teon] ++ lit " 2] b")
              (lit "turn") (lit "macro") false eq_refl)
    as [chunks [trace [results [Hchunks [Hrun Hcalls]]]]].
  exists trace, results. split; [exact Hrun|].
  rewrite Hcalls. vm_compute in Hchunks. injection Hchunks as <-. reflexivity.
Defined.

(** ** [runExtraction]: its grouping ends, and a block per turn *)

Section TurnFacts.
Import SHNCanvas.

(** X15: the batch size [runExtraction] works with is within 1 and 100
    whatever was typed into the prompt, so its grouping loop, which
    advances by the batch size, ends on every list of blocks. *)
Theorem runExtraction_grouping_ends :
  (forall s, (1 <= chunkSizeOf s <= 100)%Z)
  /\ (forall blocks s, exists chunks,
        chunksOf blocks (Z.to_nat (chunkSizeOf s)) = Some chunks).
Proof.
  split; [exact chunkSizeOf_range|].
  intros blocks s. unfold chunksOf.
  assert (1 <= Z.to_nat (chunkSizeOf s)) as Hn
    by (pose proof (chunkSizeOf_range s); lia).
  rewrite (groupLoop_total _ _ Hn). eexists. reflexivity.
Qed.

Lemma lookahead_Str (p s : jsstring) : lookahead (Str p) s = startsWith s p.
Proof.
  unfold lookahead, matchHere. rewrite matchRe_Str.
  destruct (startsWith s p); reflexivity.
Qed.

Lemma suffixes_app (x z : jsstring) :
  suffixes (x ++ z) = map (fun s => s ++ z) (suffixes x) ++ suffixes z.
Proof.
  induction x as [|c x IH]; [reflexivity|].
  cbn [app suffixes map]. rewrite IH. reflexivity.
Qed.

(** A pattern without a line break that starts before a line break ends
    before it. *)
Lemma startsWith_before_break (m : jsstring) :
  ~ In newline m ->
  forall x y, startsWith (x ++ newline :: y) m = startsWith x m.
Proof.
  induction m as [|c m IH]; intros Hm x y; [destruct x; reflexivity|].
  destruct x as [|d x]; cbn [app startsWith].
  - destruct (N.eqb_spec c newline) as [E | _]; [|reflexivity].
    exfalso. apply Hm. left. exact E.
  - rewrite IH by (intros H; apply Hm; right; exact H). reflexivity.
Qed.

Section Markers.
Variable m : jsstring.
Hypothesis m_no_break : ~ In newline m.
Hypothesis m_not_empty : m <> [].

Local Abbreviation test := (fun s => startsWith s m).

Lemma markerCount_break (y : jsstring) :
  markerCount test (newline :: y) = markerCount test y.
Proof.
  unfold markerCount. cbn [suffixes filter].
  destruct m as [|c m']; [contradiction|]. cbn [startsWith].
  destruct (N.eqb_spec c newline) as [E | _]; [|reflexivity].
  exfalso. apply m_no_break. left. exact E.
Qed.

Lemma markerCount_before_break (x y : jsstring) :
  markerCount test (x ++ newline :: y) = markerCount test x + markerCount test y.
Proof.
  assert (Hb := markerCount_break y).
  unfold markerCount in *. rewrite suffixes_app, filter_app, length_app.
  f_equal; [|exact Hb]. induction (suffixes x) as [|s l IH]; [reflexivity|].
  cbn [map filter]. rewrite (startsWith_before_break m m_no_break s y).
  destruct (startsWith s m); cbn [List.length]; rewrite IH; reflexivity.
Qed.

Lemma markerCount_joined (f : turn -> jsstring) (turns : list turn) :
  markerCount test (join [newline; newline] (map f turns))
  = list_sum (map (fun t => markerCount test (f t)) turns).
Proof.
  induction turns as [|t turns IH]; [reflexivity|].
  destruct turns as [|t' turns].
  - change (markerCount test (f t) = markerCount test (f t) + 0).
    symmetry. apply Nat.add_0_r.
  - change (join [newline; newline] (map f (t :: t' :: turns)))
      with (f t ++ newline :: newline :: join [newline; newline] (map f (t' :: turns))).
    rewrite markerCount_before_break, markerCount_break, IH. reflexivity.
Qed.


Lemma markerCount_at (a b : jsstring) :
  b <> [] -> startsWith b m = true -> 1 <= markerCount test (a ++ b).
Proof.
  intros Hb Ht. unfold markerCount. rewrite suffixes_app, filter_app, length_app.
  destruct b as [|c b]; [contradiction|]. cbn [suffixes filter].
  rewrite Ht. cbn [List.length]. lia.
Qed.

End Markers.

Lemma turnMarker_no_break : ~ In newline turnMarker.
Proof.
  intros H. cbn in H. repeat (destruct H as [H | H]; [discriminate|]). exact H.
Qed.

(** The text of every turn holds the turn marker. *)
Lemma turnText_marker (t : turn) :
  1 <= markerCount (fun s => startsWith s turnMarker) (turnText t).
Proof.
  unfold turnText.
  destruct (startsWith (trim (orElse (turn_content t) (orElse (turn_narrative t) [])))
              turnMarker) eqn:E.
  - destruct (trimStart_split (orElse (turn_content t) (orElse (turn_narrative t) [])))
      as [blank [Hsplit _]].
    destruct (trimEnd_prefix
                (trimStart (orElse (turn_content t) (orElse (turn_narrative t) []))))
      as [w Hw].
    rewrite Hsplit. apply markerCount_at.
    + intros Hnil. unfold trim in E. rewrite Hnil in E. discriminate.
    + rewrite Hw. apply startsWith_weaken. exact E.
  - apply (markerCount_at turnMarker [] _); [discriminate | reflexivity].
Qed.

Lemma markerCount_ext (f g : jsstring -> bool) (s : jsstring) :
  (forall x, f x = g x) -> markerCount f s = markerCount g s.
Proof.
  intros H. unfold markerCount. f_equal. apply filter_ext. exact H.
Qed.

Lemma blocks_of_turns (turns : list turn) :
  List.length (turnBlocks (allMarkdown turns))
  = list_sum (map (fun t => markerCount (lookahead (Str turnMarker)) (turnText t)) turns).
Proof.
  unfold turnBlocks.
  change (filter (fun b => truthyStr (trim b))) with (filter nonBlank).
  rewrite (split_count (lookahead (Str turnMarker)) turnMarker_head).
  rewrite allMarkdown_preamble, Nat.add_0_r.
  rewrite (markerCount_ext _ (fun s => startsWith s turnMarker))
    by (intros x; apply lookahead_Str).
  change (allMarkdown turns) with (join [newline; newline] (map turnText turns)).
  rewrite (markerCount_joined turnMarker turnMarker_no_break) by discriminate.
  f_equal. apply map_ext. intros t. apply markerCount_ext.
  intros x. symmetry. apply lookahead_Str.
Qed.

Lemma list_sum_ones (f : turn -> nat) (turns : list turn) :
  (forall t, In t turns -> f t = 1) -> list_sum (map f turns) = List.length turns.
Proof.
  induction turns as [|t turns IH]; intros H; [reflexivity|].
  change (list_sum (map f (t :: turns))) with (f t + list_sum (map f turns)).
  rewrite (H t (or_introl eq_refl)), IH; [reflexivity|].
  intros t' Ht'. apply H. right. exact Ht'.
Qed.

Lemma list_sum_at_least (f : turn -> nat) (turns : list turn) :
  (forall t, 1 <= f t) -> List.length turns <= list_sum (map f turns).
Proof.
  intros H. induction turns as [|t turns IH]; [reflexivity|].
  change (list_sum (map f (t :: turns))) with (f t + list_sum (map f turns)).
  cbn [List.length]. specialize (H t). lia.
Qed.

(** X16: every turn gives [runExtraction] at least one block, so no turn
    is left out, and when the text of each turn holds the turn marker
    once there is exactly one block per turn: a run over [k] turns with
    the batch size [n] then has [ceil (k / n)] chunks. *)
Theorem one_block_per_turn (turns : list turn) :
  let test := lookahead (Str turnMarker) in
  let blocks := turnBlocks (allMarkdown turns) in
  List.length turns <= List.length blocks
  /\ ((forall t, In t turns -> markerCount test (turnText t) = 1) ->
      List.length blocks = List.length turns
      /\ forall n, 1 <= n ->
           exists chunks,
             chunksOf blocks n = Some chunks
             /\ List.length chunks = ceilDiv (List.length turns) n).
Proof.
  cbn zeta. rewrite blocks_of_turns. split.
  - apply list_sum_at_least. intros t.
    rewrite (markerCount_ext _ (fun s => startsWith s turnMarker))
      by (intros x; apply lookahead_Str).
    apply turnText_marker.
  - intros Hone. split; [apply list_sum_ones; exact Hone|].
    intros n Hn. unfold chunksOf. rewrite (groupLoop_total _ _ Hn).
    eexists. split; [reflexivity|].
    rewrite length_map, length_seq, blocks_of_turns.
    rewrite (list_sum_ones _ turns Hone). reflexivity.
Qed.

Lemma one_block_per_turn_witness :
  exists chunks,
    chunksOf (turnBlocks (allMarkdown threeTurns)) 2 = Some chunks
    /\ List.length chunks = 2.
Proof.
  destruct (proj2 (one_block_per_turn threeTurns)) as [_ H].
  - intros t [<- | [<- | [<- | []]]]; vm_compute; reflexivity.
  - destruct (H 2) as [chunks [Hchunks Hlen]]; [lia|].
    exists chunks. split; [exact Hchunks | exact Hlen].
Defined.

End TurnFacts.

(** ** [convertHtmlToMarkdown]: the log of a turn is a block of its own *)

Section MarkdownFacts.
Import SHNCanvas.
Local Open Scope N_scope.

(** A greedy iteration runs to the end of a run of matching code units
    when the rest of the pattern matches there. *)
Lemma starGreedy_run {A} (p : codeUnit -> bool) (k : jsstring -> option A)
    (run tail : jsstring) (x : A) :
  forallb p run = true ->
  starGreedy p tail k = Some x ->
  starGreedy p (run ++ tail) k = Some x.
Proof.
  intros Hrun Htail. induction run as [|c run IH]; [exact Htail|].
  cbn [forallb] in Hrun. apply andb_prop in Hrun. destruct Hrun as [Hc Hrun].
  cbn [app starGreedy]. rewrite Hc, (IH Hrun). reflexivity.
Qed.

(** The heading of a turn, with the digits of its number, is a marker of
    the turn pattern of [chunkByMarker]. *)
Lemma heading_matches (d : codeUnit) (ds rest : jsstring) :
  isDigit d = true -> forallb isDigit ds = true ->
  lookahead SHNLiteCanvas.turnRe
    (turnMarker ++ lit " " ++ (d :: ds) ++ lit "]" ++ rest) = true.
Proof.
  intros Hd Hds.
  destruct (digit_plain d Hd) as [Hws _].
  unfold lookahead, matchHere, SHNLiteCanvas.turnRe.
  cbn [Seqs matchRe ChrI turnMarker lit list_ascii_of_string map app N_of_ascii].
  change (N.eqb (canonicalize 35) (canonicalize 35)) with true. cbn iota.
  cbn [starGreedy]. change (isWhiteSpace 32) with true. cbn iota.
  change (isWhiteSpace 91) with false. cbn iota.
  change (N.eqb (canonicalize 91) (canonicalize 91)) with true. cbn iota.
  change (N.eqb (canonicalize cu_teon) (canonicalize cu_teon)) with true. cbn iota.
  cbn [starGreedy]. change (isWhiteSpace 32) with true. cbn iota.
  rewrite Hws. unfold Plus. cbn [matchRe]. rewrite Hd.
  rewrite (starGreedy_run isDigit _ ds (93 :: rest) None Hds); [reflexivity|].
  cbn [starGreedy]. change (isDigit 93) with false. cbn iota.
  change (N.eqb (canonicalize 93) (canonicalize 93)) with true. reflexivity.
Qed.

Lemma Number_toString_digits (n : Z) :
  (0 <= n < 10 ^ 21)%Z ->
  exists d ds,
    Number_toString n = d :: ds /\ isDigit d = true /\ forallb isDigit ds = true.
Proof.
  intros Hn. unfold Number_toString.
  assert ((Z.abs n <? 10 ^ 21)%Z = true) as -> by (apply Z.ltb_lt; lia).
  assert ((n <? 0)%Z = false) as -> by (apply Z.ltb_ge; lia).
  apply decimal_shape.
Qed.

(** A prefix that ends in a code unit that is not white space outlasts
    trimming at the end. *)
Lemma startsWith_trimEnd (p : jsstring) :
  forall s,
    isWhiteSpace (last p 32) = false ->
    startsWith s p = true -> startsWith (trimEnd s) p = true.
Proof.
  induction p as [|c p IH]; intros s Hlast Hs; [discriminate|].
  destruct s as [|x s]; [discriminate|].
  cbn [startsWith] in Hs. apply andb_prop in Hs. destruct Hs as [Hc Hs].
  destruct p as [|c' p'].
  - cbn [last] in Hlast. apply N.eqb_eq in Hc. subst x.
    rewrite trimEnd_cons_keep by (right; exact Hlast).
    cbn [startsWith]. rewrite N.eqb_refl. reflexivity.
  - assert (startsWith (trimEnd s) (c' :: p') = true) as Hrec
      by (apply IH; [exact Hlast | exact Hs]).
    rewrite trimEnd_cons_keep.
    + cbn [startsWith]. rewrite Hc. exact Hrec.
    + left. intros Hnil. rewrite Hnil in Hrec. discriminate.
Qed.

(** X17: the log [convertHtmlToMarkdown] writes for turn [n] is a block
    of its own for both splitters.  It opens with two line breaks and the
    heading of the turn; [runExtraction] therefore takes a turn with this
    content as it is, adding no heading of its own, and when [n] is a
    number printed in plain digits the turn pattern of [chunkByMarker]
    matches at the heading too. *)
Theorem markdown_log_is_a_block (doc : parsedDocument) (n : Z) :
  let log := convertHtmlToMarkdown doc n in
  (exists rest,
     log = [newline; newline] ++ turnMarker ++ lit " " ++ Number_toString n
             ++ lit "]" ++ [newline; newline] ++ rest)
  /\ (forall t : turn, turn_content t = Some log -> turnText t = log)
  /\ lookahead (Str turnMarker) (skipn 2 log) = true
  /\ ((0 <= n < 10 ^ 21)%Z ->
      lookahead (SHNLiteCanvas.markerRe (lit "turn")) (skipn 2 log) = true).
Proof.
  cbn zeta. split; [|split; [|split]].
  - eexists. unfold convertHtmlToMarkdown. reflexivity.
  - intros t Ht. unfold turnText. rewrite Ht.
    assert (orElse (Some (convertHtmlToMarkdown doc n)) (orElse (turn_narrative t) [])
            = convertHtmlToMarkdown doc n) as -> by reflexivity.
    assert (startsWith (trim (convertHtmlToMarkdown doc n)) turnMarker = true)
      as ->; [|reflexivity].
    unfold trim. apply startsWith_trimEnd; reflexivity.
  - reflexivity.
  - intros Hn. destruct (Number_toString_digits n Hn) as [d [ds [E [Hd Hds]]]].
    unfold convertHtmlToMarkdown. rewrite E.
    change (SHNLiteCanvas.markerRe (lit "turn")) with SHNLiteCanvas.turnRe.
    cbn [skipn app].
    match goal with
    | |- lookahead _ ?s = true =>
        change s with (turnMarker ++ lit " " ++ (d :: ds) ++ lit "]"
                         ++ ([newline; newline]
                               ++ match header doc with
                                  | Some h =>
                                      match mainTitle h with
                                      | Some title =>
                                          lit "### @mainTitle: " ++ trim title ++ [newline]
                                      | None => []
                                      end
                                      ++ match subtitle h with
                                         | Some sub =>
                                             lit "### @mainSubtitle: " ++ trim sub
                                               ++ [newline]
                                         | None => []
                                         end
                                      ++ [newline]
                                  | None => []
                                  end
                               ++ flat_map sectionText (contentSections doc)))
    end.
    apply heading_matches; assumption.
Qed.

End MarkdownFacts.

(** ** The API settings: [setApiKey], [getApiKey] and [getApiConfig] *)

Section SettingsFacts.
Import SHNCanvas.

Lemma getProp_set_same (entries : list (jsstring * jsvalue)) (key : jsstring)
    (v : jsvalue) :
  str_eqb key (lit "__proto__") = false ->
  getProp (setProp entries key v) key = Some v.
Proof.
  intros H. unfold setProp. rewrite H. apply getProp_assign_same.
Qed.

Lemma getProp_set_other (entries : list (jsstring * jsvalue)) (key k : jsstring)
    (v : jsvalue) :
  str_eqb k key = false ->
  getProp (setProp entries key v) k = getProp entries k.
Proof.
  intros H. unfold setProp. destruct (str_eqb key (lit "__proto__")); [reflexivity|].
  apply getProp_assign_other. exact H.
Qed.

(** The preset after the two assignments of [setApiKey]. *)
Lemma updatePreset_done (preset updated : jsvalue) (apiKey model : jsstring) :
  updatePreset preset apiKey model = Some (Ok updated) ->
  optionalMember updated (lit "apiKey") = JString apiKey
  /\ optionalMember updated (lit "model") = JString model.
Proof.
  unfold updatePreset.
  destruct preset as [| |s|n|b|elements|iso|entries]; try discriminate.
  cbn [assignMember]. intros H. injection H as <-.
  cbn [optionalMember member]. split.
  - rewrite getProp_set_other by reflexivity.
    rewrite getProp_set_same by reflexivity. reflexivity.
  - rewrite getProp_set_same by reflexivity. reflexivity.
Qed.

Lemma orValue_string (s : jsstring) : orValue (JString s) (JString []) = JString s.
Proof.
  destruct s; reflexivity.
Qed.

Lemma orValue_model (model : option jsstring) :
  orValue (JString (match model with Some m => m | None => defaultModel end))
    (JString defaultModel)
  = JString (orElse model defaultModel).
Proof.
  destruct model as [[|c m]|]; reflexivity.
Qed.

(** What the getters read once the first preset is [preset]. *)
Lemma getters_read (out : list (jsstring * jsvalue)) (presets preset : jsvalue)
    (apiKey : jsstring) (model : option jsstring) :
  getProp out (lit "apiPresets") = Some presets ->
  truthy presets = true ->
  firstOf presets = preset ->
  optionalMember preset (lit "apiKey") = JString apiKey ->
  optionalMember preset (lit "model")
  = JString (match model with Some m => m | None => defaultModel end) ->
  getApiKey (JObject out) = JString apiKey
  /\ config_apiKey (getApiConfig (JObject out)) = JString apiKey
  /\ config_model (getApiConfig (JObject out)) = JString (orElse model defaultModel).
Proof.
  intros Hout Htruthy Hfirst Hkey Hmodel.
  unfold getApiKey, getApiConfig. cbn [member config_apiKey config_model].
  rewrite Hout.
  assert (orValue presets (JArray []) = presets) as ->
    by (unfold orValue; rewrite Htruthy; reflexivity).
  rewrite Hfirst, Hkey, Hmodel, orValue_string, orValue_model. repeat split.
Qed.

(** X18: what [setApiKey] sets, the getters read.  The call succeeds when
    the settings have no presets yet, an empty array of them, or an array
    whose first preset is an object; and whenever it succeeds,
    [getApiKey()] returns the key given, [getApiConfig()] that key and the
    model given (the default model when it is left out or empty), and
    every other entry of the settings is as before. *)
Theorem setApiKey_then_getApiConfig :
  (forall (settings : list (jsstring * jsvalue)) (apiKey : jsstring)
          (model : option jsstring),
      let presets := member (JObject settings) (lit "apiPresets") in
      truthy presets = false \/ presets = JArray []
      \/ (exists entries rest, presets = JArray (JObject entries :: rest)) ->
      exists out, setApiKey settings apiKey model = Some (Ok out))
  /\ (forall (settings out : list (jsstring * jsvalue)) (apiKey : jsstring)
             (model : option jsstring),
        setApiKey settings apiKey model = Some (Ok out) ->
        getApiKey (JObject out) = JString apiKey
        /\ config_apiKey (getApiConfig (JObject out)) = JString apiKey
        /\ config_model (getApiConfig (JObject out))
           = JString (orElse model defaultModel)
        /\ forall key, str_eqb key (lit "apiPresets") = false ->
             getProp out key = getProp settings key).
Proof.
  split.
  - intros settings apiKey model presets Hcases. unfold setApiKey.
    fold presets. destruct Hcases as [Hfalsy | [Hempty | [entries [rest Hfirst]]]].
    + rewrite Hfalsy. cbn [negb member].
      rewrite getProp_set_same by reflexivity. eexists. reflexivity.
    + rewrite Hempty. cbn [truthy negb]. fold presets. rewrite Hempty.
      eexists. reflexivity.
    + rewrite Hfirst. cbn [truthy negb]. fold presets. rewrite Hfirst.
      eexists. reflexivity.
  - intros settings out apiKey model. unfold setApiKey.
    set (model_ := match model with Some m => m | None => defaultModel end).
    set (settings1 :=
           if negb (truthy (member (JObject settings) (lit "apiPresets")))
           then setProp settings (lit "apiPresets") (JArray [])
           else settings).
    assert (forall key, str_eqb key (lit "apiPresets") = false ->
                        getProp settings1 key = getProp settings key) as Hkept.
    { intros key Hkey. unfold settings1.
      destruct (negb (truthy (member (JObject settings) (lit "apiPresets"))));
        [apply getProp_set_other; exact Hkey | reflexivity]. }
    intros Hset.
    assert (exists presets preset,
              out = setProp settings1 (lit "apiPresets") presets
              /\ truthy presets = true
              /\ firstOf presets = preset
              /\ optionalMember preset (lit "apiKey") = JString apiKey
              /\ optionalMember preset (lit "model") = JString model_) as Hout.
    { destruct (member (JObject settings1) (lit "apiPresets"))
        as [| |s|n|b|[|preset rest]|iso|entries]; try discriminate.
      - injection Hset as <-. eexists. eexists. split; [reflexivity|].
        repeat split.
      - destruct (updatePreset preset apiKey model_) as [[updated|e]|] eqn:Hup;
          try discriminate.
        injection Hset as <-. exists (JArray (updated :: rest)), updated.
        split; [reflexivity|]. split; [reflexivity|]. split; [reflexivity|].
        exact (updatePreset_done _ _ _ _ Hup).
      - destruct (match member (JObject entries) (lit "length") with
                  | JNumber (NumInt 0) => true
                  | _ => false
                  end) eqn:Hlen.
        + destruct (member (JObject entries) (lit "length")) as [| |s|[[| |]| | |]|b|l|iso|o];
            discriminate.
        + assert (match updatePreset (member (JObject entries) (lit "0")) apiKey model_ with
                  | Some (Ok preset) =>
                      Some (Ok (setProp settings1 (lit "apiPresets")
                                  (JObject (setProp entries (lit "0") preset))))
                  | Some (Throw e) => Some (Throw e)
                  | None => None
                  end = Some (Ok out)) as Hset'.
          { destruct (member (JObject entries) (lit "length"))
              as [| |s|[[| |]| | |]|b|l|iso|o]; try exact Hset; discriminate. }
          destruct (updatePreset (member (JObject entries) (lit "0")) apiKey model_)
            as [[updated|e]|] eqn:Hup; try discriminate.
          injection Hset' as <-.
          exists (JObject (setProp entries (lit "0") updated)), updated.
          split; [reflexivity|]. split; [reflexivity|]. split.
          * cbn [firstOf member]. rewrite getProp_set_same by reflexivity. reflexivity.
          * exact (updatePreset_done _ _ _ _ Hup). }
    destruct Hout as [presets [preset [-> [Htruthy [Hfirst [Hkey Hmodel]]]]]].
    destruct (getters_read (setProp settings1 (lit "apiPresets") presets) presets preset
                apiKey model
                (getProp_set_same settings1 (lit "apiPresets") presets eq_refl)
                Htruthy Hfirst Hkey Hmodel)
      as [H1 [H2 H3]].
    split; [exact H1|]. split; [exact H2|]. split; [exact H3|].
    intros key Hk. rewrite getProp_set_other by exact Hk. apply Hkept. exact Hk.
Qed.

Lemma setApiKey_then_getApiConfig_witness :
  exists out,
    setApiKey [(lit "theme", JString (lit "dark"))] (lit "k1") None = Some (Ok out)
    /\ getApiKey (JObject out) = JString (lit "k1")
    /\ config_model (getApiConfig (JObject out)) = JString defaultModel
    /\ getProp out (lit "theme") = Some (JString (lit "dark")).
Proof.
  destruct (proj1 setApiKey_then_getApiConfig [(lit "theme", JString (lit "dark"))]
              (lit "k1") None (or_introl eq_refl)) as [out Hset].
  destruct (proj2 setApiKey_then_getApiConfig _ out (lit "k1") None Hset)
    as [Hkey [_ [Hmodel Hkept]]].
  exists out. split; [exact Hset|]. split; [exact Hkey|]. split; [exact Hmodel|].
  rewrite (Hkept (lit "theme") eq_refl). reflexivity.
Defined.

End SettingsFacts.

(** ** The stored configuration: [loadConfig], [initFirebase] and [saveExtractedData] *)

Section ConfigFacts.
Import SHNLiteCanvas.
Variable JSON_parse : jsstring -> result jsvalue.
Variable String_ : jsvalue -> jsstring.

(** X19: a client without a stored configuration sends nothing.  When
    nothing is stored, or what is stored is not JSON, [loadConfig] gives
    the empty object, [initFirebase] returns [false] and leaves no
    configuration, [saveExtractedData] throws before any request,
    [firestoreGet] throws that the settings are needed, and the JSON-mode
    [callLLM] throws that the LLM settings are needed without a
    request. *)
Theorem unconfigured_client_sends_nothing (stored : option jsstring) :
  (stored = None /\ JSON_parse (lit "null") = Ok JNull)
  \/ (exists s e, stored = Some s /\ JSON_parse s = Throw e) ->
  loadConfig JSON_parse stored = JObject []
  /\ initFirebase JSON_parse stored = (JNull, false)
  /\ (forall now fetch_ sessionId extractedData extractionType,
        saveExtractedData JSON_parse String_ JNull stored now fetch_ sessionId
          extractedData extractionType
        = (JNull, None, Throw msgNeedsConnection))
  /\ (forall fetched_,
        firestoreGet (projectIdOf String_ (fst (initFirebase JSON_parse stored))) fetched_
        = Throw msgNeedsConfig)
  /\ (forall parse fetch n prompt content_,
        callLLM parse (llmKeyOf String_ (getLLMConfig JSON_parse stored)) fetch n
          prompt content_
        = ([], Throw msgNeedsLLM)).
Proof.
  intros Hstored.
  assert (loadConfig JSON_parse stored = JObject []) as Hload.
  { unfold loadConfig. destruct Hstored as [[-> Hnull] | [s [e [-> Hs]]]].
    - rewrite Hnull. reflexivity.
    - rewrite Hs. reflexivity. }
  assert (initFirebase JSON_parse stored = (JNull, false)) as Hinit.
  { unfold initFirebase, getFirebaseConfig. rewrite Hload. reflexivity. }
  split; [exact Hload|]. split; [exact Hinit|]. split; [|split].
  - intros now fetch_ sessionId extractedData extractionType.
    unfold saveExtractedData. cbn [truthy]. rewrite Hinit. reflexivity.
  - intros fetched_. rewrite Hinit. reflexivity.
  - intros parse fetch n prompt content_.
    unfold getLLMConfig. rewrite Hload. reflexivity.
Qed.

(** What [saveExtractedData] hands to [firestoreSet]. *)
Lemma extraction_fields (now sessionId extractionType : jsstring) (data : jsvalue) :
  fieldsOf now [(lit "sessionId", JString sessionId);
                (lit "extractionType", JString extractionType);
                (lit "data", data);
                (lit "extractedAt", serverTimestamp)]
  = [(lit "sessionId", stringValue sessionId);
     (lit "extractionType", stringValue extractionType);
     (lit "data", convertToFirestoreValue now data);
     (lit "extractedAt", timestampValue now)].
Proof.
  reflexivity.
Qed.

Lemma getFirestoreUrl_document (projectId collectionPath docId : jsstring) :
  truthyStr projectId = true ->
  truthyStr docId = true ->
  getFirestoreUrl (Some projectId) collectionPath (Some docId)
  = Some (lit "https://firestore.googleapis.com/v1/projects/" ++ projectId
            ++ lit "/databases/(default)/documents/" ++ collectionPath
            ++ lit "/" ++ docId).
Proof.
  intros Hp Hd. unfold getFirestoreUrl, orElse. rewrite Hp, Hd. cbn iota.
  rewrite Hp, Hd. cbn [negb]. rewrite <- !app_assoc. reflexivity.
Qed.

(** A call of [saveExtractedData] that gets as far as [firestoreSet],
    with a project configured. *)
Lemma saveExtractedData_sends (fb : list (jsstring * jsvalue)) (state : jsvalue)
    (stored : option jsstring) (projectId now sessionId : jsstring)
    (fetch_ : patchRequest -> fetched storeResponse) (data : jsvalue)
    (extractionType : option jsstring) :
  (if truthy state then (state, true) else initFirebase JSON_parse stored)
  = (JObject fb, true) ->
  getProp fb (lit "projectId") = Some (JString projectId) ->
  truthyStr projectId = true ->
  exists outcome,
    saveExtractedData JSON_parse String_ state stored now fetch_ sessionId data
      extractionType
    = (JObject fb,
       Some {| patch_url :=
                 extractionUrl projectId sessionId
                   (match extractionType with Some t => t | None => lit "micro" end)
                   (toText String_ (member (JObject fb) (lit "apiKey")));
               patch_fields :=
                 [(lit "sessionId", stringValue sessionId);
                  (lit "extractionType",
                   stringValue (match extractionType with
                                | Some t => t
                                | None => lit "micro"
                                end));
                  (lit "data", convertToFirestoreValue now data);
                  (lit "extractedAt", timestampValue now)] |},
       outcome).
Proof.
  intros Hstate Hpid Htruthy. unfold saveExtractedData. rewrite Hstate.
  cbn [snd fst negb].
  assert (projectIdOf String_ (JObject fb) = Some projectId) as Hproject.
  { unfold projectIdOf. cbn [optionalMember member]. rewrite Hpid.
    cbn [truthy toText]. rewrite Htruthy. reflexivity. }
  assert (truthyStr (sessionId ++ lit "_"
                       ++ match extractionType with Some t => t | None => lit "micro" end)
          = true) as Hdoc by (destruct sessionId; reflexivity).
  unfold firestoreSet. rewrite Hproject.
  rewrite (getFirestoreUrl_document _ _ _ Htruthy Hdoc), extraction_fields.
  eexists. unfold extractionUrl. rewrite <- !app_assoc. reflexivity.
Qed.

(** X20: with a project id and an API key stored, [saveExtractedData]
    sends its request whether the client was initialised before or not:
    a PATCH of the document [extractions/<sessionId>_<type>] (the type
    [micro] when none is given) of the project, with the key, carrying the
    four fields [sessionId], [extractionType], [data] (converted) and
    [extractedAt], the time of the call. *)
Theorem saveExtractedData_request (stored : option jsstring)
    (fb : list (jsstring * jsvalue)) (apiKey projectId now sessionId : jsstring)
    (fetch_ : patchRequest -> fetched storeResponse) (data : jsvalue)
    (extractionType : option jsstring) (state : jsvalue) :
  getFirebaseConfig JSON_parse stored = JObject fb ->
  getProp fb (lit "apiKey") = Some (JString apiKey) ->
  truthyStr apiKey = true ->
  getProp fb (lit "projectId") = Some (JString projectId) ->
  truthyStr projectId = true ->
  state = JNull \/ state = JObject fb ->
  let extractionType_ :=
    match extractionType with Some t => t | None => lit "micro" end in
  exists outcome,
    saveExtractedData JSON_parse String_ state stored now fetch_ sessionId data
      extractionType
    = (JObject fb,
       Some {| patch_url := extractionUrl projectId sessionId extractionType_ apiKey;
               patch_fields :=
                 [(lit "sessionId", stringValue sessionId);
                  (lit "extractionType", stringValue extractionType_);
                  (lit "data", convertToFirestoreValue now data);
                  (lit "extractedAt", timestampValue now)] |},
       outcome).
Proof.
  intros Hfb Hkey Hkt Hpid Hpt Hstate extractionType_.
  destruct (saveExtractedData_sends fb state stored projectId now sessionId fetch_ data
              extractionType) as [outcome Hsent].
  - destruct Hstate as [-> | ->]; [|reflexivity].
    cbn [truthy]. unfold initFirebase. rewrite Hfb. cbn [truthy member andb].
    rewrite Hkey, Hpid. cbn [truthy]. rewrite Hkt, Hpt. reflexivity.
  - exact Hpid.
  - exact Hpt.
  - exists outcome. rewrite Hsent. cbn [member]. rewrite Hkey. reflexivity.
Qed.

(** X21: [initFirebase] keeps the configuration it turns down.  With a
    project id stored but no API key it returns [false] and still leaves
    the configuration in place; so a first [saveExtractedData] throws that
    a connection is needed and sends nothing, and a second one, finding a
    configuration, sends its request, with the missing key printed into
    the URL. *)
Theorem saveExtractedData_incomplete_config (stored : option jsstring)
    (fb : list (jsstring * jsvalue)) (projectId now sessionId : jsstring)
    (fetch_ : patchRequest -> fetched storeResponse) (data : jsvalue)
    (extractionType : option jsstring) :
  getFirebaseConfig JSON_parse stored = JObject fb ->
  truthy (member (JObject fb) (lit "apiKey")) = false ->
  getProp fb (lit "projectId") = Some (JString projectId) ->
  truthyStr projectId = true ->
  initFirebase JSON_parse stored = (JObject fb, false)
  /\ saveExtractedData JSON_parse String_ JNull stored now fetch_ sessionId data
       extractionType
     = (JObject fb, None, Throw msgNeedsConnection)
  /\ exists request outcome,
       saveExtractedData JSON_parse String_ (JObject fb) stored now fetch_ sessionId
         data extractionType
       = (JObject fb, Some request, outcome)
       /\ patch_url request
          = extractionUrl projectId sessionId
              (match extractionType with Some t => t | None => lit "micro" end)
              (toText String_ (member (JObject fb) (lit "apiKey"))).
Proof.
  intros Hfb Hkey Hpid Hpt.
  assert (initFirebase JSON_parse stored = (JObject fb, false)) as Hinit.
  { unfold initFirebase. rewrite Hfb, Hkey. reflexivity. }
  split; [exact Hinit|]. split.
  - unfold saveExtractedData. cbn [truthy]. rewrite Hinit. reflexivity.
  - destruct (saveExtractedData_sends fb (JObject fb) stored projectId now sessionId
                fetch_ data extractionType eq_refl Hpid Hpt) as [outcome Hsent].
    eexists. exists outcome. split; [exact Hsent | reflexivity].
Qed.

End ConfigFacts.

Lemma unconfigured_client_sends_nothing_witness :
  SHNLiteCanvas.saveExtractedData parseNothing (fun _ => []) JNull None (lit "now")
    (fun _ => Rejected []) (lit "s1") (JArray []) None
  = (JNull, None, Throw SHNLiteCanvas.msgNeedsConnection).
Proof.
  exact (proj1 (proj2 (proj2 (unconfigured_client_sends_nothing parseNothing
                                (fun _ => []) None (or_introl (conj eq_refl eq_refl)))))
           (lit "now") (fun _ => Rejected []) (lit "s1") (JArray []) None).
Defined.

Lemma saveExtractedData_request_witness :
  exists outcome,
    SHNLiteCanvas.saveExtractedData parseComplete (fun _ => []) JNull None (lit "now")
      (fun _ => Rejected []) (lit "s1") (JArray []) None
    = (JObject [(lit "apiKey", JString (lit "k")); (lit "projectId", JString (lit "p"))],
       Some {| SHNLiteCanvas.patch_url :=
                 extractionUrl (lit "p") (lit "s1") (lit "micro") (lit "k");
               SHNLiteCanvas.patch_fields :=
                 [(lit "sessionId", SHNLiteCanvas.stringValue (lit "s1"));
                  (lit "extractionType", SHNLiteCanvas.stringValue (lit "micro"));
                  (lit "data", SHNLiteCanvas.arrayValue (Some []));
                  (lit "extractedAt", SHNLiteCanvas.timestampValue (lit "now"))] |},
       outcome).
Proof.
  exact (saveExtractedData_request parseComplete (fun _ => []) None
           [(lit "apiKey", JString (lit "k")); (lit "projectId", JString (lit "p"))]
           (lit "k") (lit "p") (lit "now") (lit "s1") (fun _ => Rejected []) (JArray [])
           None JNull eq_refl eq_refl eq_refl eq_refl eq_refl (or_introl eq_refl)).
Defined.

Lemma saveExtractedData_incomplete_config_witness :
  exists request outcome,
    SHNLiteCanvas.saveExtractedData parseKeyless (fun _ => [])
      (JObject [(lit "projectId", JString (lit "p"))]) None (lit "now")
      (fun _ => Rejected []) (lit "s1") (JArray []) None
    = (JObject [(lit "projectId", JString (lit "p"))], Some request, outcome)
    /\ SHNLiteCanvas.patch_url request
       = extractionUrl (lit "p") (lit "s1") (lit "micro") (lit "undefined").
Proof.
  exact (proj2 (proj2 (saveExtractedData_incomplete_config parseKeyless (fun _ => [])
                         None [(lit "projectId", JString (lit "p"))] (lit "p") (lit "now")
                         (lit "s1") (fun _ => Rejected []) (JArray []) None
                         eq_refl eq_refl eq_refl eq_refl))).
Defined.

(** ** Responses without text, and the session list *)

Section ResponseFacts.

(** X22: what the two [callLLM] make of a successful response that lacks
    text.  The text-mode one throws that the response is malformed when
    [candidates], its first element or that one's [content] is missing,
    and returns the empty string when the content has no [parts]; the
    JSON-mode one parses the text of an empty object whenever any link
    down to the text of the first part is missing or that text is empty. *)
Theorem responses_without_text :
  (forall (key : jsstring) (respond : jsstring -> fetched llmResponse)
          (userMessage systemPrompt : jsstring) (response : llmResponse)
          (data : generation),
      truthyStr key = true ->
      respond (SHNCanvas.fullPrompt systemPrompt userMessage) = Responded response ->
      ok (llm_status response) = true ->
      llm_json response = Some data ->
      let out := snd (SHNCanvas.callLLM key respond userMessage systemPrompt) in
      (candidates data = None \/ candidates data = Some []
       \/ (exists others,
             candidates data = Some ({| candidate_content := None |} :: others)) ->
       out = Throw SHNCanvas.msgBadShape)
      /\ (forall others,
            candidates data
            = Some ({| candidate_content := Some {| parts := None |} |} :: others) ->
            out = Ok []))
  /\ (forall (JSON_parse : jsstring -> result jsvalue) (key : jsstring)
             (fetch : nat -> jsstring -> fetched llmResponse) (n : nat)
             (prompt content_ : jsstring) (response : llmResponse) (data : generation),
        truthyStr key = true ->
        fetch n (prompt ++ [newline; newline] ++ lit "---" ++ [newline; newline]
                   ++ content_) = Responded response ->
        ok (llm_status response) = true ->
        llm_json response = Some data ->
        SHNLiteCanvas.firstText data = None \/ SHNLiteCanvas.firstText data = Some [] ->
        snd (SHNLiteCanvas.callLLM JSON_parse key fetch n prompt content_)
        = JSON_parse (lit "{}")).
Proof.
  split.
  - intros key respond userMessage systemPrompt response data Hkey Hresp Hok Hjson out.
    subst out. unfold SHNCanvas.callLLM. rewrite Hkey. cbn [negb snd].
    rewrite Hresp, Hok, Hjson. cbn [negb]. split.
    + intros [-> | [-> | [others ->]]]; reflexivity.
    + intros others ->. reflexivity.
  - intros JSON_parse key fetch n prompt content_ response data Hkey Hresp Hok Hjson
           Htext.
    unfold SHNLiteCanvas.callLLM. rewrite Hkey. cbn [negb snd].
    rewrite Hresp, Hok, Hjson. cbn [negb].
    destruct Htext as [-> | ->]; reflexivity.
Qed.

End ResponseFacts.

Section SessionListFacts.
Import SHNCanvas.

Lemma getProp_filled (data : list (jsstring * jsvalue)) :
  forall (entries : list (jsstring * jsvalue)) (key : jsstring),
    distinct (map fst data) = true ->
    getProp (fold_left (fun e kv => assign e (fst kv) (snd kv)) data entries) key
    = match getProp data key with
      | Some v => Some v
      | None => getProp entries key
      end.
Proof.
  induction data as [|[k v] data IH]; intros entries key Hd; [reflexivity|].
  cbn [map fst distinct] in Hd. apply andb_prop in Hd. destruct Hd as [Hk Hd].
  apply negb_true_iff in Hk.
  cbn [fold_left fst snd getProp]. rewrite (IH _ _ Hd).
  destruct (str_eqb k key) eqn:E.
  - apply str_eqb_eq in E. subst key.
    assert (getProp data k = None) as ->.
    { clear -Hk. induction data as [|[k' v'] data IH]; [reflexivity|].
      cbn [map fst existsb] in Hk. apply orb_false_elim in Hk.
      destruct Hk as [Hk' Hk]. cbn [getProp]. rewrite str_eqb_sym, Hk'.
      exact (IH Hk). }
    apply getProp_assign_same.
  - destruct (getProp data key); [reflexivity|].
    apply getProp_assign_other. rewrite str_eqb_sym. exact E.
Qed.

(** X23: the entries of the session list.  [loadSessions] returns, and
    caches, one entry per document in the order of the query; an entry
    has every field of the document's data, and its [id] is the document
    id unless the data has a field [id] of its own, which then takes its
    place.  Without Firestore, or when the query fails, it returns the
    empty list and leaves the cache as it was. *)
Theorem loadSessions_entries :
  (forall (cache : list jsvalue)
          (query : result (list (jsstring * list (jsstring * jsvalue)))),
      loadSessions false query cache = ([], cache))
  /\ (forall (cache : list jsvalue) (e : jsstring),
        loadSessions true (Throw e) cache = ([], cache))
  /\ (forall (cache : list jsvalue)
             (docs : list (jsstring * list (jsstring * jsvalue))),
        exists sessions,
          loadSessions true (Ok docs) cache = (sessions, sessions)
          /\ List.length sessions = List.length docs
          /\ forall i docId data,
               nth_error docs i = Some (docId, data) ->
               distinct (map fst data) = true ->
               exists entries,
                 nth_error sessions i = Some (JObject entries)
                 /\ getProp entries (lit "id")
                    = Some (match getProp data (lit "id") with
                            | Some own => own
                            | None => JString docId
                            end)
                 /\ forall key v, getProp data key = Some v ->
                                  getProp entries key = Some v).
Proof.
  split; [reflexivity|]. split; [reflexivity|].
  intros cache docs. eexists. split; [reflexivity|].
  split; [apply length_map|].
  intros i docId data Hi Hd. rewrite nth_error_map, Hi. cbn [option_map].
  unfold sessionEntry. cbn [fst snd]. eexists. split; [reflexivity|]. split.
  - rewrite (getProp_filled data _ _ Hd).
    destruct (getProp data (lit "id")); reflexivity.
  - intros key v Hv. rewrite (getProp_filled data _ _ Hd), Hv. reflexivity.
Qed.

End SessionListFacts.

(** ** The headings [chunkByMarker] splits at *)

Section HeadingFacts.
Import SHNLiteCanvas.
Local Open Scope N_scope.

Lemma matchRe_ChrI {A} (c x : codeUnit) (s : jsstring) (cap : option jsstring)
    (k : jsstring -> option jsstring -> option A) :
  canonicalize x = canonicalize c ->
  matchRe (ChrI c) (x :: s) cap k = k s cap.
Proof.
  intros H. cbn [matchRe ChrI]. rewrite H, N.eqb_refl. reflexivity.
Qed.

Lemma matchRe_StrI {A} (w : jsstring) :
  forall (w' s : jsstring) (cap : option jsstring)
         (k : jsstring -> option jsstring -> option A),
    map canonicalize w' = map canonicalize w ->
    matchRe (StrI w) (w' ++ s) cap k = k s cap.
Proof.
  induction w as [|c w IH]; intros w' s cap k H; destruct w' as [|x w'];
    try discriminate; [reflexivity|].
  cbn [map] in H. injection H as Hx Hw.
  cbn [StrI app]. change (matchRe (Seq (ChrI c) (StrI w)) (x :: w' ++ s) cap k)
    with (matchRe (ChrI c) (x :: w' ++ s) cap (fun s1 cap1 => matchRe (StrI w) s1 cap1 k)).
  rewrite (matchRe_ChrI c x _ _ _ Hx). apply IH. exact Hw.
Qed.

(** A greedy iteration over a run that ends before a code unit outside
    the class. *)
Lemma starGreedy_then {A} (p : codeUnit -> bool) (k : jsstring -> option A)
    (run : jsstring) (c : codeUnit) (tail : jsstring) (x : A) :
  forallb p run = true ->
  p c = false ->
  k (c :: tail) = Some x ->
  starGreedy p (run ++ c :: tail) k = Some x.
Proof.
  intros Hrun Hc Hk. apply starGreedy_run; [exact Hrun|].
  cbn [starGreedy]. rewrite Hc. exact Hk.
Qed.

(** The end of the three patterns: separators, digits, a closing
    bracket. *)
Lemma heading_end (p : codeUnit -> bool) (sep : jsstring) (d : codeUnit)
    (ds rest : jsstring) (cap : option jsstring) :
  forallb p sep = true -> p d = false ->
  isDigit d = true -> forallb isDigit ds = true ->
  matchRe (Seqs [Star p; Plus isDigit; ChrI 93]) (sep ++ d :: ds ++ 93 :: rest) cap
    (fun _ c => Some c)
  = Some cap.
Proof.
  intros Hsep Hpd Hd Hds. cbn [Seqs matchRe].
  apply starGreedy_then; [exact Hsep | exact Hpd|].
  unfold Plus. cbn [matchRe]. rewrite Hd.
  apply starGreedy_then; [exact Hds | reflexivity|]. reflexivity.
Qed.

Lemma digit_no_separator (d : codeUnit) :
  isDigit d = true -> (N.eqb d 58 || isWhiteSpace d)%bool = false.
Proof.
  intros Hd. destruct (digit_plain d Hd) as [Hws _]. rewrite Hws, orb_false_r.
  unfold isDigit in Hd. apply andb_prop in Hd. destruct Hd as [_ Hle].
  apply N.leb_le in Hle. apply N.eqb_neq. lia.
Qed.

(** A code unit that reads as the letter [c] whatever its case is no
    white space. *)
Lemma letter_not_white (x c : codeUnit) :
  65 <= c <= 90 -> canonicalize x = canonicalize c -> isWhiteSpace x = false.
Proof.
  intros Hc H. unfold canonicalize in H.
  destruct ((97 <=? c) && (c <=? 122))%bool eqn:Ec.
  { apply andb_prop in Ec. destruct Ec as [E _]. apply N.leb_le in E. lia. }
  assert (x = c \/ x = c + 32) as Hx.
  { destruct ((97 <=? x) && (x <=? 122))%bool eqn:Ex; [|left; exact H].
    apply andb_prop in Ex. destruct Ex as [E _]. apply N.leb_le in E. right. lia. }
  unfold isWhiteSpace.
  destruct Hx as [-> | ->];
    repeat match goal with
           | |- context [?a <=? ?b] =>
               destruct (N.leb_spec a b); try lia
           | |- context [?a =? ?b] =>
               destruct (N.eqb_spec a b); try lia
           end; reflexivity.
Qed.

(** A bracketed heading: the opening bracket, the sign, white space, the
    word in either language, separators, digits, the closing bracket. *)
Lemma bracketed_heading (sign : jsstring) (e : codeUnit) (english : jsstring)
    (c : codeUnit) (korean : jsstring)
    (white word sep : jsstring) (d : codeUnit) (ds rest : jsstring) :
  65 <= e <= 90 ->
  isWhiteSpace c = false ->
  N.eqb (canonicalize c) (canonicalize e) = false ->
  map canonicalize word = map canonicalize (e :: english) \/ word = c :: korean ->
  forallb isWhiteSpace white = true ->
  forallb (fun c => N.eqb c 58 || isWhiteSpace c)%bool sep = true ->
  isDigit d = true -> forallb isDigit ds = true ->
  lookahead
    (Seqs [ChrI 91; StrI sign; Star isWhiteSpace;
           Alt (StrI (e :: english)) (StrI (c :: korean));
           Star (fun c => N.eqb c 58 || isWhiteSpace c)%bool;
           Plus isDigit; ChrI 93])
    (91 :: sign ++ white ++ word ++ sep ++ d :: ds ++ 93 :: rest) = true.
Proof.
  intros He Hc Hdiff Hword Hwhite Hsep Hd Hds.
  assert (forall cap,
            matchRe (Seqs [Star (fun c => N.eqb c 58 || isWhiteSpace c)%bool;
                           Plus isDigit; ChrI 93])
              (sep ++ d :: ds ++ 93 :: rest) cap (fun _ c => Some c)
            = Some cap) as Hend.
  { intros cap. apply heading_end; try assumption. apply digit_no_separator. exact Hd. }
  assert (exists x word', word = x :: word' /\ isWhiteSpace x = false) as Hhead.
  { destruct Hword as [Hen | ->].
    - destruct word as [|x word']; [discriminate|].
      exists x, word'. split; [reflexivity|].
      cbn [map] in Hen. injection Hen as Hx _.
      exact (letter_not_white x e He Hx).
    - exists c, korean. split; [reflexivity | exact Hc]. }
  destruct Hhead as [x [word' [Eword Hx]]].
  unfold lookahead, matchHere.
  change (Seqs [ChrI 91; StrI sign; Star isWhiteSpace;
                Alt (StrI (e :: english)) (StrI (c :: korean));
                Star (fun c => N.eqb c 58 || isWhiteSpace c)%bool;
                Plus isDigit; ChrI 93])
    with (Seq (ChrI 91)
            (Seq (StrI sign)
               (Seq (Star isWhiteSpace)
                  (Seq (Alt (StrI (e :: english)) (StrI (c :: korean)))
                     (Seqs [Star (fun c => N.eqb c 58 || isWhiteSpace c)%bool;
                            Plus isDigit; ChrI 93]))))).
  cbn [matchRe]. rewrite (matchRe_ChrI 91 91) by reflexivity.
  rewrite matchRe_StrI by reflexivity.
  assert (match matchRe (StrI (e :: english)) (word ++ sep ++ d :: ds ++ 93 :: rest) None
                  (fun s1 cap1 =>
                     matchRe (Seqs [Star (fun c => N.eqb c 58 || isWhiteSpace c)%bool;
                                    Plus isDigit; ChrI 93]) s1 cap1
                       (fun _ cap => Some cap))
          with
          | Some y => Some y
          | None =>
              matchRe (StrI (c :: korean)) (word ++ sep ++ d :: ds ++ 93 :: rest) None
                (fun s1 cap1 =>
                   matchRe (Seqs [Star (fun c => N.eqb c 58 || isWhiteSpace c)%bool;
                                  Plus isDigit; ChrI 93]) s1 cap1
                     (fun _ cap => Some cap))
          end = Some None) as Halt.
  { destruct Hword as [Hen | ->].
    - rewrite (matchRe_StrI (e :: english) word _ _ _ Hen), Hend. reflexivity.
    - assert (matchRe (StrI (e :: english))
                ((c :: korean) ++ sep ++ d :: ds ++ 93 :: rest) None
                (fun s1 cap1 =>
                   matchRe (Seqs [Star (fun c => N.eqb c 58 || isWhiteSpace c)%bool;
                                  Plus isDigit; ChrI 93]) s1 cap1
                     (fun _ cap => Some cap)) = None) as ->.
      { cbn [StrI app matchRe ChrI]. rewrite Hdiff. reflexivity. }
      rewrite (matchRe_StrI (c :: korean) (c :: korean) _ _ _ eq_refl), Hend.
      reflexivity. }
  rewrite Eword in *. cbn [app].
  erewrite starGreedy_then; [reflexivity | exact Hwhite | exact Hx|].
  exact Halt.
Qed.

(** X24: the headings [chunkByMarker] splits at.  With any white space
    where the patterns allow it and a number of one digit or more, the
    turn pattern matches at [##], white space, [[], the turn syllable, white
    space, the number and []]; the day pattern at [[], the calendar sign,
    white space, the word Day in any case or its Korean word, colons or
    white space, the number and []]; the episode pattern likewise with
    the book sign and the word Episode or its Korean word. *)
Theorem headings_are_markers (white sep : jsstring) (d : codeUnit)
    (ds rest : jsstring) :
  forallb isWhiteSpace white = true ->
  isDigit d = true ->
  forallb isDigit ds = true ->
  (forallb isWhiteSpace sep = true ->
   lookahead (markerRe (lit "turn"))
     (lit "##" ++ white ++ lit "[" ++ [cu_teon] ++ sep ++ d :: ds ++ lit "]" ++ rest)
   = true)
  /\ (forallb (fun c => N.eqb c 58 || isWhiteSpace c)%bool sep = true ->
      forall word,
        map canonicalize word = map canonicalize (lit "Day")
        \/ word = [cu_nal; cu_jja] ->
        lookahead (markerRe (lit "day"))
          (lit "[" ++ calendar_emoji ++ white ++ word ++ sep ++ d :: ds ++ lit "]"
             ++ rest)
        = true)
  /\ (forallb (fun c => N.eqb c 58 || isWhiteSpace c)%bool sep = true ->
      forall word,
        map canonicalize word = map canonicalize (lit "Episode")
        \/ word = [cu_e; cu_pi; cu_so; cu_deu] ->
        lookahead (markerRe (lit "episode"))
          (lit "[" ++ book_emoji ++ white ++ word ++ sep ++ d :: ds ++ lit "]"
             ++ rest)
        = true).
Proof.
  intros Hwhite Hd Hds. split; [|split].
  - intros Hsep.
    change (markerRe (lit "turn")) with turnRe.
    unfold lookahead, matchHere, turnRe.
    change (Seqs [ChrI 35; ChrI 35; Star isWhiteSpace; ChrI 91; ChrI cu_teon;
                  Star isWhiteSpace; Plus isDigit; ChrI 93])
      with (Seq (ChrI 35)
              (Seq (ChrI 35)
                 (Seq (Star isWhiteSpace)
                    (Seq (ChrI 91)
                       (Seq (ChrI cu_teon)
                          (Seqs [Star isWhiteSpace; Plus isDigit; ChrI 93])))))).
    change (lit "##" ++ white ++ lit "[" ++ [cu_teon] ++ sep ++ d :: ds ++ lit "]" ++ rest)
      with (35 :: 35 :: white ++ 91 :: cu_teon :: sep ++ d :: ds ++ 93 :: rest).
    cbn [matchRe]. rewrite !(matchRe_ChrI 35 35) by reflexivity.
    erewrite starGreedy_then; [reflexivity | exact Hwhite | reflexivity|].
    rewrite (matchRe_ChrI 91 91), (matchRe_ChrI cu_teon cu_teon) by reflexivity.
    apply heading_end; try assumption.
    destruct (digit_plain d Hd) as [Hws _]. exact Hws.
  - intros Hsep word Hword.
    exact (bracketed_heading calendar_emoji 68 (lit "ay") cu_nal [cu_jja]
             white word sep d ds rest ltac:(lia) eq_refl eq_refl Hword Hwhite Hsep
             Hd Hds).
  - intros Hsep word Hword.
    exact (bracketed_heading book_emoji 69 (lit "pisode") cu_e [cu_pi; cu_so; cu_deu]
             white word sep d ds rest ltac:(lia) eq_refl eq_refl Hword Hwhite Hsep
             Hd Hds).
Qed.

Lemma headings_are_markers_witness :
  lookahead (markerRe (lit "day"))
    (lit "[" ++ calendar_emoji ++ lit " DAY: 3] morning") = true.
Proof.
  exact (proj1 (proj2 (headings_are_markers (lit " ") (lit ": ") 51 [] (lit " morning")
                         eq_refl eq_refl eq_refl))
           eq_refl (lit "DAY") (or_introl eq_refl)).
Defined.

End HeadingFacts.

(** ** Settings that hold no key *)

Section FallbackFacts.
Import SHNCanvas.

(** X25: without stored settings there is no key, and no call.  When the
    settings document does not exist, cannot be read, or holds no
    [userApiSettings], [loadUserSettingsFromFirebase] leaves settings for
    which [getApiKey()] is the empty string and [getApiConfig()] the
    provider [gemini] with the default model; the defaults are written
    back only when the document does not exist; and [runExtraction], given
    that key, alerts and does nothing else. *)
Theorem settings_without_key
    (got : result (option (list (jsstring * jsvalue)))) :
  got = Ok None \/ (exists e, got = Throw e)
  \/ (exists data, got = Ok (Some data)
                   /\ truthy (member (JObject data) (lit "userApiSettings")) = false) ->
  let settings := fst (loadUserSettingsFromFirebase got) in
  getApiKey settings = JString []
  /\ getApiConfig settings
     = {| config_apiKey := JString [];
          config_model := JString defaultModel;
          config_provider := JString (lit "gemini") |}
  /\ (snd (loadUserSettingsFromFirebase got) = true <-> got = Ok None)
  /\ forall (P : jsstring) (w : world) (turns : list turn),
       JString (apiKey w) = config_apiKey (getApiConfig settings) ->
       runExtraction P w turns = Some ([Alert], NotStarted).
Proof.
  intros Hgot settings.
  assert (settings = defaultSettings \/ settings = JObject []) as Hsettings.
  { subst settings. destruct Hgot as [-> | [[e ->] | [data [-> Hfalsy]]]].
    - left. reflexivity.
    - left. reflexivity.
    - right. cbn [loadUserSettingsFromFirebase fst]. unfold orValue.
      rewrite Hfalsy. reflexivity. }
  assert (getApiConfig settings
          = {| config_apiKey := JString [];
               config_model := JString defaultModel;
               config_provider := JString (lit "gemini") |}) as Hconfig
    by (destruct Hsettings as [-> | ->]; reflexivity).
  split; [destruct Hsettings as [-> | ->]; reflexivity|].
  split; [exact Hconfig|]. split.
  - destruct Hgot as [-> | [[e ->] | [data [-> _]]]]; cbn [loadUserSettingsFromFirebase snd];
      split; intros H; try reflexivity; discriminate.
  - intros P w turns Hkey. rewrite Hconfig in Hkey. cbn [config_apiKey] in Hkey.
    injection Hkey as Hkey. unfold runExtraction. rewrite Hkey. reflexivity.
Qed.

Lemma settings_without_key_witness :
  runExtraction (lit "Refine.")
    {| apiKey := []; promptAnswer := Some (lit "1"); dom := wholePage;
       fetch := sampleFetch;
       storeReady := true; confirmDownload := true |}
    sampleTurns
  = Some ([Alert], NotStarted).
Proof.
  exact (proj2 (proj2 (proj2 (settings_without_key (Throw (lit "offline"))
                                (or_intror (or_introl (ex_intro _ (lit "offline") eq_refl))))))
           (lit "Refine.")
           {| apiKey := []; promptAnswer := Some (lit "1"); dom := wholePage;
       fetch := sampleFetch;
              storeReady := true; confirmDownload := true |}
           sampleTurns eq_refl).
Defined.

End FallbackFacts.
